(** * Focus sessions, pods and rewards: a shallow embedding

    The development follows the TypeScript sources:
    - [types/index.ts]            the records and the achievement catalog,
    - [storage/postgres.ts]       the store (tables keyed by primary key),
    - [services/gamification.ts]  streaks, achievements, reward formula,
    - the pomodoro service        [startSession], [completeSession], [cancelSession],
    - the pod service             [createPod], [completePod], [cancelPod].

    It is laid out as: the embedding of the code; the vocabulary of the
    statements and the sample stores; the lemmas on each operation; the
    properties of the services.

    Modelling conventions.
    - A table with a primary key is a finite map from the key to the row;
      an [INSERT] that repeats a key, breaks a [UNIQUE] column or refers to
      a missing row through a foreign key raises [DbConstraint].
      Notifications are only ever inserted and never read by the services:
      they are kept as an append-only log (their key is a random UUID).
    - Integer columns are [Z]; dates are milliseconds since the epoch, and
      [lastActiveDate], an ISO timestamp in the source, is one of them.
      The widths of the columns ([VARCHAR(n)], 32-bit [INTEGER]) are not
      modelled.
    - [async] functions are programs in a state-and-exception monad over
      the store; a [throw] keeps the writes made before it.
    - [crypto.randomUUID] and [crypto.randomBytes] read an oracle carried
      by the store, and so is the wall clock, which does not advance while
      one operation runs. Calendar days are days of UTC.
    - Decimal arithmetic of [calculatePomodoroReward] and of the completion
      rate is exact rational arithmetic; a binary64 rendering of the reward
      formula is compared with it on the inputs the services pass. *)

From Stdlib Require Import ZArith QArith Qround Qminmax Lqa Lia String Ascii.
From Stdlib Require Import PrimFloat SpecFloat FloatOps.
From stdpp Require Import gmap strings list fin_maps pretty sorting.

Local Open Scope Z_scope.

(** ** Data model ([types/index.ts]) *)

Inductive TaskAction := TA_COMPLETED | TA_SPLIT | TA_POSTPONED | TA_SKIPPED.

Inductive PodStatus := WAITING | ACTIVE | COMPLETED | CANCELLED.

Inductive NotificationType :=
| DAILY_REMINDER | ACHIEVEMENT_UNLOCKED | STREAK_WARNING | WEEKLY_STATS
| POD_INVITE | POD_STARTED | POD_COMPLETED.

Inductive RequirementType :=
| Rpomodoros | Rtasks | Rstreak | Rpods | Rfocus_hours.

#[global] Instance TaskAction_eq_dec : EqDecision TaskAction.
Proof. solve_decision. Defined.
#[global] Instance PodStatus_eq_dec : EqDecision PodStatus.
Proof. solve_decision. Defined.
#[global] Instance RequirementType_eq_dec : EqDecision RequirementType.
Proof. solve_decision. Defined.

Module User.
Record t := mk {
  id : string;
  maxUserId : string;
  name : string;
  focusCoins : Z;
  totalPomodoros : Z;
  totalFocusMinutes : Z;
  completedTasks : Z;
  currentStreak : Z;
  bestStreak : Z;
  lastActiveDate : Z;
  achievements : list string;
  createdAt : Z
}.
End User.
Abbreviation User := User.t.

Module PomodoroSession.
Record t := mk {
  id : string;
  userId : string;
  duration : Z;
  startTime : Z;
  endTime : option Z;
  completed : bool;
  taskAction : option TaskAction;
  podId : option string;
  reward : Z
}.
End PomodoroSession.
Abbreviation PomodoroSession := PomodoroSession.t.

Module PodParticipant.
Record t := mk {
  userId : string;
  userName : string;
  joinedAt : Z;
  isCreator : bool;
  taskCompleted : option bool;
  taskAction : option TaskAction
}.
End PodParticipant.
Abbreviation PodParticipant := PodParticipant.t.

Module Pod.
Record t := mk {
  id : string;
  inviteCode : string;
  creatorId : string;
  title : string;
  duration : Z;
  participants : list PodParticipant;
  startTime : option Z;
  endTime : option Z;
  status : PodStatus;
  shareLink : string;
  createdAt : Z
}.
End Pod.
Abbreviation Pod := Pod.t.

Module Achievement.
Record t := mk {
  id : string;
  name : string;
  description : string;
  icon : string;
  req_type : RequirementType;
  req_count : Z;
  reward : Z
}.
End Achievement.
Abbreviation Achievement := Achievement.t.

Module UserStats.
Record t := mk {
  userId : string;
  weekPomodoros : Z;
  weekFocusMinutes : Z;
  weekTasksCompleted : Z;
  weekFocusCoins : Z;
  todayPomodoros : Z;
  todayFocusMinutes : Z
}.
End UserStats.
Abbreviation UserStats := UserStats.t.

Module Notification.
Record t := mk {
  id : string;
  userId : string;
  type : NotificationType;
  message : string;
  sentAt : Z;
  read : bool
}.
End Notification.
Abbreviation Notification := Notification.t.

(** The static catalog [ACHIEVEMENTS]. *)
Definition ACHIEVEMENTS : list Achievement :=
  [ Achievement.mk "first_focus" "First Focus"
      "Завершил первую Pomodoro-сессию" "🎯" Rpomodoros 1 5;
    Achievement.mk "focus_streak_3" "Focus Streak 3"
      "3 дня подряд с фокус-сессиями" "🔥" Rstreak 3 10;
    Achievement.mk "focus_streak_7" "Focus Streak 7"
      "7 дней подряд с фокус-сессиями" "🔥🔥" Rstreak 7 25;
    Achievement.mk "task_master" "Task Master"
      "Выполнил 10 задач" "✅" Rtasks 10 15;
    Achievement.mk "pod_pioneer" "Pod Pioneer"
      "Создал первый Pod" "🚀" Rpods 1 10;
    Achievement.mk "early_bird" "Early Bird"
      "5 часов фокуса" "🌅" Rfocus_hours 5 20;
    Achievement.mk "focus_master" "Focus Master"
      "25 Pomodoro-сессий" "🏆" Rpomodoros 25 50;
    Achievement.mk "marathon_runner" "Marathon Runner"
      "50 часов фокуса" "🎖️" Rfocus_hours 50 100 ].

(** ** The store ([storage/postgres.ts]) *)

Record Store := mkStore {
  users : gmap string User;
  sessions : gmap string PomodoroSession;
  pods : gmap string Pod;
  user_stats : gmap string UserStats;
  notifications : list Notification;
  (* oracle behind [crypto.randomUUID] and [crypto.randomBytes] *)
  rng_uuid : nat -> string;
  rng_bytes : nat -> N;
  rng_pos : nat;
  (* wall clock, read by [Date.now()] and [new Date()] *)
  clock : Z
}.

Definition set_users (f : gmap string User -> gmap string User) (st : Store) : Store :=
  mkStore (f (users st)) (sessions st) (pods st) (user_stats st)
          (notifications st) (rng_uuid st) (rng_bytes st) (rng_pos st) (clock st).

Definition set_sessions
    (f : gmap string PomodoroSession -> gmap string PomodoroSession) (st : Store) : Store :=
  mkStore (users st) (f (sessions st)) (pods st) (user_stats st)
          (notifications st) (rng_uuid st) (rng_bytes st) (rng_pos st) (clock st).

Definition set_pods (f : gmap string Pod -> gmap string Pod) (st : Store) : Store :=
  mkStore (users st) (sessions st) (f (pods st)) (user_stats st)
          (notifications st) (rng_uuid st) (rng_bytes st) (rng_pos st) (clock st).

Definition set_user_stats
    (f : gmap string UserStats -> gmap string UserStats) (st : Store) : Store :=
  mkStore (users st) (sessions st) (pods st) (f (user_stats st))
          (notifications st) (rng_uuid st) (rng_bytes st) (rng_pos st) (clock st).

Definition set_notifications
    (f : list Notification -> list Notification) (st : Store) : Store :=
  mkStore (users st) (sessions st) (pods st) (user_stats st)
          (f (notifications st)) (rng_uuid st) (rng_bytes st) (rng_pos st) (clock st).

Definition advance_rng (st : Store) : Store :=
  mkStore (users st) (sessions st) (pods st) (user_stats st)
          (notifications st) (rng_uuid st) (rng_bytes st) (S (rng_pos st)) (clock st).

(** ** Programs: state and exceptions *)

Inductive Error :=
| UserNotFound            (* 'User not found' *)
| SessionNotFound         (* 'Session not found' *)
| SessionAlreadyActive    (* 'У вас уже есть активная сессия' *)
| SessionAlreadyCompleted (* 'Session already completed' *)
| FailedToUpdateSession   (* 'Failed to update session' *)
| PodNotFound             (* 'Pod not found' *)
| PodNotActive            (* 'Pod is not active' *)
| FailedToCompletePod     (* 'Failed to complete pod' *)
| DbConstraint.           (* an INSERT rejected by the schema *)

Inductive Result (A : Type) :=
| Ok (a : A)
| Err (e : Error).
Arguments Ok {A} a.
Arguments Err {A} e.

Definition M (A : Type) : Type := Store -> Result A * Store.

Definition ret {A} (a : A) : M A := fun st => (Ok a, st).
Definition throw {A} (e : Error) : M A := fun st => (Err e, st).
Definition bind {A B} (m : M A) (k : A -> M B) : M B :=
  fun st =>
    match m st with
    | (Ok a, st') => k a st'
    | (Err e, st') => (Err e, st')
    end.

Notation "x <- c1 ;; c2" := (bind c1 (fun x => c2))
  (at level 100, c1 at next level, right associativity).
Notation "c1 ;; c2" := (bind c1 (fun _ => c2))
  (at level 100, right associativity).

(** [for (const x of xs) { await body(x) }] *)
Fixpoint for_each {A} (xs : list A) (body : A -> M unit) : M unit :=
  match xs with
  | [] => ret tt
  | x :: xs' => body x ;; for_each xs' body
  end.

(** [x] if defined, else [throw e]. *)
Definition or_throw {A} (o : option A) (e : Error) : M A :=
  match o with
  | Some a => ret a
  | None => throw e
  end.

Definition Date_now : M Z := fun st => (Ok (clock st), st).

Definition randomUUID : M string :=
  fun st => (Ok (rng_uuid st (rng_pos st)), advance_rng st).

(** [crypto.randomBytes(n)]: the [n] low-order bytes of the next draw,
    most significant first. *)
Fixpoint bytes_of (n : nat) (x : N) : list N :=
  match n with
  | O => []
  | S n' => bytes_of n' (x / 256)%N ++ [(x mod 256)%N]
  end.

Definition randomBytes (n : nat) : M (list N) :=
  fun st => (Ok (bytes_of n (rng_bytes st (rng_pos st))), advance_rng st).

(** ** Store operations ([storage/postgres.ts]) *)

(** [Partial<User>]: the columns an [UPDATE users SET ...] assigns, in order. *)
Inductive UserUpdate :=
| SetFocusCoins (v : Z)
| SetTotalPomodoros (v : Z)
| SetTotalFocusMinutes (v : Z)
| SetCompletedTasks (v : Z)
| SetCurrentStreak (v : Z)
| SetBestStreak (v : Z)
| SetLastActiveDate (v : Z)
| SetAchievements (v : list string).

Definition apply_user_update (u : User) (f : UserUpdate) : User :=
  let '(User.mk i mx nm coins pomos mins tasks cur best last achs created) := u in
  match f with
  | SetFocusCoins v => User.mk i mx nm v pomos mins tasks cur best last achs created
  | SetTotalPomodoros v => User.mk i mx nm coins v mins tasks cur best last achs created
  | SetTotalFocusMinutes v => User.mk i mx nm coins pomos v tasks cur best last achs created
  | SetCompletedTasks v => User.mk i mx nm coins pomos mins v cur best last achs created
  | SetCurrentStreak v => User.mk i mx nm coins pomos mins tasks v best last achs created
  | SetBestStreak v => User.mk i mx nm coins pomos mins tasks cur v last achs created
  | SetLastActiveDate v => User.mk i mx nm coins pomos mins tasks cur best v achs created
  | SetAchievements v => User.mk i mx nm coins pomos mins tasks cur best last v created
  end.

(** [Partial<PomodoroSession>]; [taskAction: undefined] is written as NULL. *)
Inductive SessionUpdate :=
| SetCompleted (v : bool)
| SetEndTime (v : Z)
| SetTaskAction (v : option TaskAction)
| SetReward (v : Z).

Definition apply_session_update (s : PomodoroSession) (f : SessionUpdate)
    : PomodoroSession :=
  let '(PomodoroSession.mk i uid dur start fin done act pod rew) := s in
  match f with
  | SetCompleted v => PomodoroSession.mk i uid dur start fin v act pod rew
  | SetEndTime v => PomodoroSession.mk i uid dur start (Some v) done act pod rew
  | SetTaskAction v => PomodoroSession.mk i uid dur start fin done v pod rew
  | SetReward v => PomodoroSession.mk i uid dur start fin done act pod v
  end.

(** [Partial<Pod>] *)
Inductive PodUpdate :=
| SetStatus (v : PodStatus)
| SetPodStartTime (v : Z)
| SetPodEndTime (v : Z)
| SetParticipants (v : list PodParticipant).

Definition apply_pod_update (p : Pod) (f : PodUpdate) : Pod :=
  let '(Pod.mk i code creator ttl dur parts start fin stat link created) := p in
  match f with
  | SetStatus v => Pod.mk i code creator ttl dur parts start fin v link created
  | SetPodStartTime v => Pod.mk i code creator ttl dur parts (Some v) fin stat link created
  | SetPodEndTime v => Pod.mk i code creator ttl dur parts start (Some v) stat link created
  | SetParticipants v => Pod.mk i code creator ttl dur v start fin stat link created
  end.

Definition getUser (userId : string) : M (option User) :=
  fun st => (Ok (users st !! userId), st).

Definition updateUser (userId : string) (updates : list UserUpdate) : M (option User) :=
  match updates with
  | [] => getUser userId
  | _ =>
      fun st =>
        match users st !! userId with
        | Some u =>
            let u' := fold_left apply_user_update updates u in
            (Ok (Some u'), set_users (insert userId u') st)
        | None => (Ok None, st)
        end
  end.

Definition getSession (sessionId : string) : M (option PomodoroSession) :=
  fun st => (Ok (sessions st !! sessionId), st).

Definition createSession (session : PomodoroSession) : M PomodoroSession :=
  fun st =>
    let pk_free := bool_decide (sessions st !! PomodoroSession.id session = None) in
    let fk_user := bool_decide (is_Some (users st !! PomodoroSession.userId session)) in
    let fk_pod :=
      match PomodoroSession.podId session with
      | Some p => bool_decide (is_Some (pods st !! p))
      | None => true
      end in
    if pk_free && fk_user && fk_pod
    then (Ok session, set_sessions (insert (PomodoroSession.id session) session) st)
    else (Err DbConstraint, st).

Definition updateSession (sessionId : string) (updates : list SessionUpdate)
    : M (option PomodoroSession) :=
  match updates with
  | [] => getSession sessionId
  | _ =>
      fun st =>
        match sessions st !! sessionId with
        | Some s =>
            let s' := fold_left apply_session_update updates s in
            (Ok (Some s'), set_sessions (insert sessionId s') st)
        | None => (Ok None, st)
        end
  end.

(** [SELECT ... WHERE user_id = $1 ORDER BY start_time DESC] *)
Definition later_start (a b : PomodoroSession) : Prop :=
  PomodoroSession.startTime b <= PomodoroSession.startTime a.

#[global] Instance later_start_dec : RelDecision later_start.
Proof. intros a b. unfold later_start. apply _. Defined.

Definition getUserSessions (userId : string) : M (list PomodoroSession) :=
  fun st =>
    (Ok (merge_sort later_start
           (filter (fun s => PomodoroSession.userId s = userId)
                   (map_to_list (sessions st)).*2)), st).

Definition getPod (podId : string) : M (option Pod) :=
  fun st => (Ok (pods st !! podId), st).

(** [invite_code VARCHAR(20) UNIQUE NOT NULL] *)
Definition invite_code_taken (code : string) (ps : gmap string Pod) : Prop :=
  map_Exists (fun _ p => Pod.inviteCode p = code) ps.

Definition db_createPod (pod : Pod) : M Pod :=
  fun st =>
    let pk_free := bool_decide (pods st !! Pod.id pod = None) in
    let code_free := bool_decide (~ invite_code_taken (Pod.inviteCode pod) (pods st)) in
    let fk_user := bool_decide (is_Some (users st !! Pod.creatorId pod)) in
    if pk_free && code_free && fk_user
    then (Ok pod, set_pods (insert (Pod.id pod) pod) st)
    else (Err DbConstraint, st).

Definition updatePod (podId : string) (updates : list PodUpdate) : M (option Pod) :=
  match updates with
  | [] => getPod podId
  | _ =>
      fun st =>
        match pods st !! podId with
        | Some p =>
            let p' := fold_left apply_pod_update updates p in
            (Ok (Some p'), set_pods (insert podId p') st)
        | None => (Ok None, st)
        end
  end.

(** [SELECT ... WHERE participants @> [{userId}] ORDER BY created_at DESC] *)
Definition later_created (a b : Pod) : Prop := Pod.createdAt b <= Pod.createdAt a.

#[global] Instance later_created_dec : RelDecision later_created.
Proof. intros a b. unfold later_created. apply _. Defined.

Definition getUserPods (userId : string) : M (list Pod) :=
  fun st =>
    (Ok (merge_sort later_created
           (filter (fun p => userId ∈ PodParticipant.userId <$> Pod.participants p)
                   (map_to_list (pods st)).*2)), st).

Definition createNotification (n : Notification) : M Notification :=
  fun st =>
    if bool_decide (is_Some (users st !! Notification.userId n))
    then (Ok n, set_notifications (fun l => l ++ [n]) st)
    else (Err DbConstraint, st).

Definition getUserStats (userId : string) : M (option UserStats) :=
  fun st => (Ok (user_stats st !! userId), st).

(** [INSERT ... ON CONFLICT (user_id) DO UPDATE SET ...]: every column of
    [stats] but [userId] is written to the row of [userId]. *)
Definition db_updateUserStats (userId : string) (stats : UserStats) : M UserStats :=
  fun st =>
    if bool_decide (is_Some (users st !! userId))
    then
      let row :=
        UserStats.mk userId (UserStats.weekPomodoros stats)
          (UserStats.weekFocusMinutes stats) (UserStats.weekTasksCompleted stats)
          (UserStats.weekFocusCoins stats) (UserStats.todayPomodoros stats)
          (UserStats.todayFocusMinutes stats) in
      (Ok row, set_user_stats (insert userId row) st)
    else (Err DbConstraint, st).

(** ** JavaScript numbers and strings used by the services *)

Definition Math_floor (x : Q) : Z := Qfloor x.

(** [Math.round]: the nearest integer, a tie going up. *)
Definition Math_round (x : Q) : Z := Qfloor (x + (1 # 2)).

(** The quotient of two integers as a JavaScript number. *)
Inductive jsnum :=
| Fin (q : Q)
| PosInf
| NegInf
| NaN.

Definition js_div (a b : Z) : jsnum :=
  if b =? 0 then
    if 0 <? a then PosInf else if a <? 0 then NegInf else NaN
  else Fin (inject_Z a / inject_Z b).

(** [x >= q] for a finite [q] *)
Definition js_ge (x : jsnum) (q : Q) : bool :=
  match x with
  | Fin p => Qle_bool q p
  | PosInf => true
  | NegInf | NaN => false
  end.

Definition MS_PER_DAY : Z := 24 * 60 * 60 * 1000.

(** [new Date(t).toDateString()]: two instants give the same text exactly
    when they fall on the same calendar day, so the day number stands for
    the text. *)
Definition toDateString (t : Z) : Z := t / MS_PER_DAY.

Definition dquote : string := String (ascii_of_nat 34) EmptyString.

Definition hex_digit (d : N) : ascii :=
  match d with
  | 0%N => "0" | 1%N => "1" | 2%N => "2" | 3%N => "3" | 4%N => "4"
  | 5%N => "5" | 6%N => "6" | 7%N => "7" | 8%N => "8" | 9%N => "9"
  | 10%N => "a" | 11%N => "b" | 12%N => "c" | 13%N => "d" | 14%N => "e"
  | _ => "f"
  end%char.

(** [buffer.toString('hex')] *)
Fixpoint toString_hex (bs : list N) : string :=
  match bs with
  | [] => EmptyString
  | b :: bs' =>
      String (hex_digit (b / 16)%N) (String (hex_digit (b mod 16)%N) (toString_hex bs'))
  end.

Definition upper_ascii (c : ascii) : ascii :=
  let n := nat_of_ascii c in
  if (97 <=? n)%nat && (n <=? 122)%nat then ascii_of_nat (n - 32) else c.

(** [s.toUpperCase()] on the ASCII letters *)
Fixpoint toUpperCase (s : string) : string :=
  match s with
  | EmptyString => EmptyString
  | String c s' => String (upper_ascii c) (toUpperCase s')
  end.

(** ** Gamification service ([services/gamification.ts]) *)

Definition awardFocusCoins (userId : string) (amount : Z) : M Z :=
  o <- getUser userId ;;
  user <- or_throw o UserNotFound ;;
  let newBalance := User.focusCoins user + amount in
  updateUser userId [SetFocusCoins newBalance] ;;
  ret newBalance.

(** [ACHIEVEMENTS.find(a => a.id === achievementId)] *)
Definition catalog_find (achievementId : string) : option Achievement :=
  List.find (fun a => bool_decide (Achievement.id a = achievementId)) ACHIEVEMENTS.
Arguments catalog_find : simpl never.

(** The text of the achievement-unlocked notification. *)
Definition unlock_message (achievement : Achievement) : string :=
  "🏆 Разблокировано: " +:+ Achievement.icon achievement +:+ " "
    +:+ Achievement.name achievement +:+ "! +"
    +:+ pretty (Achievement.reward achievement) +:+ " FocusCoins".
Arguments unlock_message : simpl never.

Definition unlockAchievement (userId achievementId : string) : M bool :=
  o <- getUser userId ;;
  user <- or_throw o UserNotFound ;;
  if bool_decide (achievementId ∈ User.achievements user) then ret false
  else
    match catalog_find achievementId with
    | None => ret false
    | Some achievement =>
        let achievements := User.achievements user ++ [achievementId] in
        updateUser userId [SetAchievements achievements] ;;
        awardFocusCoins userId (Achievement.reward achievement) ;;
        nid <- randomUUID ;;
        now <- Date_now ;;
        createNotification
          (Notification.mk nid userId ACHIEVEMENT_UNLOCKED
             (unlock_message achievement) now false) ;;
        ret true
    end.

(** [ACHIEVEMENTS.filter(a => a.requirement.type === 'streak' &&
    a.requirement.count === streak)] *)
Definition streakAchievements (streak : Z) : list Achievement :=
  List.filter
    (fun a => bool_decide (Achievement.req_type a = Rstreak)
              && bool_decide (Achievement.req_count a = streak))
    ACHIEVEMENTS.
Arguments streakAchievements : simpl never.

Definition checkStreakAchievements (userId : string) (streak : Z) : M unit :=
  for_each (streakAchievements streak)
    (fun achievement => unlockAchievement userId (Achievement.id achievement) ;; ret tt).

Definition updateStreak (userId : string) : M (Z * Z) :=
  o <- getUser userId ;;
  user <- or_throw o UserNotFound ;;
  now <- Date_now ;;
  let today := toDateString now in
  let lastActive := toDateString (User.lastActiveDate user) in
  let yesterday := toDateString (now - 24 * 60 * 60 * 1000) in
  let currentStreak := User.currentStreak user in
  let bestStreak := User.bestStreak user in
  if bool_decide (lastActive = today) then ret (currentStreak, bestStreak)
  else
    let currentStreak :=
      if bool_decide (lastActive = yesterday) then currentStreak + 1 else 1 in
    let bestStreak :=
      if bool_decide (currentStreak > bestStreak) then currentStreak else bestStreak in
    updateUser userId
      [SetCurrentStreak currentStreak; SetBestStreak bestStreak; SetLastActiveDate now] ;;
    checkStreakAchievements userId currentStreak ;;
    ret (currentStreak, bestStreak).

Definition checkAchievementRequirement (user : User) (achievement : Achievement) : M bool :=
  let count := Achievement.req_count achievement in
  match Achievement.req_type achievement with
  | Rpomodoros => ret (bool_decide (User.totalPomodoros user >= count))
  | Rtasks => ret (bool_decide (User.completedTasks user >= count))
  | Rstreak => ret (bool_decide (User.currentStreak user >= count))
  | Rfocus_hours =>
      let hours := User.totalFocusMinutes user / 60 in
      ret (bool_decide (hours >= count))
  | Rpods =>
      userPods <- getUserPods (User.id user) ;;
      let createdPods :=
        List.filter (fun p => bool_decide (Pod.creatorId p = User.id user)) userPods in
      ret (bool_decide (Z.of_nat (length createdPods) >= count))
  end.

(** The body of the [for] loop of [checkAchievements]; [unlockedAchievements]
    is the list built so far. *)
Fixpoint checkAchievements_loop (userId : string) (user : User)
    (catalog : list Achievement) (unlockedAchievements : list string)
    : M (list string) :=
  match catalog with
  | [] => ret unlockedAchievements
  | achievement :: rest =>
      if bool_decide (Achievement.id achievement ∈ User.achievements user)
      then checkAchievements_loop userId user rest unlockedAchievements
      else
        meetsRequirement <- checkAchievementRequirement user achievement ;;
        if meetsRequirement : bool then
          unlocked <- unlockAchievement userId (Achievement.id achievement) ;;
          checkAchievements_loop userId user rest
            (if unlocked : bool
             then unlockedAchievements ++ [Achievement.id achievement]
             else unlockedAchievements)
        else checkAchievements_loop userId user rest unlockedAchievements
  end.

Definition checkAchievements (userId : string) : M (list string) :=
  o <- getUser userId ;;
  user <- or_throw o UserNotFound ;;
  checkAchievements_loop userId user ACHIEVEMENTS [].

Definition calculatePomodoroReward (baseReward streak : Q) (inPod : bool) : Z :=
  let reward := baseReward in
  let streakBonus := Qmin (inject_Z (Math_floor (streak / 3)) * 0.1) 0.5 in
  let reward := (reward + baseReward * streakBonus)%Q in
  let reward := if inPod then (reward + baseReward * 0.5)%Q else reward in
  Math_round reward.

(** ** Pomodoro service *)

(** [!s.completed && !s.endTime] *)
Definition is_open (s : PomodoroSession) : bool :=
  negb (PomodoroSession.completed s)
  && negb (bool_decide (is_Some (PomodoroSession.endTime s))).

(** [!!session.podId]: an absent or empty id is falsy. *)
Definition truthy_id (o : option string) : bool :=
  match o with
  | Some p => negb (bool_decide (p = EmptyString))
  | None => false
  end.

Definition startSession (userId : string) (duration : option Z) (podId : option string)
    : M PomodoroSession :=
  let duration := default 25 duration in
  existingSessions <- getUserSessions userId ;;
  match List.find is_open existingSessions with
  | Some _ => throw SessionAlreadyActive
  | None =>
      o <- getUser userId ;;
      _ <- or_throw o UserNotFound ;;
      sid <- randomUUID ;;
      now <- Date_now ;;
      let session :=
        PomodoroSession.mk sid userId duration now None false None podId 0 in
      createSession session ;;
      updateStreak userId ;;
      ret session
  end.

Definition updateUserStats (userId : string) (minutes coins : Z) : M unit :=
  o <- getUserStats userId ;;
  let stats := default (UserStats.mk userId 0 0 0 0 0 0) o in
  let stats :=
    UserStats.mk (UserStats.userId stats)
      (UserStats.weekPomodoros stats + 1)
      (UserStats.weekFocusMinutes stats + minutes)
      (UserStats.weekTasksCompleted stats)
      (UserStats.weekFocusCoins stats + coins)
      (UserStats.todayPomodoros stats + 1)
      (UserStats.todayFocusMinutes stats + minutes) in
  db_updateUserStats userId stats ;;
  ret tt.

Record CompleteResult := mkCompleteResult {
  cr_session : PomodoroSession;
  cr_reward : Z;
  cr_achievements : list string;
  cr_actualMinutes : Z
}.

(** The timer map [activeSessions] of the service is never written, so the
    lookups that close [completeSession] and [cancelSession] find nothing. *)
Definition completeSession (sessionId : string) (taskAction : option TaskAction)
    (isEarlyCompletion : bool) : M CompleteResult :=
  o <- getSession sessionId ;;
  session <- or_throw o SessionNotFound ;;
  if PomodoroSession.completed session then throw SessionAlreadyCompleted
  else
    o <- getUser (PomodoroSession.userId session) ;;
    user <- or_throw o UserNotFound ;;
    now <- Date_now ;;
    let actualMinutes := (now - PomodoroSession.startTime session) / 60000 in
    let completionRate := js_div actualMinutes (PomodoroSession.duration session) in
    granted <-
      (if js_ge completionRate 0.9 || negb isEarlyCompletion then
         let baseReward := 1%Q in
         let inPod := truthy_id (PomodoroSession.podId session) in
         let reward :=
           calculatePomodoroReward baseReward (inject_Z (User.currentStreak user)) inPod in
         updateUser (PomodoroSession.userId session)
           [SetTotalPomodoros (User.totalPomodoros user + 1);
            SetTotalFocusMinutes (User.totalFocusMinutes user + actualMinutes);
            SetFocusCoins (User.focusCoins user + reward)] ;;
         updateUserStats (PomodoroSession.userId session) actualMinutes reward ;;
         achievements <- checkAchievements (PomodoroSession.userId session) ;;
         ret (reward, achievements)
       else
         updateUser (PomodoroSession.userId session)
           [SetTotalFocusMinutes (User.totalFocusMinutes user + actualMinutes)] ;;
         ret (0, [])) ;;
    let '(reward, achievements) := granted in
    o <- updateSession sessionId
           [SetCompleted true; SetEndTime now; SetTaskAction taskAction; SetReward reward] ;;
    updated <- or_throw o FailedToUpdateSession ;;
    ret (mkCompleteResult updated reward achievements actualMinutes).

Definition cancelSession (sessionId : string) : M bool :=
  o <- getSession sessionId ;;
  match o with
  | None => ret false
  | Some _ =>
      now <- Date_now ;;
      updateSession sessionId [SetCompleted false; SetEndTime now] ;;
      ret true
  end.

Definition getActiveSession (userId : string) : M (option PomodoroSession) :=
  sessions <- getUserSessions userId ;;
  ret (List.find is_open sessions).

(** ** Pod service *)

(** [process.env.BOT_USERNAME || 't257_hakaton_bot'] *)
Definition botUsername (env_BOT_USERNAME : option string) : string :=
  match env_BOT_USERNAME with
  | Some s => if bool_decide (s = EmptyString) then "t257_hakaton_bot" else s
  | None => "t257_hakaton_bot"
  end.

Definition createPod (bot : string) (creatorId creatorName : string) (duration : Z)
    (title : option string) : M (Pod * string) :=
  podId <- randomUUID ;;
  bytes <- randomBytes 4 ;;
  let inviteCode := toUpperCase (toString_hex bytes) in
  let shareLink := "https://max.ru/" +:+ bot +:+ "?start=pod_" +:+ inviteCode in
  now <- Date_now ;;
  let creator := PodParticipant.mk creatorId creatorName now true None None in
  let title :=
    match title with
    | Some t => if bool_decide (t = EmptyString) then "Фокус-Pod от " +:+ creatorName else t
    | None => "Фокус-Pod от " +:+ creatorName
    end in
  let pod :=
    Pod.mk podId inviteCode creatorId title duration [creator] None None WAITING
      shareLink now in
  db_createPod pod ;;
  checkAchievements creatorId ;;
  ret (pod, inviteCode).

Definition completePod (podId : string) : M Pod :=
  o <- getPod podId ;;
  pod <- or_throw o PodNotFound ;;
  if bool_decide (Pod.status pod <> ACTIVE) then throw PodNotActive
  else
    now <- Date_now ;;
    o <- updatePod podId [SetStatus COMPLETED; SetPodEndTime now] ;;
    updatedPod <- or_throw o FailedToCompletePod ;;
    for_each (Pod.participants pod)
      (fun participant =>
         nid <- randomUUID ;;
         createNotification
           (Notification.mk nid (PodParticipant.userId participant) POD_COMPLETED
              ("Pod " +:+ dquote +:+ Pod.title pod +:+ dquote
                 +:+ " завершён! 🎉 Что ты успел сделать?")
              now false) ;;
         ret tt) ;;
    ret updatedPod.

Definition cancelPod (podId : string) : M Pod :=
  o <- getPod podId ;;
  pod <- or_throw o PodNotFound ;;
  updatePod podId [SetStatus CANCELLED] ;;
  now <- Date_now ;;
  for_each (Pod.participants pod)
    (fun participant =>
       if bool_decide (PodParticipant.userId participant <> Pod.creatorId pod) then
         nid <- randomUUID ;;
         createNotification
           (Notification.mk nid (PodParticipant.userId participant) POD_INVITE
              ("Pod " +:+ dquote +:+ Pod.title pod +:+ dquote +:+ " был отменён")
              now false) ;;
         ret tt
       else ret tt) ;;
  ret pod.


(** * More of the code: the rest of the three services *)

(** ** More of the store ([storage/postgres.ts]) *)

(** [SELECT * FROM users] *)
Definition getAllUsers : M (list User) :=
  fun st => (Ok (map_to_list (users st)).*2, st).

(** [SELECT * FROM pods] *)
Definition getAllPods : M (list Pod) :=
  fun st => (Ok (map_to_list (pods st)).*2, st).

(** [SELECT * FROM pods WHERE invite_code = $1], first row *)
Definition getPodByInviteCode (inviteCode : string) : M (option Pod) :=
  fun st =>
    (Ok (List.find (fun p => bool_decide (Pod.inviteCode p = inviteCode))
           (map_to_list (pods st)).*2), st).

(** ** More of the JavaScript library *)

(** [s.padStart(n, c)] for a one-character filler *)
Definition padStart (n : nat) (c : ascii) (s : string) : string :=
  String.concat EmptyString (replicate (n - String.length s) (String c EmptyString)) +:+ s.

(** [l.slice(0, limit)]: a negative [limit] counts from the end. *)
Definition slice_from_0 {A} (l : list A) (limit : Z) : list A :=
  if 0 <=? limit then take (Z.to_nat limit) l
  else take (length l - Z.to_nat (- limit)) l.

(** [l.findIndex(p)], with [None] for [-1] *)
Fixpoint findIndex {A} (p : A -> bool) (l : list A) : option nat :=
  match l with
  | [] => None
  | x :: l' => if p x then Some O else S <$> findIndex p l'
  end.

(** ** More of the pomodoro service *)

Record SessionInfo := mkSessionInfo {
  si_session : PomodoroSession;
  si_remainingMinutes : Z;
  si_remainingSeconds : Z
}.

Definition getSessionInfo (sessionId : string) : M (option SessionInfo) :=
  o <- getSession sessionId ;;
  match o with
  | None => ret None
  | Some session =>
      if PomodoroSession.completed session then ret None
      else
        now <- Date_now ;;
        let elapsed := now - PomodoroSession.startTime session in
        let totalMs := PomodoroSession.duration session * 60 * 1000 in
        let remaining := Z.max 0 (totalMs - elapsed) in
        let remainingMinutes := remaining / (60 * 1000) in
        let remainingSeconds := Z.rem remaining (60 * 1000) / 1000 in
        ret (Some (mkSessionInfo session remainingMinutes remainingSeconds))
  end.

Definition formatRemainingTime (minutes seconds : Z) : string :=
  let m := padStart 2 "0" (pretty minutes) in
  let s := padStart 2 "0" (pretty seconds) in
  m +:+ ":" +:+ s.

Definition resetDailyStats : M unit :=
  users <- getAllUsers ;;
  for_each users
    (fun user =>
       o <- getUserStats (User.id user) ;;
       match o with
       | Some stats =>
           db_updateUserStats (User.id user)
             (UserStats.mk (UserStats.userId stats) (UserStats.weekPomodoros stats)
                (UserStats.weekFocusMinutes stats) (UserStats.weekTasksCompleted stats)
                (UserStats.weekFocusCoins stats) 0 0) ;;
           ret tt
       | None => ret tt
       end).

Definition resetWeeklyStats : M unit :=
  users <- getAllUsers ;;
  for_each users
    (fun user =>
       o <- getUserStats (User.id user) ;;
       match o with
       | Some stats =>
           db_updateUserStats (User.id user)
             (UserStats.mk (UserStats.userId stats) 0 0 0 0
                (UserStats.todayPomodoros stats) (UserStats.todayFocusMinutes stats)) ;;
           ret tt
       | None => ret tt
       end).

Definition getSessionHistory (userId : string) (limit : option Z)
    : M (list PomodoroSession) :=
  let limit := default 10 limit in
  sessions <- getUserSessions userId ;;
  ret (slice_from_0 sessions limit).

(** ** More of the pod service *)

(** The errors only the pod coordinator raises, beside those of [Error]. *)
Inductive Thrown :=
| Base (e : Error)
| PodAlreadyStartedOrCompleted   (* 'Pod already started or completed' *)
| PodAlreadyStarted              (* 'Pod already started' *)
| ParticipantNotFound            (* 'Participant not found' *)
| CreatorCannotLeave.            (* 'Creator cannot leave the pod. Cancel it instead.' *)

Inductive Outcome (A : Type) :=
| Done (a : A)
| Failed (e : Thrown).
Arguments Done {A} a.
Arguments Failed {A} e.

(** Programs that may raise them. *)
Definition P (A : Type) : Type := Store -> Outcome A * Store.

Definition retP {A} (a : A) : P A := fun st => (Done a, st).
Definition throwP {A} (e : Thrown) : P A := fun st => (Failed e, st).
Definition bindP {A B} (m : P A) (k : A -> P B) : P B :=
  fun st =>
    match m st with
    | (Done a, st') => k a st'
    | (Failed e, st') => (Failed e, st')
    end.

(** A call of an operation above, its errors passing through. *)
Definition call {A} (m : M A) : P A :=
  fun st =>
    match m st with
    | (Ok a, st') => (Done a, st')
    | (Err e, st') => (Failed (Base e), st')
    end.

Notation "x <~ c1 ;; c2" := (bindP c1 (fun x => c2))
  (at level 100, c1 at next level, right associativity).

Fixpoint for_eachP {A} (xs : list A) (body : A -> P unit) : P unit :=
  match xs with
  | [] => retP tt
  | x :: xs' => _ <~ body x ;; for_eachP xs' body
  end.

Definition findPodByInviteCode (inviteCode : string) : M (option Pod) :=
  pod <- getPodByInviteCode inviteCode ;;
  ret pod.

(** [pod.participants.some(p => p.userId === userId)] *)
Definition is_participant (userId : string) (pod : Pod) : bool :=
  existsb (fun p => bool_decide (PodParticipant.userId p = userId)) (Pod.participants pod).

Definition getUserActivePod (userId : string) : M (option Pod) :=
  allPods <- getAllPods ;;
  ret (List.find
         (fun pod =>
            (bool_decide (Pod.status pod = ACTIVE) || bool_decide (Pod.status pod = WAITING))
            && is_participant userId pod)
         allPods).

Definition getUserWaitingPod (userId : string) : M (option Pod) :=
  allPods <- getAllPods ;;
  ret (List.find
         (fun pod => bool_decide (Pod.status pod = WAITING) && is_participant userId pod)
         allPods).

(** A pod with another participant list, as [pod.participants = ...] and
    [pod.participants.push(...)] leave the local object. *)
Definition with_participants (pod : Pod) (ps : list PodParticipant) : Pod :=
  apply_pod_update pod (SetParticipants ps).

Definition joinPod (podId userId userName : string) : P Pod :=
  o <~ call (getPod podId) ;;
  match o with
  | None => throwP (Base PodNotFound)
  | Some pod =>
      if bool_decide (Pod.status pod <> WAITING) then throwP PodAlreadyStartedOrCompleted
      else if is_participant userId pod then retP pod
      else
        now <~ call Date_now ;;
        let participant := PodParticipant.mk userId userName now false None None in
        let pod := with_participants pod (Pod.participants pod ++ [participant]) in
        _ <~ call (updatePod podId [SetParticipants (Pod.participants pod)]) ;;
        nid <~ call randomUUID ;;
        _ <~ call (createNotification
                     (Notification.mk nid (Pod.creatorId pod) POD_INVITE
                        (userName +:+ " присоединился к твоему Pod'у! Участников: "
                           +:+ pretty (Z.of_nat (length (Pod.participants pod))))
                        now false)) ;;
        retP pod
  end.

Definition startPod (podId : string) : P Pod :=
  o <~ call (getPod podId) ;;
  match o with
  | None => throwP (Base PodNotFound)
  | Some pod =>
      if bool_decide (Pod.status pod <> WAITING) then throwP PodAlreadyStarted
      else
        startTime <~ call Date_now ;;
        let endTime := startTime + Pod.duration pod * 60 * 1000 in
        _ <~ call (updatePod podId
                     [SetStatus ACTIVE; SetPodStartTime startTime; SetPodEndTime endTime]) ;;
        _ <~ for_eachP (Pod.participants pod)
               (fun participant =>
                  _ <~ call (startSession (PodParticipant.userId participant)
                               (Some (Pod.duration pod)) (Some podId)) ;;
                  retP tt) ;;
        _ <~ for_eachP (Pod.participants pod)
               (fun participant =>
                  if bool_decide (PodParticipant.userId participant <> Pod.creatorId pod)
                  then
                    nid <~ call randomUUID ;;
                    now <~ call Date_now ;;
                    _ <~ call (createNotification
                                 (Notification.mk nid (PodParticipant.userId participant)
                                    POD_STARTED
                                    ("Pod " +:+ dquote +:+ Pod.title pod +:+ dquote
                                       +:+ " начался! Фокусируемся "
                                       +:+ pretty (Pod.duration pod) +:+ " минут 🎯")
                                    now false)) ;;
                    retP tt
                  else retP tt) ;;
        retP pod
  end.

(** [participant.taskAction = action], and [taskCompleted = true] for [COMPLETED] *)
Definition record_action (action : TaskAction) (p : PodParticipant) : PodParticipant :=
  PodParticipant.mk (PodParticipant.userId p) (PodParticipant.userName p)
    (PodParticipant.joinedAt p) (PodParticipant.isCreator p)
    (if bool_decide (action = TA_COMPLETED) then Some true
     else PodParticipant.taskCompleted p)
    (Some action).

Definition updateParticipantAction (podId userId : string) (action : TaskAction) : P Pod :=
  o <~ call (getPod podId) ;;
  match o with
  | None => throwP (Base PodNotFound)
  | Some pod =>
      match findIndex (fun p => bool_decide (PodParticipant.userId p = userId))
                      (Pod.participants pod) with
      | None => throwP ParticipantNotFound
      | Some participantIndex =>
          let pod :=
            with_participants pod
              (alter (record_action action) participantIndex (Pod.participants pod)) in
          _ <~ call (updatePod podId [SetParticipants (Pod.participants pod)]) ;;
          retP pod
      end
  end.

Definition getUserActivePods (userId : string) : M (list Pod) :=
  pods <- getUserPods userId ;;
  ret (List.filter
         (fun p => bool_decide (Pod.status p = WAITING) || bool_decide (Pod.status p = ACTIVE))
         pods).

Record PodInfo := mkPodInfo {
  pi_pod : Pod;
  pi_remainingMinutes : option Z;
  pi_remainingSeconds : option Z
}.

Definition getPodInfo (podId : string) : M (option PodInfo) :=
  o <- getPod podId ;;
  match o with
  | None => ret None
  | Some pod =>
      match bool_decide (Pod.status pod = ACTIVE), Pod.endTime pod with
      | true, Some endTime =>
          now <- Date_now ;;
          let remaining := Z.max 0 (endTime - now) in
          let remainingMinutes := remaining / (60 * 1000) in
          let remainingSeconds := Z.rem remaining (60 * 1000) / 1000 in
          ret (Some (mkPodInfo pod (Some remainingMinutes) (Some remainingSeconds)))
      | _, _ => ret (Some (mkPodInfo pod None None))
      end
  end.

Definition leavePod (podId userId : string) : P Pod :=
  o <~ call (getPod podId) ;;
  match o with
  | None => throwP (Base PodNotFound)
  | Some pod =>
      if bool_decide (Pod.creatorId pod = userId) then throwP CreatorCannotLeave
      else
        let pod :=
          with_participants pod
            (List.filter (fun p => bool_decide (PodParticipant.userId p <> userId))
                         (Pod.participants pod)) in
        _ <~ call (updatePod podId [SetParticipants (Pod.participants pod)]) ;;
        retP pod
  end.

Record PodStats := mkPodStats {
  ps_created : nat;
  ps_participated : nat;
  ps_completed : nat;
  ps_active : nat
}.

Definition getUserPodStats (userId : string) : M PodStats :=
  pods <- getUserPods userId ;;
  let created := length (List.filter (fun p => bool_decide (Pod.creatorId p = userId)) pods) in
  let participated := length pods in
  let completed := length (List.filter (fun p => bool_decide (Pod.status p = COMPLETED)) pods) in
  let active := length (List.filter (fun p => bool_decide (Pod.status p = ACTIVE)) pods) in
  ret (mkPodStats created participated completed active).

(** ** The completion handler ([bot/handlers/pomodoro.ts]) *)

(** [x > q] for a finite [q] *)
Definition js_gt (x : jsnum) (q : Q) : bool :=
  match x with
  | Fin p => negb (Qle_bool p q)
  | PosInf => true
  | NegInf | NaN => false
  end.

(** [SELECT * FROM users WHERE max_user_id = $1], first row *)
Definition getUserByMaxId (maxUserId : string) : M (option User) :=
  fun st =>
    (Ok (List.find (fun u => bool_decide (User.maxUserId u = maxUserId))
           (map_to_list (users st)).*2), st).

(** The [switch] that turns the button pressed into a [TaskAction]. *)
Definition taskAction_of (action : string) : option TaskAction :=
  if bool_decide (action = "completed") then Some TA_COMPLETED
  else if bool_decide (action = "split") then Some TA_SPLIT
  else if bool_decide (action = "postponed") then Some TA_POSTPONED
  else if bool_decide (action = "skipped") then Some TA_SKIPPED
  else None.

(** What the handler answers: the message it chooses, with the numbers
    the message shows. *)
Inductive Reply :=
| NoUserNotice          (* 'Не удалось определить пользователя' *)
| UserNotFoundNotice    (* 'Пользователь не найден' *)
| AlreadyCompletedReply (* 'Эта сессия уже завершена! Награды уже были начислены.' *)
| CompletedReply (reward streak totalPomodoros totalFocusMinutes : Z) (achievements : nat)
                        (* 'Отлично! Ты справился!' *)
| EarlyReply (actualMinutes duration : Z)
                        (* 'Сессия завершена досрочно ... Награды не начислены' *)
| SplitReply (reward : option Z)
                        (* 'Задача оказалась сложнее?', 'Сессия засчитана!' with a reward *)
| PostponedReply (partialReward : option Z)
                        (* 'Задача отложена', 'Частичная награда' with a reward *)
| SkippedReply          (* 'Сессия пропущена. Награды не начислены.' *)
| DefaultReply          (* 'Сессия завершена' *)
| NoReply               (* the user row is gone: the handler returns *)
| ErrorReply (e : Error). (* the [catch] branch *)

(** [ctxUserId] is [String(ctx.user?.user_id || ctx.callback?.user?.user_id)],
    absent when that id is.  The timers the handler clears first are not
    part of the store. *)
Definition handleSessionComplete (ctxUserId : option string) (sessionId action : string)
    : Store -> Reply * Store :=
  fun st =>
    match ctxUserId with
    | None => (NoUserNotice, st)
    | Some maxUserId =>
        let body : M Reply :=
          o <- getUserByMaxId maxUserId ;;
          match o with
          | None => ret UserNotFoundNotice
          | Some user =>
              let taskAction := taskAction_of action in
              sessionInfo <- getSessionInfo sessionId ;;
              match sessionInfo with
              | None => ret AlreadyCompletedReply
              | Some sessionInfo =>
                  if PomodoroSession.completed (si_session sessionInfo)
                  then ret AlreadyCompletedReply
                  else
                    let totalSeconds :=
                      PomodoroSession.duration (si_session sessionInfo) * 60 in
                    let remainingTotal :=
                      si_remainingMinutes sessionInfo * 60
                      + si_remainingSeconds sessionInfo in
                    let isEarly := js_gt (js_div remainingTotal totalSeconds) 0.1 in
                    result <- completeSession sessionId taskAction isEarly ;;
                    o <- getUser (User.id user) ;;
                    match o with
                    | None => ret NoReply
                    | Some updatedUser =>
                        ret (if bool_decide (action = "completed") then
                               if 0 <? cr_reward result then
                                 CompletedReply (cr_reward result)
                                   (User.currentStreak updatedUser)
                                   (User.totalPomodoros updatedUser)
                                   (User.totalFocusMinutes updatedUser)
                                   (length (cr_achievements result))
                               else
                                 EarlyReply (cr_actualMinutes result)
                                   (PomodoroSession.duration (si_session sessionInfo))
                             else if bool_decide (action = "split") then
                               SplitReply (if 0 <? cr_reward result
                                           then Some (cr_reward result) else None)
                             else if bool_decide (action = "postponed") then
                               PostponedReply
                                 (if 0 <? cr_reward result
                                  then Some (Math_floor (inject_Z (cr_reward result) * 0.5))
                                  else None)
                             else if bool_decide (action = "skipped") then SkippedReply
                             else DefaultReply)
                    end
              end
          end in
        match body st with
        | (Ok reply, st') => (reply, st')
        | (Err e, st') => (ErrorReply e, st')
        end
    end.

(** ** The pod handlers ([bot/handlers/pods.ts]) *)

(** What a pod handler answers: the message it chooses, with the data
    the message shows. *)
Inductive PodReply :=
| NoUserReply                        (* 'Не удалось определить пользователя' *)
| UnknownUserReply                   (* 'Пользователь не найден. Отправьте /start' *)
| BusyWithSession (session : PomodoroSession)  (* 'Фокус-сессия уже идёт' *)
| BusyWithPod (currentPod : Pod)     (* 'У тебя уже есть активный Pod' *)
| NoCodeReply                        (* 'Не нашёл код приглашения.' *)
| NoSuchPodReply (inviteCode : string) (* 'Pod с кодом ... не найден.' *)
| AlreadyJoinedReply (pod : Pod)     (* 'Ты уже в этом Pod'е!' *)
| JoinedReply (updatedPod : Pod)     (* 'Присоединился к Pod'у!' *)
| CreatedReply (pod : Pod) (inviteCode : string)  (* 'Pod создан!' *)
| PodMissingReply                    (* messages.podNotFound *)
| NotCreatorReply                    (* 'Только создатель может ...' *)
| StartedReply (pod : Pod)           (* messages.podStarted *)
| CancelledReply                     (* 'Pod отменён' *)
| SilentReply                        (* nothing is sent *)
| FailureReply (e : Thrown).         (* the [catch] branch *)

(** The answer of a handler body, its [catch] included. *)
Definition answer (body : P PodReply) : Store -> PodReply * Store :=
  fun st =>
    match body st with
    | (Done reply, st') => (reply, st')
    | (Failed e, st') => (FailureReply e, st')
    end.

(** The opening of every handler: the user behind
    [String(ctx.user?.user_id || ctx.callback?.user?.user_id)]. *)
Definition with_user (ctxUserId : option string) (k : User -> P PodReply) : P PodReply :=
  match ctxUserId with
  | None => retP NoUserReply
  | Some maxUserId =>
      o <~ call (getUserByMaxId maxUserId) ;;
      match o with
      | None => retP UnknownUserReply
      | Some user => k user
      end
  end.

(** The session that is in the way, if any. *)
Definition ensureNoActivePomodoroSession (user : User) : M (option PomodoroSession) :=
  session <- getActiveSession (User.id user) ;;
  match session with
  | None => ret None
  | Some session =>
      info <- getSessionInfo (PomodoroSession.id session) ;;
      ret (Some session)
  end.

(** The pod that is in the way, if any. *)
Definition ensureNoActivePod (user : User) (excludePodId : option string)
    : M (option Pod) :=
  currentPod <- getUserActivePod (User.id user) ;;
  match currentPod with
  | None => ret None
  | Some currentPod =>
      if bool_decide (Some (Pod.id currentPod) = excludePodId) then ret None
      else ret (Some currentPod)
  end.

(** [durationMinutes] is [parseInt(duration)]; [bot] is the bot name of
    the pod service.  The bot state the handlers set and clear is not
    part of the store. *)
Definition handlePodDuration (bot : string) (ctxUserId : option string)
    (durationMinutes : Z) : Store -> PodReply * Store :=
  answer
    (with_user ctxUserId (fun user =>
       busy <~ call (ensureNoActivePomodoroSession user) ;;
       match busy with
       | Some session => retP (BusyWithSession session)
       | None =>
           busy <~ call (ensureNoActivePod user None) ;;
           match busy with
           | Some currentPod => retP (BusyWithPod currentPod)
           | None =>
               created <~ call (createPod bot (User.id user) (User.name user)
                                  durationMinutes
                                  (Some ("Фокус-Pod от " +:+ User.name user))) ;;
               retP (CreatedReply created.1 created.2)
           end
       end)).

(** [inviteCode] is [extractInviteCode(rawInput)]. *)
Definition processPodJoinByCode (user : User) (inviteCode : option string)
    : Store -> PodReply * Store :=
  answer
    match inviteCode with
    | None => retP NoCodeReply
    | Some inviteCode =>
        busy <~ call (ensureNoActivePomodoroSession user) ;;
        match busy with
        | Some session => retP (BusyWithSession session)
        | None =>
            busy <~ call (ensureNoActivePod user None) ;;
            match busy with
            | Some currentPod => retP (BusyWithPod currentPod)
            | None =>
                o <~ call (findPodByInviteCode inviteCode) ;;
                match o with
                | None => retP (NoSuchPodReply inviteCode)
                | Some pod =>
                    if is_participant (User.id user) pod
                    then retP (AlreadyJoinedReply pod)
                    else
                      updatedPod <~ joinPod (Pod.id pod) (User.id user) (User.name user) ;;
                      retP (JoinedReply updatedPod)
                end
            end
        end
    end.

Definition handlePodStart (ctxUserId : option string) (podId : string)
    : Store -> PodReply * Store :=
  answer
    (with_user ctxUserId (fun user =>
       o <~ call (getPod podId) ;;
       match o with
       | None => retP PodMissingReply
       | Some pod =>
           if bool_decide (Pod.creatorId pod <> User.id user) then retP NotCreatorReply
           else
             busy <~ call (ensureNoActivePomodoroSession user) ;;
             match busy with
             | Some session => retP (BusyWithSession session)
             | None =>
                 busy <~ call (ensureNoActivePod user (Some podId)) ;;
                 match busy with
                 | Some currentPod => retP (BusyWithPod currentPod)
                 | None =>
                     _ <~ startPod podId ;;
                     retP (StartedReply pod)
                 end
             end
       end)).

(** The timer [handlePodStart] sets: errors are logged and dropped. *)
Definition handlePodTimeout (podId : string) : Store -> PodReply * Store :=
  fun st => (SilentReply, (completePod podId st).2).

Definition handlePodCancel (ctxUserId : option string) (podId : string)
    : Store -> PodReply * Store :=
  answer
    (with_user ctxUserId (fun user =>
       o <~ call (getPod podId) ;;
       match o with
       | None => retP PodMissingReply
       | Some pod =>
           if bool_decide (Pod.creatorId pod <> User.id user) then retP NotCreatorReply
           else
             _ <~ call (cancelPod podId) ;;
             retP CancelledReply
       end)).

(** ** The scheduler ([services/notifications.ts]) *)

(** The row is stored first; the delivery through the bot that follows
    reads the user and is outside the store, its errors are caught. *)
Definition sendNotification (userId : string) (type : NotificationType)
    (message : string) : M unit :=
  nid <- randomUUID ;;
  now <- Date_now ;;
  createNotification (Notification.mk nid userId type message now false) ;;
  ret tt.

(** [new Date(t).getHours()], on the clock of [toDateString] *)
Definition getHours (t : Z) : Z := (t / 3600000) mod 24.

Definition sendDailyReminders : M unit :=
  users <- getAllUsers ;;
  for_each users
    (fun user =>
       stats <- getUserStats (User.id user) ;;
       if match stats with
          | None => true
          | Some stats => bool_decide (UserStats.todayPomodoros stats = 0)
          end
       then
         let message :=
           "Привет! У тебя "
             +:+ pretty (match stats with
                         | Some stats => UserStats.todayPomodoros stats
                         | None => 0
                         end)
             +:+ " Pomodoro сегодня. Может, начнёшь? 🚀" in
         sendNotification (User.id user) DAILY_REMINDER message
       else ret tt).

Definition sendStreakWarnings : M unit :=
  users <- getAllUsers ;;
  now <- Date_now ;;
  for_each users
    (fun user =>
       if 0 <? User.currentStreak user then
         today <- Date_now ;;
         if bool_decide (toDateString (User.lastActiveDate user) <> toDateString today) then
           stats <- getUserStats (User.id user) ;;
           if match stats with
              | None => true
              | Some stats => bool_decide (UserStats.todayPomodoros stats = 0)
              end
           then
             let message :=
               "⚠️ Твоя серия в опасности! " +:+ pretty (User.currentStreak user)
                 +:+ " дней 🔥 Осталось " +:+ pretty (24 - getHours now)
                 +:+ " часов до конца дня." in
             sendNotification (User.id user) STREAK_WARNING message
           else ret tt
         else ret tt
       else ret tt).

Definition newline : string := String (ascii_of_nat 10) EmptyString.

Definition sendWeeklyStats : M unit :=
  users <- getAllUsers ;;
  for_each users
    (fun user =>
       stats <- getUserStats (User.id user) ;;
       match stats with
       | Some stats =>
           if 0 <? UserStats.weekPomodoros stats then
             let hours := UserStats.weekFocusMinutes stats / 60 in
             let minutes := Z.rem (UserStats.weekFocusMinutes stats) 60 in
             let message :=
               "📊 Статистика за неделю:" +:+ newline
                 +:+ "🎯 Pomodoro: " +:+ pretty (UserStats.weekPomodoros stats) +:+ newline
                 +:+ "⏱️ Фокуса: " +:+ pretty hours +:+ "ч " +:+ pretty minutes
                 +:+ "мин" +:+ newline
                 +:+ "✅ Задач: " +:+ pretty (UserStats.weekTasksCompleted stats) +:+ newline
                 +:+ "🪙 FocusCoins: +" +:+ pretty (UserStats.weekFocusCoins stats)
                 +:+ newline +:+ newline
                 +:+ "Отличная работа! Так держать! 💪" in
             sendNotification (User.id user) WEEKLY_STATS message
           else ret tt
       | None => ret tt
       end).

(** ** Tasks ([services/tasks.ts]) *)

Module Task.
Record t := mk {
  id : string;
  userId : string;
  title : string;
  deadline : option Z;
  completed : bool;
  createdAt : Z;
  completedAt : option Z;
  parentTaskId : option string
}.
End Task.
Abbreviation Task := Task.t.

(** The store together with the [tasks] table. *)
Record Desk := mkDesk {
  store : Store;
  tasks : gmap string Task
}.

Definition T (A : Type) : Type := Desk -> Result A * Desk.

Definition retT {A} (a : A) : T A := fun d => (Ok a, d).

Definition bindT {A B} (m : T A) (k : A -> T B) : T B :=
  fun d =>
    match m d with
    | (Ok a, d') => k a d'
    | (Err e, d') => (Err e, d')
    end.

(** An operation on the other tables. *)
Definition on_store {A} (m : M A) : T A :=
  fun d =>
    match m (store d) with
    | (r, st') => (r, mkDesk st' (tasks d))
    end.

Notation "x <<- c1 ;; c2" := (bindT c1 (fun x => c2))
  (at level 100, c1 at next level, right associativity).

(** [Partial<Task>]: the columns an [UPDATE tasks SET ...] assigns. *)
Inductive TaskUpdate :=
| SetTaskCompleted (v : bool)
| SetCompletedAt (v : Z).

Definition apply_task_update (t : Task) (f : TaskUpdate) : Task :=
  let '(Task.mk i uid ttl dl done created doneAt parent) := t in
  match f with
  | SetTaskCompleted v => Task.mk i uid ttl dl v created doneAt parent
  | SetCompletedAt v => Task.mk i uid ttl dl done created (Some v) parent
  end.

Definition db_getTask (taskId : string) : T (option Task) :=
  fun d => (Ok (tasks d !! taskId), d).

Definition db_updateTask (taskId : string) (updates : list TaskUpdate) : T (option Task) :=
  match updates with
  | [] => db_getTask taskId
  | _ =>
      fun d =>
        match tasks d !! taskId with
        | Some t =>
            let t' := fold_left apply_task_update updates t in
            (Ok (Some t'), mkDesk (store d) (insert taskId t' (tasks d)))
        | None => (Ok None, d)
        end
  end.

Definition completeTask (taskId : string) : T (option Task) :=
  o <<- db_getTask taskId ;;
  match o with
  | None => retT None
  | Some task =>
      now <<- on_store Date_now ;;
      updated <<- db_updateTask taskId [SetTaskCompleted true; SetCompletedAt now] ;;
      match updated with
      | Some _ =>
          o <<- on_store (getUser (Task.userId task)) ;;
          match o with
          | Some user =>
              _ <<- on_store (updateUser (Task.userId task)
                                [SetCompletedTasks (User.completedTasks user + 1)]) ;;
              _ <<- on_store (awardFocusCoins (Task.userId task) 2) ;;
              _ <<- on_store (checkAchievements (Task.userId task)) ;;
              retT updated
          | None => retT updated
          end
      | None => retT updated
      end
  end.

(** ** Progress of the achievements ([services/gamification.ts]) *)

(** [x * q] for a positive finite [q] *)
Definition js_times (x : jsnum) (q : Q) : jsnum :=
  match x with
  | Fin p => Fin (p * q)
  | other => other
  end.

(** [Math.min(x, q)] for a finite [q] *)
Definition js_min (x : jsnum) (q : Q) : jsnum :=
  match x with
  | Fin p => Fin (Qmin p q)
  | PosInf => Fin q
  | NegInf => NegInf
  | NaN => NaN
  end.

(** [Math.round(x)] *)
Definition js_round (x : jsnum) : jsnum :=
  match x with
  | Fin p => Fin (inject_Z (Math_round p))
  | other => other
  end.

(** One entry of the list: the achievement with two more fields. *)
Record AchievementProgress := mkAchievementProgress {
  ap_achievement : Achievement;
  ap_unlocked : bool;
  ap_progress : jsnum
}.

Fixpoint getAchievementsWithProgress_loop (user : User) (catalog : list Achievement)
    (result : list AchievementProgress) : M (list AchievementProgress) :=
  match catalog with
  | [] => ret result
  | achievement :: rest =>
      let unlocked := bool_decide (Achievement.id achievement ∈ User.achievements user) in
      progress <-
        (if unlocked then ret (Fin 100)
         else
           let count := Achievement.req_count achievement in
           match Achievement.req_type achievement with
           | Rpomodoros =>
               ret (js_min (js_times (js_div (User.totalPomodoros user) count) 100) 100)
           | Rtasks =>
               ret (js_min (js_times (js_div (User.completedTasks user) count) 100) 100)
           | Rstreak =>
               ret (js_min (js_times (js_div (User.currentStreak user) count) 100) 100)
           | Rfocus_hours =>
               let hours := User.totalFocusMinutes user / 60 in
               ret (js_min (js_times (js_div hours count) 100) 100)
           | Rpods =>
               pods <- getUserPods (User.id user) ;;
               let created :=
                 Z.of_nat
                   (length (List.filter
                              (fun p => bool_decide (Pod.creatorId p = User.id user)) pods)) in
               ret (js_min (js_times (js_div created count) 100) 100)
           end) ;;
      getAchievementsWithProgress_loop user rest
        (result ++ [mkAchievementProgress achievement unlocked (js_round progress)])
  end.

Definition getAchievementsWithProgress (userId : string) : M (list AchievementProgress) :=
  o <- getUser userId ;;
  user <- or_throw o UserNotFound ;;
  getAchievementsWithProgress_loop user ACHIEVEMENTS [].
(** * Specification vocabulary *)

(** What the reward paths never touch: everything but a user's coin
    balance, the list of unlocked achievements, the notification log and
    the position of the random oracle. *)
Definition strip (u : User) : User :=
  apply_user_update (apply_user_update u (SetFocusCoins 0)) (SetAchievements []).

Record Frame := mkFrame {
  fr_users : gmap string User;
  fr_sessions : gmap string PomodoroSession;
  fr_pods : gmap string Pod;
  fr_stats : gmap string UserStats;
  fr_uuid : nat -> string;
  fr_bytes : nat -> N;
  fr_clock : Z
}.

Definition frame (st : Store) : Frame :=
  mkFrame (strip <$> users st) (sessions st) (pods st) (user_stats st)
          (rng_uuid st) (rng_bytes st) (clock st).

(** The user row after a successful unlock. *)
Definition credited (u : User) (achievementId : string) (a : Achievement) : User :=
  apply_user_update
    (apply_user_update u (SetAchievements (User.achievements u ++ [achievementId])))
    (SetFocusCoins (User.focusCoins u + Achievement.reward a)).

(** The store after a successful unlock. *)
Definition unlocked_store (uid aid : string) (u : User) (a : Achievement) (st : Store)
    : Store :=
  mkStore (<[uid := credited u aid a]> (users st)) (sessions st) (pods st)
    (user_stats st)
    (notifications st ++
       [Notification.mk (rng_uuid st (rng_pos st)) uid ACHIEVEMENT_UNLOCKED
          (unlock_message a) (clock st) false])
    (rng_uuid st) (rng_bytes st) (S (rng_pos st)) (clock st).

(** The pods a user created, as [checkAchievementRequirement] counts them. *)
Definition createdPods (ps : gmap string Pod) (uid : string) : list Pod :=
  List.filter (fun p => bool_decide (Pod.creatorId p = uid))
    (merge_sort later_created
       (filter (fun p => uid ∈ PodParticipant.userId <$> Pod.participants p)
               (map_to_list ps).*2)).

(** The answer of [checkAchievementRequirement], read off the pod table. *)
Definition meets (ps : gmap string Pod) (user : User) (a : Achievement) : bool :=
  let count := Achievement.req_count a in
  match Achievement.req_type a with
  | Rpomodoros => bool_decide (User.totalPomodoros user >= count)
  | Rtasks => bool_decide (User.completedTasks user >= count)
  | Rstreak => bool_decide (User.currentStreak user >= count)
  | Rfocus_hours => bool_decide (User.totalFocusMinutes user / 60 >= count)
  | Rpods => bool_decide (Z.of_nat (length (createdPods ps (User.id user))) >= count)
  end.

(** An achievement the sweep unlocks: not yet unlocked, requirement met. *)
Definition eligible (ps : gmap string Pod) (user : User) (a : Achievement) : bool :=
  negb (bool_decide (Achievement.id a ∈ User.achievements user)) && meets ps user a.

(** The streak values [updateStreak] returns for a user row at time [now]. *)
Definition streak_after (u : User) (now : Z) : Z * Z :=
  if bool_decide (toDateString (User.lastActiveDate u) = toDateString now)
  then (User.currentStreak u, User.bestStreak u)
  else
    let current :=
      if bool_decide (toDateString (User.lastActiveDate u) = toDateString now - 1)
      then User.currentStreak u + 1 else 1 in
    (current, Z.max (User.bestStreak u) current).

(** The user row [updateStreak] writes when the day has changed. *)
Definition streak_row (u : User) (now : Z) : User :=
  fold_left apply_user_update
    [SetCurrentStreak (streak_after u now).1; SetBestStreak (streak_after u now).2;
     SetLastActiveDate now] u.

(** No stored current streak exceeds the best streak. The start handler
    creates users with both at 0 and [updateStreak] is their only writer. *)
Definition streaks_consistent (st : Store) : Prop :=
  forall uid u, users st !! uid = Some u -> User.currentStreak u <= User.bestStreak u.

(** For every user, at most one session is open. *)
Definition at_most_one_open (st : Store) : Prop :=
  forall i j s t,
    sessions st !! i = Some s -> sessions st !! j = Some t ->
    PomodoroSession.userId s = PomodoroSession.userId t ->
    is_open s = true -> is_open t = true -> i = j.

(** The calls of the session manager, and the passing of time. *)
Inductive SessionCall :=
| CallStart (userId : string) (duration : option Z) (podId : option string)
| CallComplete (sessionId : string) (taskAction : option TaskAction) (isEarly : bool)
| CallCancel (sessionId : string)
| Tick (now : Z).

(** The user has an open session. *)
Definition has_open_session (uid : string) (st : Store) : Prop :=
  exists i s, sessions st !! i = Some s /\ PomodoroSession.userId s = uid
              /\ is_open s = true.

(** The quantities [completeSession] computes for a session at time [now]. *)
Definition actualMinutes_of (s : PomodoroSession) (now : Z) : Z :=
  (now - PomodoroSession.startTime s) / 60000.

Definition completionRate_of (s : PomodoroSession) (now : Z) : jsnum :=
  js_div (actualMinutes_of s now) (PomodoroSession.duration s).

(** The test that opens the rewarded branch. *)
Definition rewarded (s : PomodoroSession) (now : Z) (isEarlyCompletion : bool) : bool :=
  js_ge (completionRate_of s now) 0.9 || negb isEarlyCompletion.

Definition reward_of (s : PomodoroSession) (u : User) (now : Z)
    (isEarlyCompletion : bool) : Z :=
  if rewarded s now isEarlyCompletion
  then calculatePomodoroReward 1 (inject_Z (User.currentStreak u))
         (truthy_id (PomodoroSession.podId s))
  else 0.

(** The rows [completeSession] writes. *)
Definition completed_row (s : PomodoroSession) (now : Z) (taskAction : option TaskAction)
    (reward : Z) : PomodoroSession :=
  fold_left apply_session_update
    [SetCompleted true; SetEndTime now; SetTaskAction taskAction; SetReward reward] s.

Definition rewarded_row (u : User) (actualMinutes reward : Z) : User :=
  fold_left apply_user_update
    [SetTotalPomodoros (User.totalPomodoros u + 1);
     SetTotalFocusMinutes (User.totalFocusMinutes u + actualMinutes);
     SetFocusCoins (User.focusCoins u + reward)] u.

Definition effort_row (u : User) (actualMinutes : Z) : User :=
  apply_user_update u (SetTotalFocusMinutes (User.totalFocusMinutes u + actualMinutes)).

(** The row [cancelSession] writes. *)
Definition cancelled_row (s : PomodoroSession) (now : Z) : PomodoroSession :=
  fold_left apply_session_update [SetCompleted false; SetEndTime now] s.



(** The invite code [createPod] derives from the oracle: the identifier is
    drawn first, the four bytes second. *)
Definition drawn_invite_code (st : Store) : string :=
  toUpperCase (toString_hex (bytes_of 4 (rng_bytes st (S (rng_pos st))))).

Definition drawn_pod_id (st : Store) : string := rng_uuid st (rng_pos st).

(** ** Sample stores, used to run the operations on concrete inputs *)

Definition sample_uuid (n : nat) : string := "uuid-" +:+ pretty n.

Definition DAY : Z := MS_PER_DAY.

(** A new user, as the start handler creates it, active on day 9. *)
Definition alice : User :=
  User.mk "u1" "1001" "Alice" 0 0 0 0 0 0 (9 * DAY + 1000) [] (9 * DAY + 1000).

(** A user on a five-day streak who has unlocked nothing yet. *)
Definition bob : User :=
  User.mk "u2" "1002" "Bob" 0 0 0 0 5 5 (10 * DAY) [] (2 * DAY).

(** A user who already holds the first achievement. *)
Definition carol : User :=
  User.mk "u3" "1003" "Carol" 5 1 25 0 9 9 (10 * DAY) ["first_focus"] DAY.

(** Three users, no session, no pod; the clock is on day 10. *)
Definition store0 : Store :=
  mkStore (<["u1" := alice]> (<["u2" := bob]> (<["u3" := carol]> ∅))) ∅ ∅ ∅ []
          sample_uuid (fun _ => 42%N) 0 (10 * DAY + 3600000).

(** A 25-minute session of Alice started at the clock of [store0]. *)
Definition session1 : PomodoroSession :=
  PomodoroSession.mk "s1" "u1" 25 (10 * DAY + 3600000) None false None None 0.

Definition with_clock (t : Z) (st : Store) : Store :=
  mkStore (users st) (sessions st) (pods st) (user_stats st) (notifications st)
          (rng_uuid st) (rng_bytes st) (rng_pos st) t.

Definition run_call (c : SessionCall) (st : Store) : Store :=
  match c with
  | CallStart userId duration podId => (startSession userId duration podId st).2
  | CallComplete sessionId taskAction isEarly =>
      (completeSession sessionId taskAction isEarly st).2
  | CallCancel sessionId => (cancelSession sessionId st).2
  | Tick now => with_clock now st
  end.

Definition run_calls (cs : list SessionCall) (st : Store) : Store :=
  fold_left (fun st c => run_call c st) cs st.

(** [store0] with [session1] running, 26 minutes and 5 minutes later. *)
Definition store_running (elapsed_minutes : Z) : Store :=
  with_clock (10 * DAY + 3600000 + elapsed_minutes * 60000)
    (set_sessions (insert "s1" session1) store0).

(** A pod of Alice whose invite code is the one the oracle of [store0]
    draws next, in a given status. *)
Definition pod1 (status : PodStatus) : Pod :=
  Pod.mk "p1" "0000002A" "u1" "Deep work" 25
    [PodParticipant.mk "u1" "Alice" (10 * DAY) true None None;
     PodParticipant.mk "u2" "Bob" (10 * DAY) false None None]
    (Some (10 * DAY)) (Some (10 * DAY + 1500000)) status
    "https://max.ru/t257_hakaton_bot?start=pod_0000002A" (10 * DAY).

Definition store_with_pod (status : PodStatus) : Store :=
  set_pods (insert "p1" (pod1 status)) store0.

(** The pod row [createPod] builds from its arguments and the oracle. *)
Definition new_pod (bot creatorId creatorName : string) (duration : Z)
    (title : option string) (st : Store) : Pod :=
  Pod.mk (drawn_pod_id st) (drawn_invite_code st) creatorId
    match title with
    | Some t => if bool_decide (t = EmptyString) then "Фокус-Pod от " +:+ creatorName else t
    | None => "Фокус-Pod от " +:+ creatorName
    end
    duration
    [PodParticipant.mk creatorId creatorName (clock st) true None None]
    None None WAITING
    ("https://max.ru/" +:+ bot +:+ "?start=pod_" +:+ drawn_invite_code st)
    (clock st).


(** The three-day streak achievement of the catalog. *)
Definition focus_streak_3 : Achievement :=
  Achievement.mk "focus_streak_3" "Focus Streak 3"
    "3 дня подряд с фокус-сессиями" "🔥" Rstreak 3 10.

(** The first achievement of the catalog. *)
Definition first_focus : Achievement :=
  Achievement.mk "first_focus" "First Focus"
    "Завершил первую Pomodoro-сессию" "🎯" Rpomodoros 1 5.

(** The value of a run that did not raise. *)
Definition ok_value {A} (r : Result A * Store) : option A :=
  match r.1 with
  | Ok a => Some a
  | Err _ => None
  end.

(** Alice's session after 26 minutes, cancelled. *)
Definition store_cancelled : Store := (cancelSession "s1" (store_running 26)).2.

(** Alice's session after 26 minutes, completed. *)
Definition store_completed : Store :=
  (completeSession "s1" (Some TA_COMPLETED) false (store_running 26)).2.

(** The active pod of Alice and Bob, completed with [completePod]. *)
Definition store_pod_completed : Store := (completePod "p1" (store_with_pod ACTIVE)).2.

(** ** Vocabulary for the pod coordinator *)

(** The participant [joinPod] appends. *)
Definition joiner (userId userName : string) (now : Z) : PodParticipant :=
  PodParticipant.mk userId userName now false None None.

(** The notification [joinPod] sends to the creator. *)
Definition join_note (pod : Pod) (userName : string) (st : Store) : Notification :=
  Notification.mk (rng_uuid st (rng_pos st)) (Pod.creatorId pod) POD_INVITE
    (userName +:+ " присоединился к твоему Pod'у! Участников: "
       +:+ pretty (Z.of_nat (length (Pod.participants pod))))
    (clock st) false.

(** The ids of the participants of a pod. *)
Definition participant_ids (pod : Pod) : list string :=
  PodParticipant.userId <$> Pod.participants pod.

(** A well-formed participant list: the creator comes first and is the
    only one flagged as creator, and no user occurs twice. *)
Definition pod_wf (pod : Pod) : Prop :=
  NoDup (participant_ids pod)
  /\ exists c rest,
       Pod.participants pod = c :: rest
       /\ PodParticipant.userId c = Pod.creatorId pod
       /\ PodParticipant.isCreator c = true
       /\ Forall (fun q => PodParticipant.isCreator q = false) rest.

Definition pods_wf (st : Store) : Prop :=
  forall pid pod, pods st !! pid = Some pod -> pod_wf pod.

(** The rows are stored under their own id. *)
Definition users_keyed (st : Store) : Prop :=
  forall k u, users st !! k = Some u -> User.id u = k.

(** Only the notification log and the oracle position differ. *)
Definition same_tables (st st' : Store) : Prop :=
  users st' = users st /\ sessions st' = sessions st /\ pods st' = pods st
  /\ user_stats st' = user_stats st /\ clock st' = clock st
  /\ rng_uuid st' = rng_uuid st /\ rng_bytes st' = rng_bytes st.

(** What [pod_wf] looks at in a participant. *)
Definition participant_key (q : PodParticipant) : string * bool :=
  (PodParticipant.userId q, PodParticipant.isCreator q).

(** The notifications a loop over participants appends: one per
    participant, with the ids the oracle yields from position [k] on. *)
Fixpoint notes_for (mk : string -> PodParticipant -> Notification) (gen : nat -> string)
    (k : nat) (l : list PodParticipant) : list Notification :=
  match l with
  | [] => []
  | q :: l' => mk (gen k) q :: notes_for mk gen (S k) l'
  end.

(** The notifications of [completePod] and of [cancelPod]. *)
Definition completed_note (pod : Pod) (now : Z) (nid : string) (q : PodParticipant)
    : Notification :=
  Notification.mk nid (PodParticipant.userId q) POD_COMPLETED
    ("Pod " +:+ dquote +:+ Pod.title pod +:+ dquote
       +:+ " завершён! 🎉 Что ты успел сделать?") now false.

Definition cancelled_note (pod : Pod) (now : Z) (nid : string) (q : PodParticipant)
    : Notification :=
  Notification.mk nid (PodParticipant.userId q) POD_INVITE
    ("Pod " +:+ dquote +:+ Pod.title pod +:+ dquote +:+ " был отменён") now false.

(** The participants other than the creator. *)
Definition guests (pod : Pod) : list PodParticipant :=
  List.filter (fun q => bool_decide (PodParticipant.userId q <> Pod.creatorId pod))
              (Pod.participants pod).

(** Every one of these participants is a stored user. *)
Definition all_users (l : list PodParticipant) (st : Store) : Prop :=
  forall q, q ∈ l -> is_Some (users st !! PodParticipant.userId q).

(** The session [startSession] creates. *)
Definition new_session (userId : string) (duration : option Z) (podId : option string)
    (st : Store) : PomodoroSession :=
  PomodoroSession.mk (rng_uuid st (rng_pos st)) userId (default 25 duration) (clock st)
    None false None podId 0.

(** The pod row [startPod] writes. *)
Definition started_pod (pod : Pod) (now : Z) : Pod :=
  fold_left apply_pod_update
    [SetStatus ACTIVE; SetPodStartTime now; SetPodEndTime (now + Pod.duration pod * 60 * 1000)]
    pod.

(** The user has an open session that belongs to the pod. *)
Definition in_pod_session (uid pid : string) (dur start : Z) (st : Store) : Prop :=
  exists i s,
    sessions st !! i = Some s
    /\ PomodoroSession.userId s = uid
    /\ is_open s = true
    /\ PomodoroSession.podId s = Some pid
    /\ PomodoroSession.duration s = dur
    /\ PomodoroSession.startTime s = start.


(** What the fan-out of [startPod] keeps: the pods, the clock and the
    sessions that exist. *)
Definition grows (st st' : Store) : Prop :=
  pods st' = pods st /\ clock st' = clock st
  /\ forall i s, sessions st !! i = Some s -> sessions st' !! i = Some s.

(** The first participant of a pod with a given user id. *)
Definition participant_of (uid : string) (pod : Pod) : option PodParticipant :=
  List.find (fun p => bool_decide (PodParticipant.userId p = uid)) (Pod.participants pod).

(** The columns of a pod row that identify it. *)
Definition same_identity (p p' : Pod) : Prop :=
  Pod.id p' = Pod.id p /\ Pod.inviteCode p' = Pod.inviteCode p
  /\ Pod.creatorId p' = Pod.creatorId p /\ Pod.title p' = Pod.title p
  /\ Pod.duration p' = Pod.duration p /\ Pod.shareLink p' = Pod.shareLink p
  /\ Pod.createdAt p' = Pod.createdAt p.

(** Every pod of [st] is still stored in [st'], under the same key and
    with the same identity. *)
Definition pods_kept (st st' : Store) : Prop :=
  forall k p, pods st !! k = Some p ->
              exists p', pods st' !! k = Some p' /\ same_identity p p'.

(** The schema of the pod table: rows are stored under their id, and
    no two rows share an invite code. *)
Definition pods_keyed (st : Store) : Prop :=
  forall k p, pods st !! k = Some p -> Pod.id p = k.

Definition codes_unique (st : Store) : Prop :=
  forall k1 k2 p1 p2,
    pods st !! k1 = Some p1 -> pods st !! k2 = Some p2 ->
    Pod.inviteCode p1 = Pod.inviteCode p2 -> k1 = k2.

(** What one operation can do to the pod table: nothing, rewrite one row
    keeping its identity, or insert a row under a fresh id with a fresh
    invite code. *)
Definition pods_step (st st' : Store) : Prop :=
  pods st' = pods st
  \/ (exists pid p p',
        pods st !! pid = Some p /\ same_identity p p'
        /\ pods st' = <[pid := p']> (pods st))
  \/ (exists p',
        pods st !! Pod.id p' = None
        /\ ~ invite_code_taken (Pod.inviteCode p') (pods st)
        /\ pods st' = <[Pod.id p' := p']> (pods st)).

(** The pod operations, as one type. *)
Inductive PodCall :=
| CreatePod (bot creatorId creatorName : string) (duration : Z) (title : option string)
| JoinPod (podId userId userName : string)
| StartPod (podId : string)
| CompletePod (podId : string)
| UpdateParticipantAction (podId userId : string) (action : TaskAction)
| CancelPod (podId : string)
| LeavePod (podId userId : string).

(** The store a pod operation leaves, whether it returns or throws. *)
Definition run_pod_call (c : PodCall) (st : Store) : Store :=
  match c with
  | CreatePod bot creatorId creatorName duration title =>
      (createPod bot creatorId creatorName duration title st).2
  | JoinPod podId userId userName => (joinPod podId userId userName st).2
  | StartPod podId => (startPod podId st).2
  | CompletePod podId => (completePod podId st).2
  | UpdateParticipantAction podId userId action =>
      (updateParticipantAction podId userId action st).2
  | CancelPod podId => (cancelPod podId st).2
  | LeavePod podId userId => (leavePod podId userId st).2
  end.

(** ** Vocabulary for sessions and rewards *)

(** [actual / duration >= 0.9] on whole minutes, without the division. *)
Definition reaches_90_percent (actual duration : Z) : bool :=
  if duration =? 0 then 0 <? actual
  else if 0 <? duration then 9 * duration <=? 10 * actual
  else 10 * actual <=? 9 * duration.

(** The coins a list of achievements is worth. *)
Definition total_reward (l : list Achievement) : Z :=
  foldr (fun a acc => Achievement.reward a + acc) 0 l.

(** The statistics row [updateUserStats] writes for a user: one more
    pomodoro, [minutes] more minutes and [coins] more coins, on the row
    stored so far or on a row of zeros. *)
Definition counted_row (uid : string) (o : option UserStats) (minutes coins : Z)
    : UserStats :=
  let stats := default (UserStats.mk uid 0 0 0 0 0 0) o in
  UserStats.mk uid
    (UserStats.weekPomodoros stats + 1)
    (UserStats.weekFocusMinutes stats + minutes)
    (UserStats.weekTasksCompleted stats)
    (UserStats.weekFocusCoins stats + coins)
    (UserStats.todayPomodoros stats + 1)
    (UserStats.todayFocusMinutes stats + minutes).

(** The rows the two resets write. *)
Definition reset_today (uid : string) (s : UserStats) : UserStats :=
  UserStats.mk uid (UserStats.weekPomodoros s) (UserStats.weekFocusMinutes s)
    (UserStats.weekTasksCompleted s) (UserStats.weekFocusCoins s) 0 0.

Definition reset_week (uid : string) (s : UserStats) : UserStats :=
  UserStats.mk uid 0 0 0 0 (UserStats.todayPomodoros s) (UserStats.todayFocusMinutes s).

(** Everything but the statistics is the same. *)
Definition only_stats_differ (st st' : Store) : Prop :=
  users st' = users st /\ sessions st' = sessions st /\ pods st' = pods st
  /\ notifications st' = notifications st /\ clock st' = clock st
  /\ rng_pos st' = rng_pos st.

(** [store0] where Alice has a statistics row and nobody else has. *)
Definition store_with_stats : Store :=
  set_user_stats (insert "u1" (UserStats.mk "u1" 3 75 0 3 2 50)) store0.

(** [m] minutes and [s] seconds are the whole seconds of [remaining]
    milliseconds. *)
Definition counts_down (remaining m s : Z) : Prop :=
  0 <= m /\ 0 <= s < 60
  /\ m * 60000 + s * 1000 <= remaining < m * 60000 + s * 1000 + 1000.

(** ** Reading an invite code back *)

(** The value of an upper-case hexadecimal digit. *)
Definition hex_value (c : ascii) : option N :=
  let n := N_of_ascii c in
  if (48 <=? n)%N && (n <=? 57)%N then Some (n - 48)%N
  else if (65 <=? n)%N && (n <=? 70)%N then Some (n - 55)%N
  else None.

Fixpoint parse_hex_from (acc : N) (s : string) : option N :=
  match s with
  | EmptyString => Some acc
  | String c s' =>
      match hex_value c with
      | Some d => parse_hex_from (acc * 16 + d)%N s'
      | None => None
      end
  end.

(** The number an upper-case hexadecimal numeral denotes, if it is one. *)
Definition parse_hex (s : string) : option N := parse_hex_from 0 s.

(** The whole seconds that remain of a session at time [now]. *)
Definition remaining_seconds (s : PomodoroSession) (now : Z) : Z :=
  Z.max 0 (PomodoroSession.startTime s + PomodoroSession.duration s * 60000 - now) / 1000.

(** ** Vocabulary for the pod handlers *)

(** A pod that is waiting or running. *)
Definition is_live (p : Pod) : bool :=
  bool_decide (Pod.status p = ACTIVE) || bool_decide (Pod.status p = WAITING).

(** No user is a participant of two live pods. *)
Definition one_live_pod_per_user (st : Store) : Prop :=
  forall uid k1 k2 p1 p2,
    pods st !! k1 = Some p1 -> pods st !! k2 = Some p2 ->
    is_live p1 = true -> is_live p2 = true ->
    uid ∈ participant_ids p1 -> uid ∈ participant_ids p2 -> k1 = k2.

(** The user is a participant of no live pod. *)
Definition in_no_live_pod (uid : string) (st : Store) : Prop :=
  forall k p, pods st !! k = Some p -> is_live p = true -> uid ∉ participant_ids p.

(** The pod events of the bot: the guarded entry points and the timer. *)
Inductive PodEvent :=
| PodDurationChosen (bot : string) (ctxUserId : option string) (durationMinutes : Z)
| PodCodeEntered (user : User) (inviteCode : option string)
| PodStartPressed (ctxUserId : option string) (podId : string)
| PodTimerFired (podId : string)
| PodCancelPressed (ctxUserId : option string) (podId : string).

Definition run_pod_event (e : PodEvent) (st : Store) : Store :=
  match e with
  | PodDurationChosen bot ctxUserId durationMinutes =>
      (handlePodDuration bot ctxUserId durationMinutes st).2
  | PodCodeEntered user inviteCode => (processPodJoinByCode user inviteCode st).2
  | PodStartPressed ctxUserId podId => (handlePodStart ctxUserId podId st).2
  | PodTimerFired podId => (handlePodTimeout podId st).2
  | PodCancelPressed ctxUserId podId => (handlePodCancel ctxUserId podId st).2
  end.

(** Two waiting pods of different creators. *)
Definition pod2 : Pod :=
  Pod.mk "p2" "000000FF" "u3" "Reading" 50
    [PodParticipant.mk "u3" "Carol" (10 * DAY) true None None]
    None None WAITING "https://max.ru/t257_hakaton_bot?start=pod_000000FF" (10 * DAY).

Definition store_two_pods : Store :=
  set_pods (insert "p2" pod2) (store_with_pod WAITING).

(** ** Vocabulary for the scheduler *)

(** The user has no pomodoro counted today. *)
Definition idle_today (st : Store) (u : User) : bool :=
  match user_stats st !! User.id u with
  | None => true
  | Some stats => bool_decide (UserStats.todayPomodoros stats = 0)
  end.

(** The users each job writes to. *)
Definition reminded (st : Store) (u : User) : bool := idle_today st u.

Definition warned (st : Store) (u : User) : bool :=
  (0 <? User.currentStreak u)
  && bool_decide (toDateString (User.lastActiveDate u) <> toDateString (clock st))
  && idle_today st u.

Definition reported (st : Store) (u : User) : bool :=
  match user_stats st !! User.id u with
  | Some stats => 0 <? UserStats.weekPomodoros stats
  | None => false
  end.

(** What a job added to the notification log. *)
Definition sent_since (st st' : Store) : list Notification :=
  drop (length (notifications st)) (notifications st').

(** The job succeeds, leaves the tables alone and writes one
    notification of the given type to each user it selects, in the order
    of the users. *)
Definition job_sends (st : Store) (job : M unit) (sel : Store -> User -> bool)
    (type : NotificationType) : Prop :=
  exists st',
    job st = (Ok tt, st')
    /\ same_tables st st'
    /\ Notification.userId <$> sent_since st st'
       = User.id <$> List.filter (sel st) (map_to_list (users st)).*2
    /\ Forall (fun n => Notification.type n = type) (sent_since st st').

(** ** Vocabulary for tasks *)

(** The task row [completeTask] writes. *)
Definition completed_task (t : Task) (now : Z) : Task :=
  fold_left apply_task_update [SetTaskCompleted true; SetCompletedAt now] t.

(** The user row before the sweep that closes [completeTask]. *)
Definition task_credited (u : User) : User :=
  apply_user_update
    (apply_user_update u (SetCompletedTasks (User.completedTasks u + 1)))
    (SetFocusCoins (User.focusCoins u + 2)).

(** A desk over [store0] with one task of Alice, already completed. *)
Definition desk_done : Desk :=
  mkDesk store0
    (<["t1" := Task.mk "t1" "u1" "Read chapter 3" None true (9 * DAY) (Some (9 * DAY + 5000))
                 None]> ∅).

(** ** Vocabulary for the progress list *)

(** The counters of the user are not negative. *)
Definition counters_nonneg (u : User) : Prop :=
  0 <= User.totalPomodoros u /\ 0 <= User.completedTasks u
  /\ 0 <= User.currentStreak u /\ 0 <= User.totalFocusMinutes u.

(** An entry of the progress list is right for the user: a whole
    percentage between 0 and 100 that is 100 exactly when the
    achievement is unlocked or its requirement is met. *)
Definition entry_ok (ps : gmap string Pod) (u : User) (e : AchievementProgress) : Prop :=
  ap_unlocked e = bool_decide (Achievement.id (ap_achievement e) ∈ User.achievements u)
  /\ exists p,
       ap_progress e = Fin (inject_Z p)
       /\ 0 <= p <= 100
       /\ (p = 100 <-> ap_unlocked e = true \/ meets ps u (ap_achievement e) = true).

(** ** Vocabulary for the clock face *)

(** The character of a decimal digit. *)
Definition digit (d : Z) : ascii := ascii_of_nat (48 + Z.to_nat d).

(** A number below 100 in two digits. *)
Definition two_digits (x : Z) : string :=
  String (digit (x / 10)) (String (digit (x mod 10)) EmptyString).
(** ** The reward formula on binary64 numbers

    JavaScript numbers are IEEE 754 binary64 values. The definitions below
    restate [calculatePomodoroReward] on them, to compare the exact model
    with the floating-point evaluation on the inputs the services pass. *)

(** The floor of a finite binary64 number, as an integer. *)
Definition f64_floorZ (x : float) : option Z :=
  match Prim2SF x with
  | S754_zero _ => Some 0
  | S754_finite s m e =>
      let v := if s then Z.neg m else Z.pos m in
      Some (if 0 <=? e then v * 2 ^ e else v / 2 ^ (- e))
  | S754_infinity _ | S754_nan => None
  end.

(** The value of a binary64 number that is an integer. *)
Definition f64_to_Z (x : float) : option Z :=
  match Prim2SF x with
  | S754_zero _ => Some 0
  | S754_finite s m e =>
      let v := if s then Z.neg m else Z.pos m in
      if 0 <=? e then Some (v * 2 ^ e)
      else if v mod 2 ^ (- e) =? 0 then Some (v / 2 ^ (- e)) else None
  | S754_infinity _ | S754_nan => None
  end.

Definition f64_of_Z (z : Z) : float :=
  SF2Prim (binary_normalize prec emax z 0 false).

(** The binary64 numbers nearest to 0.1 and equal to 0.5 and 3. *)
Definition f64_0_1 : float := 0x1.999999999999ap-4%float.
Definition f64_0_5 : float := 0x1p-1%float.
Definition f64_3 : float := 0x1.8p+1%float.

Definition f64_floor (x : float) : float :=
  match f64_floorZ x with
  | Some z => f64_of_Z z
  | None => x
  end.

Definition f64_min (a b : float) : float :=
  if PrimFloat.is_nan a then a
  else if PrimFloat.is_nan b then b
  else if PrimFloat.ltb b a then b else a.

(** [Math.round]: the floor, or the floor plus one from a fractional part
    of one half on. *)
Definition f64_round (x : float) : float :=
  match f64_floorZ x with
  | Some z =>
      if PrimFloat.leb f64_0_5 (PrimFloat.sub x (f64_of_Z z))
      then f64_of_Z (z + 1) else f64_of_Z z
  | None => x
  end.

Definition calculatePomodoroReward_f64 (baseReward streak : float) (inPod : bool) : float :=
  let reward := baseReward in
  let streakBonus :=
    f64_min (PrimFloat.mul (f64_floor (PrimFloat.div streak f64_3)) f64_0_1) f64_0_5 in
  let reward := PrimFloat.add reward (PrimFloat.mul baseReward streakBonus) in
  let reward :=
    if inPod then PrimFloat.add reward (PrimFloat.mul baseReward f64_0_5) else reward in
  f64_round reward.

(** The streaks of a year and more. *)
Definition streaks_checked : list Z := Z.of_nat <$> seq 0 401.

(** * Reasoning principles *)

Section MonadLemmas.
Context {A B : Type}.

Lemma bind_ok (m : M A) (k : A -> M B) st a st1 :
  m st = (Ok a, st1) -> bind m k st = k a st1.
Proof. intros H. unfold bind. now rewrite H. Qed.

Lemma bind_err (m : M A) (k : A -> M B) st e st1 :
  m st = (Err e, st1) -> bind m k st = (Err e, st1).
Proof. intros H. unfold bind. now rewrite H. Qed.

End MonadLemmas.

Lemma frame_sessions st st' : frame st' = frame st -> sessions st' = sessions st.
Proof. intros H. exact (f_equal fr_sessions H). Qed.

Lemma frame_pods st st' : frame st' = frame st -> pods st' = pods st.
Proof. intros H. exact (f_equal fr_pods H). Qed.

Lemma frame_clock st st' : frame st' = frame st -> clock st' = clock st.
Proof. intros H. exact (f_equal fr_clock H). Qed.

Lemma frame_user st st' uid u :
  frame st' = frame st -> users st !! uid = Some u ->
  exists u', users st' !! uid = Some u' /\ strip u' = strip u.
Proof.
  intros H Hu. pose proof (f_equal (fun f => fr_users f !! uid) H) as E.
  simpl in E. rewrite !lookup_fmap, Hu in E. simpl in E.
  destruct (users st' !! uid) as [u'|]; simpl in E; [|discriminate].
  exists u'. split; [reflexivity|]. now inversion E.
Qed.

(** Fields that [strip] keeps. *)
Lemma strip_fields u u' :
  strip u' = strip u ->
  User.id u' = User.id u /\
  User.totalPomodoros u' = User.totalPomodoros u /\
  User.totalFocusMinutes u' = User.totalFocusMinutes u /\
  User.completedTasks u' = User.completedTasks u /\
  User.currentStreak u' = User.currentStreak u /\
  User.bestStreak u' = User.bestStreak u /\
  User.lastActiveDate u' = User.lastActiveDate u.
Proof.
  destruct u, u'. unfold strip. simpl. intros H. inversion H. subst. tauto.
Qed.

Lemma strip_credit u achs coins :
  strip (apply_user_update (apply_user_update u (SetAchievements achs))
                           (SetFocusCoins coins)) = strip u.
Proof. now destruct u. Qed.

(** ** [unlockAchievement] *)

Lemma updateUser_some uid upd upds st u :
  users st !! uid = Some u ->
  updateUser uid (upd :: upds) st =
    (Ok (Some (fold_left apply_user_update (upd :: upds) u)),
     set_users (insert uid (fold_left apply_user_update (upd :: upds) u)) st).
Proof. intros Hu. unfold updateUser. now rewrite Hu. Qed.

Lemma awardFocusCoins_spec uid amount st u :
  users st !! uid = Some u ->
  awardFocusCoins uid amount st =
    (Ok (User.focusCoins u + amount),
     set_users
       (insert uid (apply_user_update u (SetFocusCoins (User.focusCoins u + amount)))) st).
Proof.
  intros Hu. unfold awardFocusCoins.
  rewrite (bind_ok _ _ st (Some u) st) by (unfold getUser; now rewrite Hu).
  rewrite (bind_ok _ _ st u st) by reflexivity.
  erewrite bind_ok by (eapply updateUser_some; eassumption).
  reflexivity.
Qed.

Lemma createNotification_ok n st :
  is_Some (users st !! Notification.userId n) ->
  createNotification n st = (Ok n, set_notifications (fun l => l ++ [n]) st).
Proof.
  intros H. unfold createNotification. now rewrite bool_decide_eq_true_2.
Qed.

Lemma unlockAchievement_spec uid aid st u :
  users st !! uid = Some u ->
  unlockAchievement uid aid st =
    if bool_decide (aid ∈ User.achievements u) then (Ok false, st)
    else match catalog_find aid with
         | None => (Ok false, st)
         | Some a => (Ok true, unlocked_store uid aid u a st)
         end.
Proof.
  intros Hu. unfold unlockAchievement.
  rewrite (bind_ok _ _ st (Some u) st) by (unfold getUser; now rewrite Hu).
  rewrite (bind_ok _ _ st u st) by reflexivity.
  destruct (bool_decide (aid ∈ User.achievements u)); [reflexivity|].
  destruct (catalog_find aid) as [a|]; [|reflexivity].
  erewrite bind_ok by (eapply updateUser_some; eassumption).
  erewrite bind_ok by (apply awardFocusCoins_spec; simpl; apply lookup_insert_eq).
  erewrite bind_ok by reflexivity.
  erewrite bind_ok by reflexivity.
  erewrite bind_ok
    by (apply createNotification_ok; simpl; rewrite lookup_insert_eq; eauto).
  unfold ret, unlocked_store, set_notifications, advance_rng, set_users. simpl.
  rewrite insert_insert_eq. destruct u; reflexivity.
Qed.

Lemma frame_unlocked_store uid aid u a st :
  users st !! uid = Some u -> frame (unlocked_store uid aid u a st) = frame st.
Proof.
  intros Hu. unfold frame, unlocked_store. simpl. f_equal.
  rewrite fmap_insert. unfold credited. rewrite strip_credit.
  apply insert_id. now rewrite lookup_fmap, Hu.
Qed.

Lemma unlockAchievement_frame uid aid st u :
  users st !! uid = Some u ->
  exists b st', unlockAchievement uid aid st = (Ok b, st') /\ frame st' = frame st.
Proof.
  intros Hu. rewrite (unlockAchievement_spec _ _ _ _ Hu).
  destruct (bool_decide _); [now eauto|].
  destruct (catalog_find aid) as [a|]; [|now eauto].
  eexists _, _. split; [reflexivity|]. now apply frame_unlocked_store.
Qed.

Lemma credited_achievements u aid a :
  User.achievements (credited u aid a) = User.achievements u ++ [aid].
Proof. now destruct u. Qed.

Lemma credited_focusCoins u aid a :
  User.focusCoins (credited u aid a) = User.focusCoins u + Achievement.reward a.
Proof. now destruct u. Qed.

(** ** Loops over achievements *)

Lemma for_each_unlock_frame uid (l : list Achievement) :
  forall st u,
    users st !! uid = Some u ->
    exists st',
      for_each l (fun a => unlockAchievement uid (Achievement.id a) ;; ret tt) st
        = (Ok tt, st')
      /\ frame st' = frame st.
Proof.
  induction l as [|a l IH]; intros st u Hu; simpl.
  - now exists st.
  - destruct (unlockAchievement_frame uid (Achievement.id a) st u Hu)
      as (b & st1 & E1 & F1).
    destruct (frame_user _ _ _ _ F1 Hu) as (u1 & Hu1 & _).
    destruct (IH st1 u1 Hu1) as (st2 & E2 & F2).
    exists st2. split; [|congruence].
    erewrite bind_ok; [exact E2|].
    erewrite bind_ok by exact E1. reflexivity.
Qed.

Lemma checkStreakAchievements_frame uid streak st u :
  users st !! uid = Some u ->
  exists st', checkStreakAchievements uid streak st = (Ok tt, st')
              /\ frame st' = frame st.
Proof.
  intros Hu. unfold checkStreakAchievements.
  eapply for_each_unlock_frame. exact Hu.
Qed.

Lemma checkAchievementRequirement_spec user a st :
  checkAchievementRequirement user a st = (Ok (meets (pods st) user a), st).
Proof.
  unfold checkAchievementRequirement, meets.
  destruct (Achievement.req_type a); reflexivity.
Qed.

Lemma find_by_id_some (l : list Achievement) a :
  a ∈ l ->
  List.find (fun x => bool_decide (Achievement.id x = Achievement.id a)) l <> None.
Proof.
  induction 1 as [a l|a b l Hin IH]; simpl.
  - now rewrite bool_decide_eq_true_2.
  - destruct (bool_decide _); [discriminate|exact IH].
Qed.

Lemma catalog_ids_NoDup : NoDup (Achievement.id <$> ACHIEVEMENTS).
Proof. apply (bool_decide_unpack _). vm_compute. exact I. Qed.

Lemma checkAchievements_loop_spec uid user (rest : list Achievement) :
  forall acc st udb,
    NoDup (Achievement.id <$> rest) ->
    (forall a, a ∈ rest -> catalog_find (Achievement.id a) <> None) ->
    users st !! uid = Some udb ->
    (forall a, a ∈ rest -> Achievement.id a ∉ User.achievements user ->
               Achievement.id a ∉ User.achievements udb) ->
    exists st',
      checkAchievements_loop uid user rest acc st =
        (Ok (acc ++ (Achievement.id <$> List.filter (eligible (pods st) user) rest)), st')
      /\ frame st' = frame st.
Proof.
  induction rest as [|a rest IH]; intros acc st udb Hnd Hcat Hu Hfresh.
  - exists st. simpl. now rewrite app_nil_r.
  - rewrite fmap_cons in Hnd. apply NoDup_cons in Hnd as [Ha Hnd].
    assert (Hcat' : forall b, b ∈ rest -> catalog_find (Achievement.id b) <> None)
      by (intros b Hb; apply Hcat; now right).
    assert (Hfresh' : forall b, b ∈ rest -> Achievement.id b ∉ User.achievements user ->
                                Achievement.id b ∉ User.achievements udb)
      by (intros b Hb; apply Hfresh; now right).
    simpl. unfold eligible at 1.
    destruct (bool_decide (Achievement.id a ∈ User.achievements user)) eqn:Hin; simpl.
    + exact (IH acc st udb Hnd Hcat' Hu Hfresh').
    + apply bool_decide_eq_false in Hin.
      erewrite bind_ok by apply checkAchievementRequirement_spec.
      destruct (meets (pods st) user a) eqn:Hm.
      * rewrite (bind_ok _ _ st true
                   (unlocked_store uid (Achievement.id a) udb
                      (default a (catalog_find (Achievement.id a))) st)).
        2:{ rewrite (unlockAchievement_spec _ _ _ _ Hu).
            rewrite bool_decide_eq_false_2
              by (apply Hfresh; [now left|exact Hin]).
            specialize (Hcat a (ltac:(now left))).
            destruct (catalog_find (Achievement.id a)); [reflexivity|congruence]. }
        set (a' := default a (catalog_find (Achievement.id a))).
        set (st1 := unlocked_store uid (Achievement.id a) udb a' st).
        assert (Hu1 : users st1 !! uid = Some (credited udb (Achievement.id a) a'))
          by apply lookup_insert_eq.
        destruct (IH (acc ++ [Achievement.id a]) st1 _ Hnd Hcat' Hu1) as (st2 & E2 & F2).
        { intros b Hb Hnb. rewrite credited_achievements.
          rewrite elem_of_app, list_elem_of_singleton. intros [H|H].
          - now apply (Hfresh' b Hb Hnb).
          - apply Ha. rewrite <- H. now apply list_elem_of_fmap_2. }
        exists st2. split.
        -- rewrite E2. simpl. now rewrite <- app_assoc.
        -- rewrite F2. now apply frame_unlocked_store.
      * exact (IH acc st udb Hnd Hcat' Hu Hfresh').
Qed.

Lemma checkAchievements_spec uid st u :
  users st !! uid = Some u ->
  exists st',
    checkAchievements uid st =
      (Ok (Achievement.id <$> List.filter (eligible (pods st) u) ACHIEVEMENTS), st')
    /\ frame st' = frame st.
Proof.
  intros Hu. unfold checkAchievements.
  rewrite (bind_ok _ _ st (Some u) st) by (unfold getUser; now rewrite Hu).
  rewrite (bind_ok _ _ st u st) by reflexivity.
  apply (checkAchievements_loop_spec uid u ACHIEVEMENTS [] st u); auto.
  - apply catalog_ids_NoDup.
  - intros a Ha. now apply find_by_id_some.
Qed.

(** ** Streaks *)

Lemma yesterday_is_previous_day now :
  toDateString (now - 24 * 60 * 60 * 1000) = toDateString now - 1.
Proof.
  unfold toDateString, MS_PER_DAY.
  replace (now - 24 * 60 * 60 * 1000) with (now + (-1) * (24 * 60 * 60 * 1000)) by lia.
  rewrite Z.div_add by lia. lia.
Qed.

Lemma updateStreak_spec uid st u :
  users st !! uid = Some u ->
  exists st',
    updateStreak uid st = (Ok (streak_after u (clock st)), st')
    /\ if bool_decide (toDateString (User.lastActiveDate u) = toDateString (clock st))
       then st' = st
       else frame st' = frame (set_users (insert uid (streak_row u (clock st))) st)
            /\ users st' !! uid <> None.
Proof.
  intros Hu. unfold updateStreak.
  rewrite (bind_ok _ _ st (Some u) st) by (unfold getUser; now rewrite Hu).
  rewrite (bind_ok _ _ st u st) by reflexivity.
  rewrite (bind_ok _ _ st (clock st) st) by reflexivity.
  rewrite yesterday_is_previous_day.
  unfold streak_row, streak_after.
  destruct (bool_decide (toDateString (User.lastActiveDate u) = toDateString (clock st)))
    eqn:Hday.
  - exists st. split; reflexivity.
  - set (current := if bool_decide (toDateString (User.lastActiveDate u)
                                    = toDateString (clock st) - 1)
                    then User.currentStreak u + 1 else 1).
    assert (Hbest : (if bool_decide (current > User.bestStreak u)
                     then current else User.bestStreak u)
                    = Z.max (User.bestStreak u) current).
    { clear. destruct (bool_decide_reflect (current > User.bestStreak u)); lia. }
    rewrite Hbest. simpl fst. simpl snd.
    erewrite bind_ok by (eapply updateUser_some; eassumption).
    match goal with
    | |- context [bind _ _ ?s] => set (st1 := s)
    end.
    assert (Hu1 : exists u1, users st1 !! uid = Some u1)
      by (eexists; apply lookup_insert_eq).
    destruct Hu1 as (u1 & Hu1).
    destruct (checkStreakAchievements_frame uid current st1 u1 Hu1) as (st2 & E2 & F2).
    exists st2. split.
    + erewrite bind_ok by exact E2. reflexivity.
    + split; [exact F2|].
      destruct (frame_user _ _ _ _ F2 Hu1) as (u2 & Hu2 & _). congruence.
Qed.

(** ** Sessions of a user *)

Lemma elem_of_user_sessions uid st s :
  s ∈ merge_sort later_start
        (filter (fun s => PomodoroSession.userId s = uid) (map_to_list (sessions st)).*2)
  <-> PomodoroSession.userId s = uid /\ exists i, sessions st !! i = Some s.
Proof.
  rewrite merge_sort_Permutation, list_elem_of_filter, list_elem_of_fmap.
  split.
  - intros [Hs ([i t] & -> & Hin)]. split; [exact Hs|].
    exists i. now apply elem_of_map_to_list.
  - intros [Hs (i & Hi)]. split; [exact Hs|].
    exists (i, s). split; [reflexivity|]. now apply elem_of_map_to_list.
Qed.

Lemma find_open_none uid st :
  List.find is_open
    (merge_sort later_start
       (filter (fun s => PomodoroSession.userId s = uid) (map_to_list (sessions st)).*2))
    = None ->
  ~ has_open_session uid st.
Proof.
  intros Hf (i & s & Hi & Hs & Ho).
  pose proof (List.find_none _ _ Hf s) as Hn.
  rewrite Hn in Ho; [discriminate|].
  apply list_elem_of_In, elem_of_user_sessions. eauto.
Qed.

Lemma find_open_some uid st :
  has_open_session uid st ->
  List.find is_open
    (merge_sort later_start
       (filter (fun s => PomodoroSession.userId s = uid) (map_to_list (sessions st)).*2))
    <> None.
Proof.
  intros (i & s & Hi & Hs & Ho) Hf.
  pose proof (List.find_none _ _ Hf s) as Hn.
  rewrite Hn in Ho; [discriminate|].
  apply list_elem_of_In, elem_of_user_sessions. eauto.
Qed.

Lemma startSession_active uid duration podId st :
  has_open_session uid st ->
  startSession uid duration podId st = (Err SessionAlreadyActive, st).
Proof.
  intros H. apply find_open_some in H. unfold startSession.
  erewrite bind_ok by reflexivity.
  destruct (List.find _ _); [reflexivity|congruence].
Qed.

(** ** Session operations *)

Lemma createSession_cases s st :
  (createSession s st = (Ok s, set_sessions (insert (PomodoroSession.id s) s) st)
   /\ sessions st !! PomodoroSession.id s = None)
  \/ createSession s st = (Err DbConstraint, st).
Proof.
  unfold createSession.
  destruct (bool_decide_reflect (sessions st !! PomodoroSession.id s = None)) as [Hk|Hk];
    simpl; [|now right].
  destruct (bool_decide _ && _); [left|right]; auto.
Qed.

Lemma updateSession_some sid upd upds st s :
  sessions st !! sid = Some s ->
  updateSession sid (upd :: upds) st =
    (Ok (Some (fold_left apply_session_update (upd :: upds) s)),
     set_sessions (insert sid (fold_left apply_session_update (upd :: upds) s)) st).
Proof. intros Hs. unfold updateSession. now rewrite Hs. Qed.

Lemma updateUserStats_ok uid minutes coins st :
  users st !! uid <> None ->
  exists row, updateUserStats uid minutes coins st
              = (Ok tt, set_user_stats (insert uid row) st).
Proof.
  intros Hu. unfold updateUserStats.
  erewrite bind_ok by reflexivity.
  eexists. erewrite bind_ok; [reflexivity|].
  unfold db_updateUserStats. rewrite bool_decide_eq_true_2; [reflexivity|].
  destruct (users st !! uid); [eauto|congruence].
Qed.

Lemma startSession_effect uid duration podId st :
  sessions (startSession uid duration podId st).2 = sessions st
  \/ exists s,
       (startSession uid duration podId st).1 = Ok s
       /\ sessions st !! PomodoroSession.id s = None
       /\ PomodoroSession.userId s = uid
       /\ ~ has_open_session uid st
       /\ sessions (startSession uid duration podId st).2
          = <[PomodoroSession.id s := s]> (sessions st).
Proof.
  unfold startSession.
  erewrite bind_ok by reflexivity.
  destruct (List.find is_open _) eqn:Hf; [now left|].
  apply find_open_none in Hf.
  erewrite bind_ok by reflexivity.
  destruct (users st !! uid) as [u|] eqn:Hu; [|now left].
  erewrite bind_ok by reflexivity.
  erewrite bind_ok by reflexivity.
  erewrite bind_ok by reflexivity.
  match goal with
  | |- context [createSession ?x] => set (session := x)
  end.
  destruct (createSession_cases session (advance_rng st)) as [[E Hk]|E].
  - erewrite bind_ok by exact E.
    set (st1 := set_sessions _ _).
    assert (Hu1 : users st1 !! uid = Some u) by exact Hu.
    destruct (updateStreak_spec uid st1 u Hu1) as (st2 & E2 & H2).
    erewrite bind_ok by exact E2.
    right. exists session. simpl. repeat split; auto.
    destruct (bool_decide _).
    + now subst st2.
    + destruct H2 as [F2 _]. now rewrite (frame_sessions _ _ F2).
  - erewrite bind_err by exact E. now left.
Qed.

Lemma completeSession_completed sid action early st s :
  sessions st !! sid = Some s -> PomodoroSession.completed s = true ->
  completeSession sid action early st = (Err SessionAlreadyCompleted, st).
Proof.
  intros Hs Hc. unfold completeSession.
  rewrite (bind_ok _ _ st (Some s) st) by (unfold getSession; now rewrite Hs).
  rewrite (bind_ok _ _ st s st) by reflexivity.
  now rewrite Hc.
Qed.

Lemma completeSession_run sid action early st s u :
  sessions st !! sid = Some s ->
  PomodoroSession.completed s = false ->
  users st !! PomodoroSession.userId s = Some u ->
  let now := clock st in
  let actual := actualMinutes_of s now in
  let reward := reward_of s u now early in
  let s' := completed_row s now action reward in
  exists achs st',
    completeSession sid action early st
      = (Ok (mkCompleteResult s' reward achs actual), st')
    /\ sessions st' = <[sid := s']> (sessions st)
    /\ pods st' = pods st
    /\ clock st' = clock st
    /\ if rewarded s now early
       then exists u', users st' !! PomodoroSession.userId s = Some u'
                       /\ strip u' = strip (rewarded_row u actual reward)
       else users st' = <[PomodoroSession.userId s := effort_row u actual]> (users st)
            /\ achs = []
            /\ user_stats st' = user_stats st
            /\ notifications st' = notifications st.
Proof.
  intros Hs Hc Hu now actual reward s'.
  unfold completeSession.
  rewrite (bind_ok _ _ st (Some s) st) by (unfold getSession; now rewrite Hs).
  rewrite (bind_ok _ _ st s st) by reflexivity.
  rewrite Hc.
  rewrite (bind_ok _ _ st (Some u) st) by (unfold getUser; now rewrite Hu).
  rewrite (bind_ok _ _ st u st) by reflexivity.
  rewrite (bind_ok _ _ st (clock st) st) by reflexivity.
  subst s'. unfold reward_of in reward. subst reward.
  fold now. fold (actualMinutes_of s now). fold actual.
  assert (Hr : js_ge (js_div actual (PomodoroSession.duration s)) 0.9 || negb early
               = rewarded s now early) by reflexivity.
  rewrite Hr. clear Hr.
  destruct (rewarded s now early).
  - set (reward := calculatePomodoroReward 1 _ _).
    set (uid := PomodoroSession.userId s) in *.
    set (st1 := set_users (insert uid (rewarded_row u actual reward)) st).
    assert (Hu1 : users st1 !! uid = Some (rewarded_row u actual reward))
      by apply lookup_insert_eq.
    destruct (updateUserStats_ok uid actual reward st1) as (row & E2); [congruence|].
    set (st2 := set_user_stats (insert uid row) st1) in E2.
    assert (Hu2 : users st2 !! uid = Some (rewarded_row u actual reward)) by exact Hu1.
    destruct (checkAchievements_spec uid st2 _ Hu2) as (st3 & E3 & F3).
    set (achs := Achievement.id <$> _) in E3.
    assert (Hs3 : sessions st3 !! sid = Some s)
      by (rewrite (frame_sessions _ _ F3); exact Hs).
    exists achs, (set_sessions (insert sid (completed_row s now action reward)) st3).
    split; [|split; [|split; [|split]]].
    + rewrite (bind_ok _ _ st (reward, achs) st3).
      * erewrite bind_ok by (eapply updateSession_some; exact Hs3).
        reflexivity.
      * erewrite bind_ok by (eapply updateUser_some; exact Hu).
        erewrite bind_ok by exact E2.
        erewrite bind_ok by exact E3. reflexivity.
    + simpl. now rewrite (frame_sessions _ _ F3).
    + simpl. now rewrite (frame_pods _ _ F3).
    + simpl. now rewrite (frame_clock _ _ F3).
    + simpl. exact (frame_user _ _ _ _ F3 Hu2).
  - set (uid := PomodoroSession.userId s) in *.
    set (st1 := set_users (insert uid (effort_row u actual)) st).
    exists [], (set_sessions (insert sid (completed_row s now action 0)) st1).
    split; [|repeat split].
    rewrite (bind_ok _ _ st (0, []) st1).
    + erewrite bind_ok by (eapply updateSession_some; exact Hs). reflexivity.
    + erewrite bind_ok by (eapply updateUser_some; exact Hu). reflexivity.
Qed.

Lemma cancelSession_run sid st :
  cancelSession sid st =
    match sessions st !! sid with
    | None => (Ok false, st)
    | Some s => (Ok true, set_sessions (insert sid (cancelled_row s (clock st))) st)
    end.
Proof.
  unfold cancelSession. erewrite bind_ok by reflexivity.
  destruct (sessions st !! sid) as [s|] eqn:Hs; [|reflexivity].
  erewrite bind_ok by reflexivity.
  erewrite bind_ok by (eapply updateSession_some; exact Hs). reflexivity.
Qed.

(** ** The reward formula *)

Lemma Math_floor_div3 s : Math_floor (inject_Z s / 3) = s / 3.
Proof.
  unfold Math_floor, Qfloor, Qdiv, Qmult, Qinv, inject_Z. simpl.
  f_equal. lia.
Qed.

Lemma streakBonus_tenths k :
  (Qmin (inject_Z k * 0.1) 0.5 == inject_Z (Z.min k 5) / 10)%Q.
Proof.
  destruct (Z.le_gt_cases k 5) as [H|H].
  - rewrite Z.min_l by exact H. rewrite Q.min_l.
    + unfold Qeq. simpl. lia.
    + unfold Qle. simpl. lia.
  - rewrite Z.min_r by lia. rewrite Q.min_r.
    + reflexivity.
    + unfold Qle. simpl. lia.
Qed.

(** On integers the reward is a quotient of integers, in tenths. *)
Lemma reward_closed_form b s inPod :
  calculatePomodoroReward (inject_Z b) (inject_Z s) inPod
  = (10 * b + b * Z.min (s / 3) 5 + (if inPod then 5 * b else 0) + 5) / 10.
Proof.
  unfold calculatePomodoroReward, Math_round.
  rewrite Math_floor_div3.
  transitivity
    (Qfloor ((10 * b + b * Z.min (s / 3) 5 + (if inPod then 5 * b else 0) + 5) # 10)).
  2: reflexivity.
  apply Qfloor_comp.
  destruct inPod; rewrite streakBonus_tenths; unfold Qeq; simpl; lia.
Qed.




#[local] Instance Qmin_proper : Proper (Qeq ==> Qeq ==> Qeq) Qmin := Q.min_compat.


Lemma completeSession_ok_inv sid action early st r st' :
  completeSession sid action early st = (Ok r, st') ->
  exists s u, sessions st !! sid = Some s
              /\ PomodoroSession.completed s = false
              /\ users st !! PomodoroSession.userId s = Some u.
Proof.
  unfold completeSession. erewrite bind_ok by reflexivity.
  destruct (sessions st !! sid) as [s|] eqn:Hs; [|discriminate].
  rewrite (bind_ok _ _ st s st) by reflexivity.
  destruct (PomodoroSession.completed s) eqn:Hc; [discriminate|].
  erewrite bind_ok by reflexivity.
  destruct (users st !! PomodoroSession.userId s) as [u|] eqn:Hu; [|discriminate].
  intros _. now exists s, u.
Qed.

(** The sessions after [completeSession]: untouched, or one closed row written. *)
Lemma completeSession_sessions sid action early st :
  sessions (completeSession sid action early st).2 = sessions st
  \/ exists s', is_open s' = false
                /\ sessions (completeSession sid action early st).2
                   = <[sid := s']> (sessions st).
Proof.
  destruct (sessions st !! sid) as [s|] eqn:Hs.
  2:{ left. unfold completeSession. erewrite bind_ok by reflexivity. now rewrite Hs. }
  destruct (PomodoroSession.completed s) eqn:Hc.
  { left. now rewrite (completeSession_completed _ _ _ _ _ Hs Hc). }
  destruct (users st !! PomodoroSession.userId s) as [u|] eqn:Hu.
  - destruct (completeSession_run sid action early st s u Hs Hc Hu)
      as (achs & st' & E & Hses & _).
    right. eexists. rewrite E. split; [|exact Hses]. now destruct s.
  - left. unfold completeSession.
    rewrite (bind_ok _ _ st (Some s) st) by (unfold getSession; now rewrite Hs).
    rewrite (bind_ok _ _ st s st) by reflexivity. rewrite Hc.
    erewrite bind_ok by reflexivity. now rewrite Hu.
Qed.

Lemma cancelSession_sessions sid st :
  sessions (cancelSession sid st).2 = sessions st
  \/ exists s', is_open s' = false
                /\ sessions (cancelSession sid st).2 = <[sid := s']> (sessions st).
Proof.
  rewrite cancelSession_run. destruct (sessions st !! sid) as [s|]; [|now left].
  right. exists (cancelled_row s (clock st)). split; [now destruct s|reflexivity].
Qed.

(** ** The open-session invariant *)

Lemma at_most_one_open_same st st' :
  sessions st' = sessions st -> at_most_one_open st -> at_most_one_open st'.
Proof. unfold at_most_one_open. intros ->. auto. Qed.

Lemma at_most_one_open_close st st' sid s' :
  is_open s' = false ->
  sessions st' = <[sid := s']> (sessions st) ->
  at_most_one_open st -> at_most_one_open st'.
Proof.
  intros Hc Hs Hinv i j s t Hi Hj Hu Hos Hot. rewrite Hs in Hi, Hj.
  destruct (decide (sid = i)) as [->|Hni].
  { rewrite lookup_insert_eq in Hi. congruence. }
  destruct (decide (sid = j)) as [->|Hnj].
  { rewrite lookup_insert_eq in Hj. congruence. }
  rewrite lookup_insert_ne in Hi, Hj by assumption.
  exact (Hinv i j s t Hi Hj Hu Hos Hot).
Qed.

Lemma at_most_one_open_start st st' s :
  sessions st !! PomodoroSession.id s = None ->
  ~ has_open_session (PomodoroSession.userId s) st ->
  sessions st' = <[PomodoroSession.id s := s]> (sessions st) ->
  at_most_one_open st -> at_most_one_open st'.
Proof.
  intros Hfree Hnone Hs Hinv i j a b Hi Hj Hu Hoa Hob. rewrite Hs in Hi, Hj.
  destruct (decide (PomodoroSession.id s = i)) as [Ei|Hni];
    destruct (decide (PomodoroSession.id s = j)) as [Ej|Hnj].
  - congruence.
  - subst i. rewrite lookup_insert_eq in Hi. rewrite lookup_insert_ne in Hj by assumption.
    exfalso. apply Hnone. exists j, b. repeat split; congruence.
  - subst j. rewrite lookup_insert_eq in Hj. rewrite lookup_insert_ne in Hi by assumption.
    exfalso. apply Hnone. exists i, a. repeat split; congruence.
  - rewrite lookup_insert_ne in Hi, Hj by assumption.
    exact (Hinv i j a b Hi Hj Hu Hoa Hob).
Qed.

(** ** Pods *)

Lemma createPod_run bot creatorId creatorName duration title st :
  let pod := new_pod bot creatorId creatorName duration title st in
  if bool_decide (pods st !! drawn_pod_id st = None)
     && bool_decide (~ invite_code_taken (drawn_invite_code st) (pods st))
     && bool_decide (is_Some (users st !! creatorId))
  then exists st',
         createPod bot creatorId creatorName duration title st
           = (Ok (pod, drawn_invite_code st), st')
         /\ pods st' = <[drawn_pod_id st := pod]> (pods st)
  else createPod bot creatorId creatorName duration title st
         = (Err DbConstraint, advance_rng (advance_rng st)).
Proof.
  intros pod. unfold createPod.
  erewrite bind_ok by reflexivity.
  erewrite bind_ok by reflexivity.
  erewrite bind_ok by reflexivity.
  change (clock (advance_rng (advance_rng st))) with (clock st).
  change (toUpperCase (toString_hex (bytes_of 4
            (rng_bytes (advance_rng st) (rng_pos (advance_rng st))))))
    with (drawn_invite_code st).
  change (rng_uuid st (rng_pos st)) with (drawn_pod_id st).
  fold (new_pod bot creatorId creatorName duration title st). fold pod.
  set (st2 := advance_rng (advance_rng st)).
  assert (Hrun : db_createPod pod st2 =
                 if bool_decide (pods st !! drawn_pod_id st = None)
                    && bool_decide (~ invite_code_taken (drawn_invite_code st) (pods st))
                    && bool_decide (is_Some (users st !! creatorId))
                 then (Ok pod, set_pods (insert (drawn_pod_id st) pod) st2)
                 else (Err DbConstraint, st2)) by reflexivity.
  destruct (bool_decide (pods st !! drawn_pod_id st = None)
            && bool_decide (~ invite_code_taken (drawn_invite_code st) (pods st))
            && bool_decide (is_Some (users st !! creatorId))) eqn:Hc.
  - erewrite bind_ok by exact Hrun.
    apply andb_true_iff in Hc as [_ Hu]. apply bool_decide_eq_true in Hu as [u Hu].
    set (st3 := set_pods _ st2).
    destruct (checkAchievements_spec creatorId st3 u Hu) as (st4 & E4 & F4).
    exists st4. split.
    + erewrite bind_ok by exact E4. reflexivity.
    + now rewrite (frame_pods _ _ F4).
  - erewrite bind_err by exact Hrun. reflexivity.
Qed.

(** ** Which achievements the two checks unlock *)

Lemma for_each_unlock_achievements uid (l : list Achievement) :
  forall st u,
    users st !! uid = Some u ->
    exists st' u',
      for_each l (fun a => unlockAchievement uid (Achievement.id a) ;; ret tt) st
        = (Ok tt, st')
      /\ users st' !! uid = Some u'
      /\ forall x, x ∈ User.achievements u' ->
                   x ∈ User.achievements u \/ x ∈ Achievement.id <$> l.
Proof.
  induction l as [|a l IH]; intros st u Hu.
  - exists st, u. simpl. auto.
  - assert (Hstep : exists st1 u1 b,
               unlockAchievement uid (Achievement.id a) st = (Ok b, st1)
               /\ users st1 !! uid = Some u1
               /\ forall x, x ∈ User.achievements u1 ->
                            x ∈ User.achievements u \/ x = Achievement.id a).
    { rewrite (unlockAchievement_spec _ _ _ _ Hu).
      destruct (bool_decide _); [exists st, u, false; auto|].
      destruct (catalog_find (Achievement.id a)) as [a'|]; [|exists st, u, false; auto].
      eexists _, (credited u (Achievement.id a) a'), true.
      split; [reflexivity|]. split; [apply lookup_insert_eq|].
      intros x. rewrite credited_achievements, elem_of_app, list_elem_of_singleton. auto. }
    destruct Hstep as (st1 & u1 & b & E1 & Hu1 & Hsub1).
    destruct (IH st1 u1 Hu1) as (st2 & u2 & E2 & Hu2 & Hsub2).
    exists st2, u2. split; [|split; [exact Hu2|]].
    + simpl. erewrite bind_ok; [exact E2|].
      erewrite bind_ok by exact E1. reflexivity.
    + intros x Hx. rewrite fmap_cons, elem_of_cons.
      destruct (Hsub2 x Hx) as [H|H]; [|now auto].
      destruct (Hsub1 x H); auto.
Qed.

Lemma elem_of_streakAchievements streak a :
  a ∈ streakAchievements streak
  <-> a ∈ ACHIEVEMENTS /\ Achievement.req_type a = Rstreak
      /\ Achievement.req_count a = streak.
Proof.
  unfold streakAchievements.
  rewrite !list_elem_of_In, List.filter_In, andb_true_iff,
    !bool_decide_eq_true. tauto.
Qed.

Lemma fmap_NoDup_inj {A B} (f : A -> B) (l : list A) a b :
  NoDup (f <$> l) -> a ∈ l -> b ∈ l -> f a = f b -> a = b.
Proof.
  induction l as [|x l IH]; intros Hnd Ha Hb Hf; [now inversion Ha|].
  rewrite fmap_cons in Hnd. apply NoDup_cons in Hnd as [Hx Hnd].
  apply elem_of_cons in Ha as [->|Ha]; apply elem_of_cons in Hb as [->|Hb].
  - reflexivity.
  - exfalso. apply Hx. rewrite Hf. now apply list_elem_of_fmap_2.
  - exfalso. apply Hx. rewrite <- Hf. now apply list_elem_of_fmap_2.
  - now apply IH.
Qed.

Lemma elem_of_sweep ps u a :
  a ∈ ACHIEVEMENTS ->
  Achievement.id a ∈ Achievement.id <$> List.filter (eligible ps u) ACHIEVEMENTS
  <-> eligible ps u a = true.
Proof.
  intros Ha. rewrite list_elem_of_fmap. split.
  - intros (b & Hid & Hb).
    apply list_elem_of_In, List.filter_In in Hb as [Hb He].
    apply list_elem_of_In in Hb.
    now rewrite (fmap_NoDup_inj _ _ a b catalog_ids_NoDup Ha Hb Hid).
  - intros He. exists a. split; [reflexivity|].
    apply list_elem_of_In, List.filter_In. split; [now apply list_elem_of_In|exact He].
Qed.

Lemma focus_streak_3_in_catalog : focus_streak_3 ∈ ACHIEVEMENTS.
Proof. apply list_elem_of_In. simpl. right. left. reflexivity. Qed.

Lemma getActiveSession_spec uid st :
  exists o, getActiveSession uid st = (Ok o, st)
            /\ (o <> None <-> has_open_session uid st).
Proof.
  unfold getActiveSession. erewrite bind_ok by reflexivity.
  eexists. split; [reflexivity|]. split.
  - intros Hf. destruct (List.find is_open _) as [s|] eqn:E; [|congruence].
    apply List.find_some in E as [Hin Ho].
    apply list_elem_of_In, elem_of_user_sessions in Hin as [Hu (i & Hi)].
    now exists i, s.
  - apply find_open_some.
Qed.


(** On base reward 1, the only one [completeSession] passes, and on every
    streak up to 400 days, the binary64 evaluation and the exact model
    give the same reward. *)
Lemma reward_binary64_agrees s inPod :
  s ∈ streaks_checked ->
  f64_to_Z (calculatePomodoroReward_f64 (f64_of_Z 1) (f64_of_Z s) inPod)
  = Some (calculatePomodoroReward 1 (inject_Z s) inPod).
Proof.
  assert (H : forallb
                (fun s =>
                   forallb
                     (fun inPod =>
                        bool_decide
                          (f64_to_Z (calculatePomodoroReward_f64 (f64_of_Z 1) (f64_of_Z s) inPod)
                           = Some (calculatePomodoroReward 1 (inject_Z s) inPod)))
                     [true; false])
                streaks_checked = true) by (vm_compute; reflexivity).
  intros Hs. rewrite forallb_forall in H.
  apply list_elem_of_In in Hs. specialize (H s Hs).
  rewrite forallb_forall in H.
  assert (Hin : In inPod [true; false]) by (destruct inPod; simpl; auto).
  specialize (H inPod Hin). now apply bool_decide_eq_true in H.
Qed.

(** * Properties of the services *)

(** ** Achievements *)

Lemma catalog_find_none aid :
  aid ∉ Achievement.id <$> ACHIEVEMENTS -> catalog_find aid = None.
Proof.
  intros Hn. unfold catalog_find.
  destruct (List.find _ ACHIEVEMENTS) as [a|] eqn:Hf; [|reflexivity].
  apply List.find_some in Hf as [Hin Hid].
  apply bool_decide_eq_true in Hid. exfalso. apply Hn. rewrite <- Hid.
  apply list_elem_of_fmap_2. now apply list_elem_of_In.
Qed.

(** C10. For an existing user and an achievement id that does not occur in
    the catalog, [unlockAchievement] returns [false] without raising and
    leaves the whole store as it was: the user's achievements, coin balance
    and other fields are unchanged and no notification is created. *)
Theorem C10_unknown_achievement_is_noop st uid aid u :
  users st !! uid = Some u ->
  aid ∉ Achievement.id <$> ACHIEVEMENTS ->
  unlockAchievement uid aid st = (Ok false, st).
Proof.
  intros Hu Hn. rewrite (unlockAchievement_spec _ _ _ _ Hu).
  rewrite (catalog_find_none _ Hn). now destruct (bool_decide _).
Qed.

Lemma C10_unknown_achievement_witness :
  unlockAchievement "u1" "night_owl" store0 = (Ok false, store0).
Proof.
  apply (C10_unknown_achievement_is_noop store0 "u1" "night_owl" alice).
  - reflexivity.
  - apply (bool_decide_unpack _). vm_compute. exact I.
Defined.

(** C7. [unlockAchievement] unlocks exactly once. If the id is already in
    the user's achievements it returns [false] and changes nothing.
    Otherwise (for an id of the catalog) it returns [true], appends the id
    once and credits exactly the achievement's reward; the id is then in
    the list, so a repeated call returns [false] and changes nothing: the
    id is never added twice and the reward never granted twice. *)
Theorem C7_unlock_exactly_once st uid aid u :
  users st !! uid = Some u ->
  (aid ∈ User.achievements u -> unlockAchievement uid aid st = (Ok false, st))
  /\ (aid ∉ User.achievements u ->
      forall a, catalog_find aid = Some a ->
      exists st' u',
        unlockAchievement uid aid st = (Ok true, st')
        /\ users st' !! uid = Some u'
        /\ User.achievements u' = User.achievements u ++ [aid]
        /\ User.focusCoins u' = User.focusCoins u + Achievement.reward a
        /\ (NoDup (User.achievements u) -> NoDup (User.achievements u'))
        /\ unlockAchievement uid aid st' = (Ok false, st')).
Proof.
  intros Hu. split.
  - intros Hin. rewrite (unlockAchievement_spec _ _ _ _ Hu).
    now rewrite bool_decide_eq_true_2.
  - intros Hnin a Ha.
    exists (unlocked_store uid aid u a st), (credited u aid a).
    assert (Hu' : users (unlocked_store uid aid u a st) !! uid = Some (credited u aid a))
      by apply lookup_insert_eq.
    split; [|split; [exact Hu'|split; [|split; [|split]]]].
    + rewrite (unlockAchievement_spec _ _ _ _ Hu).
      rewrite bool_decide_eq_false_2 by exact Hnin. now rewrite Ha.
    + apply credited_achievements.
    + apply credited_focusCoins.
    + rewrite credited_achievements. intros Hnd.
      apply NoDup_app. split; [exact Hnd|]. split.
      * intros x Hx ->%list_elem_of_singleton. contradiction.
      * apply NoDup_singleton.
    + rewrite (unlockAchievement_spec _ _ _ _ Hu').
      rewrite bool_decide_eq_true_2; [reflexivity|].
      rewrite credited_achievements, elem_of_app, list_elem_of_singleton. now right.
Qed.

Lemma C7_unlock_exactly_once_witness :
  unlockAchievement "u3" "first_focus" store0 = (Ok false, store0)
  /\ exists st' u',
       unlockAchievement "u1" "first_focus" store0 = (Ok true, st')
       /\ users st' !! "u1" = Some u'
       /\ User.achievements u' = ["first_focus"]
       /\ User.focusCoins u' = 5
       /\ unlockAchievement "u1" "first_focus" st' = (Ok false, st').
Proof.
  split.
  - apply (proj1 (C7_unlock_exactly_once store0 "u3" "first_focus" carol eq_refl)).
    apply (bool_decide_unpack _). vm_compute. exact I.
  - destruct (proj2 (C7_unlock_exactly_once store0 "u1" "first_focus" alice eq_refl))
      with (a := first_focus)
      as (st' & u' & H1 & H2 & H3 & H4 & _ & H6).
    + apply (bool_decide_unpack _). vm_compute. exact I.
    + reflexivity.
    + exists st', u'. auto.
Defined.

(** ** The reward formula *)


(** The streak bonus is capped: from a streak of fifteen days on, the
    reward no longer grows. *)
Lemma reward_capped b s inPod :
  15 <= s ->
  calculatePomodoroReward (inject_Z b) (inject_Z s) inPod
  = calculatePomodoroReward (inject_Z b) (inject_Z 15) inPod.
Proof.
  intros Hs. rewrite !reward_closed_form.
  assert (5 <= s / 3) by (apply Z.div_le_lower_bound; lia).
  rewrite (Z.min_r (s / 3)) by lia. reflexivity.
Qed.

(** ** Streaks *)

(** C5. [updateStreak] follows the calendar. On the day of
    [lastActiveDate] it changes nothing and returns the stored values. One
    day later the current streak grows by one; after a longer gap it is
    reset to one. When the streak changes, the best streak becomes the
    maximum of the previous best and the new current streak, and
    [lastActiveDate] is stamped with the current time; on the same day the
    best streak, unchanged, is that maximum as soon as it was not below the
    current streak. *)
Theorem C5_updateStreak_calendar st uid u :
  users st !! uid = Some u ->
  let today := toDateString (clock st) in
  let last := toDateString (User.lastActiveDate u) in
  (last = today ->
     updateStreak uid st = (Ok (User.currentStreak u, User.bestStreak u), st)
     /\ (User.currentStreak u <= User.bestStreak u ->
         User.bestStreak u = Z.max (User.bestStreak u) (User.currentStreak u)))
  /\ (last <> today ->
      exists st' u',
        updateStreak uid st = (Ok (User.currentStreak u', User.bestStreak u'), st')
        /\ users st' !! uid = Some u'
        /\ (last = today - 1 -> User.currentStreak u' = User.currentStreak u + 1)
        /\ (last < today - 1 -> User.currentStreak u' = 1)
        /\ User.bestStreak u' = Z.max (User.bestStreak u) (User.currentStreak u')
        /\ User.lastActiveDate u' = clock st).
Proof.
  intros Hu today last.
  destruct (updateStreak_spec uid st u Hu) as (st' & E & H).
  unfold streak_after in E. fold today last in E, H. split.
  - intros Hd. rewrite bool_decide_eq_true_2 in E, H by exact Hd. subst st'.
    split; [exact E|lia].
  - intros Hd. rewrite bool_decide_eq_false_2 in E, H by exact Hd.
    destruct H as [F _].
    set (row := streak_row u (clock st)) in F.
    assert (Hrow : users (set_users (insert uid row) st) !! uid = Some row)
      by apply lookup_insert_eq.
    destruct (frame_user _ _ _ _ F Hrow) as (u' & Hu' & Hs).
    apply strip_fields in Hs as (_ & _ & _ & _ & Hc & Hb & Hl).
    assert (Rc : User.currentStreak row
                 = if bool_decide (last = today - 1) then User.currentStreak u + 1 else 1).
    { subst row. unfold streak_row, streak_after. fold today last.
      rewrite bool_decide_eq_false_2 by exact Hd. now destruct u. }
    assert (Rb : User.bestStreak row = Z.max (User.bestStreak u) (User.currentStreak row)).
    { rewrite Rc. subst row. unfold streak_row, streak_after. fold today last.
      rewrite bool_decide_eq_false_2 by exact Hd. now destruct u. }
    assert (Rl : User.lastActiveDate row = clock st).
    { subst row. unfold streak_row. now destruct u. }
    exists st', u'. rewrite Hc, Hb, Hl, Rb, Rc.
    split; [exact E|]. split; [exact Hu'|]. repeat split.
    + intros H1. now rewrite bool_decide_eq_true_2.
    + intros H1. rewrite bool_decide_eq_false_2; [reflexivity|lia].
    + exact Rl.
Qed.

(** [updateStreak] keeps the best streak at or above the current one. *)
Lemma updateStreak_streaks_consistent uid st :
  streaks_consistent st -> streaks_consistent (updateStreak uid st).2.
Proof.
  intros Hc. destruct (users st !! uid) as [u|] eqn:Hu.
  - destruct (updateStreak_spec uid st u Hu) as (st' & E & H).
    rewrite E. simpl. destruct (bool_decide _) eqn:Hd; [now subst st'|].
    destruct H as [F _]. symmetry in F.
    intros k u' Hk. destruct (frame_user _ _ _ _ F Hk) as (v & Hv & Hs).
    apply strip_fields in Hs as (_ & _ & _ & _ & Hcur & Hbest & _).
    rewrite <- Hcur, <- Hbest. simpl in Hv.
    destruct (decide (uid = k)) as [->|Hne].
    + rewrite lookup_insert_eq in Hv. inversion Hv. subst v.
      unfold streak_row, streak_after. rewrite Hd. destruct u; simpl. lia.
    + rewrite lookup_insert_ne in Hv by exact Hne. exact (Hc k v Hv).
  - unfold updateStreak. erewrite bind_ok by reflexivity. now rewrite Hu.
Qed.

Lemma C5_updateStreak_calendar_witness :
  (* Carol was active today: nothing changes *)
  updateStreak "u3" store0 = (Ok (9, 9), store0)
  (* Alice was active yesterday: her streak grows from 0 to 1 *)
  /\ (exists st' u',
        updateStreak "u1" store0
          = (Ok (User.currentStreak u', User.bestStreak u'), st')
        /\ users st' !! "u1" = Some u'
        /\ User.currentStreak u' = 1
        /\ User.bestStreak u' = 1
        /\ User.lastActiveDate u' = clock store0).
Proof.
  split.
  - apply (proj1 (C5_updateStreak_calendar store0 "u3" carol eq_refl)). reflexivity.
  - destruct (proj2 (C5_updateStreak_calendar store0 "u1" alice eq_refl))
      as (st' & u' & H1 & H2 & H3 & _ & H5 & H6).
    + vm_compute. discriminate.
    + exists st', u'.
      split; [exact H1|]. split; [exact H2|].
      split; [exact (H3 eq_refl)|]. split; [|exact H6].
      rewrite H5, (H3 eq_refl). reflexivity.
Defined.

(** ** Sessions *)

Lemma session_calls_keep_invariant st :
  at_most_one_open st ->
  (forall uid duration podId,
     at_most_one_open (startSession uid duration podId st).2)
  /\ (forall sid action early,
        at_most_one_open (completeSession sid action early st).2)
  /\ (forall sid, at_most_one_open (cancelSession sid st).2).
Proof.
  intros Hinv. split; [|split].
  - intros uid duration podId.
    destruct (startSession_effect uid duration podId st)
      as [Hs|(s & _ & Hfree & Huid & Hnone & Hs)].
    + exact (at_most_one_open_same _ _ Hs Hinv).
    + subst uid. exact (at_most_one_open_start _ _ _ Hfree Hnone Hs Hinv).
  - intros sid action early.
    destruct (completeSession_sessions sid action early st) as [Hs|(s' & Hc & Hs)].
    + exact (at_most_one_open_same _ _ Hs Hinv).
    + exact (at_most_one_open_close _ _ _ _ Hc Hs Hinv).
  - intros sid.
    destruct (cancelSession_sessions sid st) as [Hs|(s' & Hc & Hs)].
    + exact (at_most_one_open_same _ _ Hs Hinv).
    + exact (at_most_one_open_close _ _ _ _ Hc Hs Hinv).
Qed.

(** C1. A user has at most one open session (not completed, no end time)
    at any time: [startSession] fails with the already-active error, the
    store unchanged, when the user has an open session, and [startSession],
    [completeSession] and [cancelSession] each keep the invariant, whatever
    their arguments and whether they succeed or fail. *)
Theorem C1_one_open_session_per_user st :
  (forall uid duration podId,
     has_open_session uid st ->
     startSession uid duration podId st = (Err SessionAlreadyActive, st))
  /\ (at_most_one_open st ->
      (forall uid duration podId,
         at_most_one_open (startSession uid duration podId st).2)
      /\ (forall sid action early,
            at_most_one_open (completeSession sid action early st).2)
      /\ (forall sid, at_most_one_open (cancelSession sid st).2)).
Proof.
  split.
  - intros uid duration podId Hopen. now apply startSession_active.
  - apply session_calls_keep_invariant.
Qed.

(** Hence the invariant holds at any time: from a store without sessions,
    after any sequence of calls of the session manager. *)
Corollary one_open_session_always cs st :
  sessions st = ∅ -> at_most_one_open (run_calls cs st).
Proof.
  intros Hempty.
  assert (H0 : at_most_one_open st).
  { intros i j s t Hi. rewrite Hempty, lookup_empty in Hi. discriminate. }
  clear Hempty. revert st H0. induction cs as [|c cs IH]; intros st H0; [exact H0|].
  apply IH. destruct (session_calls_keep_invariant st H0) as (H1 & H2 & H3).
  destruct c; simpl; auto.
Qed.

(** The store with Alice's running session satisfies the invariant. *)
Lemma store_running_one_open m : at_most_one_open (store_running m).
Proof.
  intros i j s t Hi Hj _ _ _. simpl in Hi, Hj.
  apply lookup_insert_Some in Hi as [[<- _]|[_ Hi]]; [|now rewrite lookup_empty in Hi].
  apply lookup_insert_Some in Hj as [[<- _]|[_ Hj]]; [|now rewrite lookup_empty in Hj].
  reflexivity.
Qed.

Lemma store_running_has_open m : has_open_session "u1" (store_running m).
Proof. exists "s1", session1. repeat split; reflexivity. Qed.

Lemma C1_one_open_session_witness :
  startSession "u1" None None (store_running 5)
    = (Err SessionAlreadyActive, store_running 5)
  /\ at_most_one_open (startSession "u2" (Some 50) None (store_running 5)).2
  /\ at_most_one_open (completeSession "s1" (Some TA_COMPLETED) false (store_running 5)).2
  /\ at_most_one_open (cancelSession "s1" (store_running 5)).2.
Proof.
  pose proof (C1_one_open_session_per_user (store_running 5)) as [Hstart Hkeep].
  specialize (Hkeep (store_running_one_open 5)) as (H1 & H2 & H3).
  split; [apply Hstart, store_running_has_open|]. auto.
Defined.

(** C3. [completeSession] is idempotent under re-invocation. On a session
    whose [completed] flag is set it reports the already-completed error
    and leaves the whole store as it was: the stored session (reward, end
    time), the user's counters and coins and the rolling statistics. In
    particular, after a call that succeeded the stored session is
    completed, so every further call on the same id is such a no-op. *)
Theorem C3_complete_twice_is_noop st sid :
  (forall s action early,
     sessions st !! sid = Some s -> PomodoroSession.completed s = true ->
     completeSession sid action early st = (Err SessionAlreadyCompleted, st))
  /\ (forall action early r st',
        completeSession sid action early st = (Ok r, st') ->
        sessions st' !! sid = Some (cr_session r)
        /\ PomodoroSession.completed (cr_session r) = true
        /\ forall action2 early2,
             completeSession sid action2 early2 st' = (Err SessionAlreadyCompleted, st')).
Proof.
  split; [intros s action early Hs Hc; exact (completeSession_completed _ _ _ _ _ Hs Hc)|].
  intros action early r st' E.
  destruct (completeSession_ok_inv _ _ _ _ _ _ E) as (s & u & Hs & Hc & Hu).
  destruct (completeSession_run sid action early st s u Hs Hc Hu)
    as (achs & st1 & E1 & Hses & _).
  rewrite E1 in E. inversion E. subst st1. simpl.
  assert (Hl : sessions st' !! sid
               = Some (completed_row s (clock st) action (reward_of s u (clock st) early)))
    by (rewrite Hses; apply lookup_insert_eq).
  assert (Hd : PomodoroSession.completed
                 (completed_row s (clock st) action (reward_of s u (clock st) early)) = true)
    by now destruct s.
  split; [exact Hl|]. split; [exact Hd|].
  intros action2 early2. exact (completeSession_completed _ _ _ _ _ Hl Hd).
Qed.

Lemma C3_complete_twice_witness :
  exists r st',
    completeSession "s1" (Some TA_COMPLETED) false (store_running 26) = (Ok r, st')
    /\ cr_reward r = 1
    /\ completeSession "s1" (Some TA_COMPLETED) false st'
       = (Err SessionAlreadyCompleted, st').
Proof.
  destruct (completeSession "s1" (Some TA_COMPLETED) false (store_running 26))
    as [[r|e] st'] eqn:E.
  - exists r, st'. split; [reflexivity|].
    pose proof (proj2 (C3_complete_twice_is_noop (store_running 26) "s1") _ _ _ _ E)
      as (_ & _ & H).
    split; [|apply H].
    revert E. vm_compute. intros E. now inversion E.
  - exfalso. revert E. vm_compute. discriminate.
Defined.



(** ** Pods *)




(** ** Streak achievements *)

(** C9, as stated, fails for the generic sweep. Bob is on a five-day streak
    and never unlocked the three-day achievement; [checkAchievements]
    unlocks it although his streak is not three. *)
Lemma C9_sweep_unlocks_past_threshold :
  ~ (forall ids st',
       checkAchievements "u2" store0 = (Ok ids, st') ->
       forall a, a ∈ ACHIEVEMENTS -> Achievement.req_type a = Rstreak ->
                 Achievement.id a ∈ ids ->
                 User.currentStreak bob = Achievement.req_count a).
Proof.
  intros H.
  destruct (checkAchievements "u2" store0) as [r st'] eqn:E.
  assert (Hr : (checkAchievements "u2" store0).1 = Ok ["focus_streak_3"])
    by (vm_compute; reflexivity).
  rewrite E in Hr. simpl in Hr. subst r.
  specialize (H ["focus_streak_3"] st' eq_refl focus_streak_3
                focus_streak_3_in_catalog eq_refl).
  discriminate H. apply list_elem_of_singleton. reflexivity.
Qed.

(** C9, amended. The check that follows a streak update
    ([checkStreakAchievements]) selects the streak achievements whose
    threshold equals the streak exactly, and unlocks nothing else. The
    generic sweep [checkAchievements] tests [currentStreak >= threshold]:
    it unlocks every streak achievement that is not yet unlocked and whose
    threshold the current streak has reached or passed. *)
Theorem C9_streak_unlock_rules st uid u :
  users st !! uid = Some u ->
  (forall streak a,
     a ∈ streakAchievements streak
     <-> a ∈ ACHIEVEMENTS /\ Achievement.req_type a = Rstreak
         /\ Achievement.req_count a = streak)
  /\ (forall streak,
        exists st' u',
          checkStreakAchievements uid streak st = (Ok tt, st')
          /\ users st' !! uid = Some u'
          /\ forall x, x ∈ User.achievements u' ->
               x ∈ User.achievements u
               \/ exists a, a ∈ ACHIEVEMENTS /\ Achievement.id a = x
                            /\ Achievement.req_type a = Rstreak
                            /\ Achievement.req_count a = streak)
  /\ (exists ids st',
        checkAchievements uid st = (Ok ids, st')
        /\ forall a, a ∈ ACHIEVEMENTS -> Achievement.req_type a = Rstreak ->
             (Achievement.id a ∈ ids
              <-> (Achievement.id a ∉ User.achievements u)
                  /\ Achievement.req_count a <= User.currentStreak u)).
Proof.
  intros Hu. split; [|split].
  - intros streak a. apply elem_of_streakAchievements.
  - intros streak. unfold checkStreakAchievements.
    destruct (for_each_unlock_achievements uid (streakAchievements streak) st u Hu)
      as (st' & u' & E & Hu' & Hsub).
    exists st', u'. split; [exact E|]. split; [exact Hu'|].
    intros x Hx. destruct (Hsub x Hx) as [H|H]; [now left|right].
    apply list_elem_of_fmap in H as (a & -> & Ha).
    apply elem_of_streakAchievements in Ha as (H1 & H2 & H3). now exists a.
  - destruct (checkAchievements_spec uid st u Hu) as (st' & E & _).
    eexists _, st'. split; [exact E|].
    intros a Ha Ht. rewrite (elem_of_sweep _ _ _ Ha).
    unfold eligible, meets. rewrite Ht, andb_true_iff, negb_true_iff,
      bool_decide_eq_false, bool_decide_eq_true. split; intros [H1 H2]; split; auto; lia.
Qed.

Lemma C9_streak_unlock_witness :
  (* after a streak update to 5 nothing is unlocked: no threshold equals 5 *)
  (exists st' u',
     checkStreakAchievements "u2" 5 store0 = (Ok tt, st')
     /\ users st' !! "u2" = Some u'
     /\ "focus_streak_3" ∉ User.achievements u')
  (* the sweep unlocks the three-day achievement on a five-day streak *)
  /\ (exists ids st',
        checkAchievements "u2" store0 = (Ok ids, st') /\ "focus_streak_3" ∈ ids).
Proof.
  pose proof (C9_streak_unlock_rules store0 "u2" bob eq_refl) as (_ & Hexact & Hsweep).
  split.
  - destruct (Hexact 5) as (st' & u' & E & Hu' & Hsub).
    exists st', u'. split; [exact E|]. split; [exact Hu'|].
    intros Hin. destruct (Hsub _ Hin) as [H|(a & Ha & Hid & Ht & Hc)].
    + simpl in H. now apply elem_of_nil in H.
    + apply list_elem_of_In in Ha. simpl in Ha.
      repeat (destruct Ha as [<-|Ha]; [discriminate|]). exact Ha.
  - destruct Hsweep as (ids & st' & E & Hiff).
    exists ids, st'. split; [exact E|].
    apply (Hiff focus_streak_3).
    + apply list_elem_of_In. simpl. right. left. reflexivity.
    + reflexivity.
    + split; [|simpl; lia]. simpl. apply not_elem_of_nil.
Defined.

(** ** Terminal states *)

(** C4 does not hold of the code: terminal states are overwritten.
    - A cancelled session (not completed, end time set) is accepted by
      [completeSession], which only tests the [completed] flag: the call
      succeeds, pays the reward and marks the session completed.
    - [cancelSession] has no guard: on a completed session it clears the
      [completed] flag, after which [completeSession] pays a second time.
    - [cancelPod] has no guard either: a COMPLETED pod becomes CANCELLED. *)
Theorem C4_terminal_states_are_overwritten :
  (* the cancelled session is terminal ... *)
  (is_open <$> sessions store_cancelled !! "s1") = Some false
  /\ (PomodoroSession.completed <$> sessions store_cancelled !! "s1") = Some false
  (* ... and yet completing it succeeds and pays *)
  /\ (cr_reward <$> ok_value (completeSession "s1" None false store_cancelled)) = Some 1
  /\ (User.focusCoins <$>
        users (completeSession "s1" None false store_cancelled).2 !! "u1") = Some 6
  (* cancelling a completed session reopens it for a second payment *)
  /\ (PomodoroSession.completed <$> sessions store_completed !! "s1") = Some true
  /\ (User.totalPomodoros <$> users store_completed !! "u1") = Some 1
  /\ (PomodoroSession.completed <$>
        sessions (cancelSession "s1" store_completed).2 !! "s1") = Some false
  /\ (User.totalPomodoros <$>
        users (completeSession "s1" None false
                 (cancelSession "s1" store_completed).2).2 !! "u1") = Some 2
  (* cancelling a completed pod moves it to CANCELLED *)
  /\ (Pod.status <$> pods store_pod_completed !! "p1") = Some COMPLETED
  /\ (Pod.status <$> pods (cancelPod "p1" store_pod_completed).2 !! "p1")
     = Some CANCELLED.
Proof. vm_compute. repeat split. Qed.

(** * Further properties of the services *)

Section PodMonadLemmas.
Context {A B : Type}.

Lemma call_ok (m : M A) st a st1 :
  m st = (Ok a, st1) -> call m st = (Done a, st1).
Proof. intros H. unfold call. now rewrite H. Qed.

Lemma call_err (m : M A) st e st1 :
  m st = (Err e, st1) -> call m st = (Failed (Base e), st1).
Proof. intros H. unfold call. now rewrite H. Qed.

Lemma bindP_done (m : P A) (k : A -> P B) st a st1 :
  m st = (Done a, st1) -> bindP m k st = k a st1.
Proof. intros H. unfold bindP. now rewrite H. Qed.

Lemma bindP_failed (m : P A) (k : A -> P B) st e st1 :
  m st = (Failed e, st1) -> bindP m k st = (Failed e, st1).
Proof. intros H. unfold bindP. now rewrite H. Qed.

Lemma bindP_done_inv (m : P A) (k : A -> P B) st b st2 :
  bindP m k st = (Done b, st2) ->
  exists a st1, m st = (Done a, st1) /\ k a st1 = (Done b, st2).
Proof.
  unfold bindP. destruct (m st) as [[a|e] st1]; intros H; [|discriminate].
  now exists a, st1.
Qed.
End PodMonadLemmas.

Lemma updatePod_some pid upd upds st p :
  pods st !! pid = Some p ->
  updatePod pid (upd :: upds) st =
    (Ok (Some (fold_left apply_pod_update (upd :: upds) p)),
     set_pods (insert pid (fold_left apply_pod_update (upd :: upds) p)) st).
Proof. intros Hp. unfold updatePod. now rewrite Hp. Qed.

Lemma is_participant_spec uid pod :
  is_participant uid pod = true <-> uid ∈ participant_ids pod.
Proof.
  unfold is_participant, participant_ids. rewrite existsb_exists, list_elem_of_fmap.
  split.
  - intros (q & Hq & He). apply bool_decide_eq_true in He.
    exists q. split; [now symmetry|now apply list_elem_of_In].
  - intros (q & He & Hq). exists q. split; [now apply list_elem_of_In|].
    now apply bool_decide_eq_true.
Qed.

(** ** [joinPod] *)

Lemma joinPod_run pid uid name st :
  joinPod pid uid name st =
    match pods st !! pid with
    | None => (Failed (Base PodNotFound), st)
    | Some pod =>
        if bool_decide (Pod.status pod <> WAITING)
        then (Failed PodAlreadyStartedOrCompleted, st)
        else if is_participant uid pod then (Done pod, st)
        else
          let pod' :=
            with_participants pod (Pod.participants pod ++ [joiner uid name (clock st)]) in
          let st1 := advance_rng (set_pods (insert pid pod') st) in
          if bool_decide (is_Some (users st !! Pod.creatorId pod))
          then (Done pod', set_notifications (fun l => l ++ [join_note pod' name st]) st1)
          else (Failed (Base DbConstraint), st1)
    end.
Proof.
  unfold joinPod. erewrite bindP_done by (apply call_ok; reflexivity).
  destruct (pods st !! pid) as [pod|] eqn:Hp; [|reflexivity].
  destruct (bool_decide (Pod.status pod <> WAITING)); [reflexivity|].
  destruct (is_participant uid pod); [reflexivity|].
  erewrite bindP_done by (apply call_ok; reflexivity).
  erewrite bindP_done
    by (apply call_ok; eapply updatePod_some; exact Hp).
  erewrite bindP_done by (apply call_ok; reflexivity).
  change (PodParticipant.mk uid name (clock st) false None None)
    with (joiner uid name (clock st)).
  set (pod' := with_participants pod (Pod.participants pod ++ [joiner uid name (clock st)])).
  assert (Hw : fold_left apply_pod_update [SetParticipants (Pod.participants pod')] pod = pod')
    by now destruct pod.
  rewrite Hw.
  assert (Hc : Pod.creatorId pod' = Pod.creatorId pod) by now destruct pod.
  set (st1 := advance_rng (set_pods (insert pid pod') st)).
  destruct (bool_decide_reflect (is_Some (users st !! Pod.creatorId pod))) as [Hu|Hu].
  - erewrite bindP_done; [reflexivity|].
    apply call_ok. change (clock (set_pods _ st)) with (clock st).
    change (rng_uuid (set_pods _ st) (rng_pos (set_pods _ st)))
      with (rng_uuid st (rng_pos st)).
    apply createNotification_ok. simpl. now rewrite Hc.
  - erewrite bindP_failed; [reflexivity|].
    apply call_err. unfold createNotification.
    rewrite bool_decide_eq_false_2; [reflexivity|]. simpl. now rewrite Hc.
Qed.

(** X1. [joinPod] is guarded and idempotent. It fails, the store
    unchanged, when the pod is missing or no longer WAITING. On a WAITING
    pod whose creator exists it succeeds and the user is a participant
    afterwards; a user who was already in gets the stored pod back and
    nothing changes; a new user is appended once, the creator notified
    once, and a second call changes nothing more. *)
Theorem X1_joinPod_guarded_idempotent pid uid name st :
  (pods st !! pid = None ->
   joinPod pid uid name st = (Failed (Base PodNotFound), st))
  /\ (forall pod,
        pods st !! pid = Some pod -> Pod.status pod <> WAITING ->
        joinPod pid uid name st = (Failed PodAlreadyStartedOrCompleted, st))
  /\ (forall pod,
        pods st !! pid = Some pod -> Pod.status pod = WAITING ->
        is_Some (users st !! Pod.creatorId pod) ->
        exists pod' st',
          joinPod pid uid name st = (Done pod', st')
          /\ pods st' !! pid = Some pod'
          /\ uid ∈ participant_ids pod'
          /\ (uid ∈ participant_ids pod -> pod' = pod /\ st' = st)
          /\ (uid ∉ participant_ids pod ->
              Pod.participants pod'
              = Pod.participants pod ++ [joiner uid name (clock st)]
              /\ notifications st' = notifications st ++ [join_note pod' name st])
          /\ forall name2, joinPod pid uid name2 st' = (Done pod', st')).
Proof.
  split; [|split].
  - intros Hp. rewrite joinPod_run. now rewrite Hp.
  - intros pod Hp Hs. rewrite joinPod_run, Hp. now rewrite bool_decide_eq_true_2.
  - intros pod Hp Hs Hu. rewrite joinPod_run, Hp.
    rewrite bool_decide_eq_false_2 by (rewrite Hs; auto).
    destruct (is_participant uid pod) eqn:Hin.
    + exists pod, st. apply is_participant_spec in Hin.
      split; [reflexivity|]. split; [exact Hp|]. split; [exact Hin|].
      split; [auto|]. split; [intros Hn; contradiction|].
      intros name2. rewrite joinPod_run, Hp.
      rewrite bool_decide_eq_false_2 by (rewrite Hs; auto).
      apply is_participant_spec in Hin. now rewrite Hin.
    + simpl. rewrite bool_decide_eq_true_2 by exact Hu.
      set (pod' := with_participants pod
                     (Pod.participants pod ++ [joiner uid name (clock st)])).
      assert (Hl : Pod.participants pod'
                   = Pod.participants pod ++ [joiner uid name (clock st)])
        by now destruct pod.
      assert (Hst : Pod.status pod' = WAITING) by now destruct pod.
      assert (Hin' : uid ∈ participant_ids pod').
      { unfold participant_ids. rewrite Hl, fmap_app, elem_of_app. right.
        apply list_elem_of_singleton. reflexivity. }
      eexists pod', _. split; [reflexivity|].
      split; [apply lookup_insert_eq|]. split; [exact Hin'|].
      split.
      { intros H. apply is_participant_spec in H. congruence. }
      split; [intros _; split; [exact Hl|reflexivity]|].
      intros name2. rewrite joinPod_run. simpl. rewrite lookup_insert_eq.
      rewrite bool_decide_eq_false_2 by (rewrite Hst; auto).
      apply is_participant_spec in Hin'. now rewrite Hin'.
Qed.

Lemma X1_joinPod_witness :
  joinPod "p1" "u3" "Carol" (store_with_pod ACTIVE)
    = (Failed PodAlreadyStartedOrCompleted, store_with_pod ACTIVE)
  /\ exists pod' st',
       joinPod "p1" "u3" "Carol" (store_with_pod WAITING) = (Done pod', st')
       /\ "u3" ∈ participant_ids pod'
       /\ length (Pod.participants pod') = 3%nat
       /\ joinPod "p1" "u3" "Carol" st' = (Done pod', st').
Proof.
  pose proof (X1_joinPod_guarded_idempotent "p1" "u3" "Carol" (store_with_pod ACTIVE))
    as (_ & Hguard & _).
  pose proof (X1_joinPod_guarded_idempotent "p1" "u3" "Carol" (store_with_pod WAITING))
    as (_ & _ & Hjoin).
  split.
  - apply (Hguard (pod1 ACTIVE)); [reflexivity|discriminate].
  - destruct (Hjoin (pod1 WAITING) eq_refl eq_refl) as (pod' & st' & E & _ & Hin & _ & Hnew & Hre).
    + exists alice. reflexivity.
    + exists pod', st'. split; [exact E|]. split; [exact Hin|]. split; [|apply Hre].
      destruct Hnew as [Hl _].
      * apply (bool_decide_unpack _). vm_compute. exact I.
      * rewrite Hl. reflexivity.
Defined.

(** ** [leavePod] and [updateParticipantAction] *)

Lemma leavePod_run pid uid st :
  leavePod pid uid st =
    match pods st !! pid with
    | None => (Failed (Base PodNotFound), st)
    | Some pod =>
        if bool_decide (Pod.creatorId pod = uid) then (Failed CreatorCannotLeave, st)
        else
          let pod' :=
            with_participants pod
              (List.filter (fun p => bool_decide (PodParticipant.userId p <> uid))
                           (Pod.participants pod)) in
          (Done pod', set_pods (insert pid pod') st)
    end.
Proof.
  unfold leavePod. erewrite bindP_done by (apply call_ok; reflexivity).
  destruct (pods st !! pid) as [pod|] eqn:Hp; [|reflexivity].
  destruct (bool_decide (Pod.creatorId pod = uid)); [reflexivity|].
  erewrite bindP_done by (apply call_ok; eapply updatePod_some; exact Hp).
  unfold retP. now destruct pod.
Qed.

Lemma updateParticipantAction_run pid uid action st :
  updateParticipantAction pid uid action st =
    match pods st !! pid with
    | None => (Failed (Base PodNotFound), st)
    | Some pod =>
        match findIndex (fun p => bool_decide (PodParticipant.userId p = uid))
                        (Pod.participants pod) with
        | None => (Failed ParticipantNotFound, st)
        | Some i =>
            let pod' :=
              with_participants pod
                (alter (record_action action) i (Pod.participants pod)) in
            (Done pod', set_pods (insert pid pod') st)
        end
    end.
Proof.
  unfold updateParticipantAction. erewrite bindP_done by (apply call_ok; reflexivity).
  destruct (pods st !! pid) as [pod|] eqn:Hp; [|reflexivity].
  destruct (findIndex _ _) as [i|]; [|reflexivity].
  erewrite bindP_done by (apply call_ok; eapply updatePod_some; exact Hp).
  unfold retP. now destruct pod.
Qed.

(** ** Well-formed participant lists *)

Lemma pod_wf_keys pod pod' :
  participant_key <$> Pod.participants pod' = participant_key <$> Pod.participants pod ->
  Pod.creatorId pod' = Pod.creatorId pod ->
  pod_wf pod -> pod_wf pod'.
Proof.
  intros Hk Hc [Hnd (c & rest & Hl & Hcu & Hcc & Hrest)].
  assert (Hids : participant_ids pod' = participant_ids pod).
  { unfold participant_ids.
    change PodParticipant.userId with (fst ∘ participant_key).
    rewrite !list_fmap_compose. now rewrite Hk. }
  split; [now rewrite Hids|].
  rewrite Hl in Hk. destruct (Pod.participants pod') as [|c' rest'] eqn:Hl'; [discriminate|].
  rewrite !fmap_cons in Hk. inversion Hk as [[Hu Hi Hr]].
  exists c', rest'. split; [reflexivity|]. split; [congruence|]. split; [congruence|].
  clear -Hr Hrest. revert rest Hr Hrest.
  induction rest' as [|q rest' IH]; intros rest Hr Hrest; [constructor|].
  destruct rest as [|q0 rest0]; [discriminate|].
  rewrite !fmap_cons in Hr. inversion Hr as [[Hu Hi Hr']].
  apply Forall_cons in Hrest as [Hq0 Hrest0].
  constructor; [congruence|]. exact (IH rest0 Hr' Hrest0).
Qed.

Lemma alter_keys (f : PodParticipant -> PodParticipant) i (l : list PodParticipant) :
  (forall q, participant_key (f q) = participant_key q) ->
  participant_key <$> alter f i l = participant_key <$> l.
Proof.
  intros Hf. revert i. induction l as [|a l IH]; intros [|i]; simpl; try reflexivity.
  - now rewrite Hf.
  - f_equal. apply IH.
Qed.

Lemma record_action_key action q :
  participant_key (record_action action q) = participant_key q.
Proof. reflexivity. Qed.

Lemma filter_ids_NoDup uid (l : list PodParticipant) :
  NoDup (PodParticipant.userId <$> l) ->
  NoDup (PodParticipant.userId <$>
           List.filter (fun p => bool_decide (PodParticipant.userId p <> uid)) l).
Proof.
  induction l as [|a l IH]; simpl; [auto|].
  rewrite NoDup_cons. intros [Ha Hnd].
  destruct (bool_decide (PodParticipant.userId a <> uid)); simpl; [|auto].
  apply NoDup_cons. split; [|auto].
  intros Hin. apply Ha. apply list_elem_of_fmap in Hin as (q & Hq & Hin).
  apply list_elem_of_In, List.filter_In in Hin as [Hin _].
  rewrite Hq. apply list_elem_of_fmap_2. now apply list_elem_of_In.
Qed.

Lemma pod_wf_join pod uid name now :
  uid ∉ participant_ids pod ->
  pod_wf pod ->
  pod_wf (with_participants pod (Pod.participants pod ++ [joiner uid name now])).
Proof.
  intros Hn [Hnd (c & rest & Hl & Hcu & Hcc & Hrest)].
  assert (Hp : Pod.participants
                 (with_participants pod (Pod.participants pod ++ [joiner uid name now]))
               = Pod.participants pod ++ [joiner uid name now]) by now destruct pod.
  assert (Hc : Pod.creatorId
                 (with_participants pod (Pod.participants pod ++ [joiner uid name now]))
               = Pod.creatorId pod) by now destruct pod.
  split.
  - unfold participant_ids in *. rewrite Hp, fmap_app. apply NoDup_app.
    split; [exact Hnd|]. split; [|apply NoDup_singleton].
    intros x Hx Hx'. apply list_elem_of_singleton in Hx'. simpl in Hx'. now subst x.
  - exists c, (rest ++ [joiner uid name now]). rewrite Hp, Hc, Hl.
    split; [reflexivity|]. split; [exact Hcu|]. split; [exact Hcc|].
    apply Forall_app. split; [exact Hrest|]. now repeat constructor.
Qed.

Lemma pod_wf_leave pod uid :
  Pod.creatorId pod <> uid ->
  pod_wf pod ->
  pod_wf (with_participants pod
            (List.filter (fun p => bool_decide (PodParticipant.userId p <> uid))
                         (Pod.participants pod))).
Proof.
  intros Hne [Hnd (c & rest & Hl & Hcu & Hcc & Hrest)].
  set (keep := fun p => bool_decide (PodParticipant.userId p <> uid)).
  assert (Hp : Pod.participants (with_participants pod (List.filter keep (Pod.participants pod)))
               = List.filter keep (Pod.participants pod)) by now destruct pod.
  assert (Hc : Pod.creatorId (with_participants pod (List.filter keep (Pod.participants pod)))
               = Pod.creatorId pod) by now destruct pod.
  split.
  - unfold participant_ids. rewrite Hp. now apply filter_ids_NoDup.
  - exists c, (List.filter keep rest). rewrite Hp, Hc, Hl. simpl.
    assert (Hk : keep c = true) by (apply bool_decide_eq_true; congruence).
    rewrite Hk. split; [reflexivity|]. split; [exact Hcu|]. split; [exact Hcc|].
    apply Forall_forall. intros q Hq.
    apply list_elem_of_In, List.filter_In in Hq as [Hq _].
    rewrite Forall_forall in Hrest. apply Hrest. now apply list_elem_of_In.
Qed.

(** ** What the notification loops leave alone *)

Lemma same_tables_refl st : same_tables st st.
Proof. repeat split. Qed.

Lemma same_tables_trans st1 st2 st3 :
  same_tables st1 st2 -> same_tables st2 st3 -> same_tables st1 st3.
Proof.
  intros (H1 & H2 & H3 & H4 & H5 & H6 & H7) (K1 & K2 & K3 & K4 & K5 & K6 & K7).
  repeat split; congruence.
Qed.

Lemma for_each_same_tables {A} (body : A -> M unit) (l : list A) :
  (forall x st, same_tables st (body x st).2) ->
  forall st, same_tables st (for_each l body st).2.
Proof.
  intros Hb. induction l as [|x l IH]; intros st; simpl; [apply same_tables_refl|].
  unfold bind. pose proof (Hb x st) as H1.
  destruct (body x st) as [[[]|e] st1]; simpl in *; [|exact H1].
  exact (same_tables_trans _ _ _ H1 (IH st1)).
Qed.

Lemma for_each_notify (mk : string -> PodParticipant -> Notification) (l : list PodParticipant) :
  (forall nid q, Notification.userId (mk nid q) = PodParticipant.userId q) ->
  forall st,
    all_users l st ->
    exists st',
      for_each l (fun q => nid <- randomUUID ;; createNotification (mk nid q) ;; ret tt) st
        = (Ok tt, st')
      /\ same_tables st st'
      /\ notifications st'
         = notifications st ++ notes_for mk (rng_uuid st) (rng_pos st) l
      /\ rng_pos st' = (rng_pos st + length l)%nat.
Proof.
  intros Hmk. induction l as [|q l IH]; intros st Hall; simpl.
  - exists st. rewrite app_nil_r, Nat.add_0_r. repeat split.
  - set (n := mk (rng_uuid st (rng_pos st)) q).
    set (st1 := set_notifications (fun ns => ns ++ [n]) (advance_rng st)).
    assert (E1 : (nid <- randomUUID ;; createNotification (mk nid q) ;; ret tt) st
                 = (Ok tt, st1)).
    { erewrite bind_ok by reflexivity.
      erewrite bind_ok; [reflexivity|].
      apply createNotification_ok. simpl. fold n. unfold n. rewrite Hmk.
      apply Hall. now left. }
    destruct (IH st1) as (st' & E & Ht & Hn & Hr).
    { intros q' Hq'. simpl. apply Hall. now right. }
    exists st'. split; [|split; [|split]].
    + erewrite bind_ok by exact E1. exact E.
    + apply (same_tables_trans _ st1); [repeat split|exact Ht].
    + rewrite Hn. simpl. now rewrite <- app_assoc.
    + rewrite Hr. simpl. lia.
Qed.

Lemma for_each_filter {A} (c : A -> bool) (body : A -> M unit) (l : list A) st :
  for_each l (fun x => if c x then body x else ret tt) st
  = for_each (List.filter c l) body st.
Proof.
  revert st. induction l as [|x l IH]; intros st; simpl; [reflexivity|].
  destruct (c x); simpl.
  - unfold bind. destruct (body x st) as [[[]|e] st1]; [apply IH|reflexivity].
  - unfold bind, ret. simpl. apply IH.
Qed.

(** ** [completePod] and [cancelPod] *)

Lemma completePod_guard pid st pod :
  pods st !! pid = Some pod -> Pod.status pod <> ACTIVE ->
  completePod pid st = (Err PodNotActive, st).
Proof.
  intros Hp Hs. unfold completePod.
  rewrite (bind_ok _ _ st (Some pod) st) by (unfold getPod; now rewrite Hp).
  rewrite (bind_ok _ _ st pod st) by reflexivity.
  now rewrite bool_decide_eq_true_2.
Qed.

Lemma completePod_missing pid st :
  pods st !! pid = None -> completePod pid st = (Err PodNotFound, st).
Proof.
  intros Hp. unfold completePod.
  rewrite (bind_ok _ _ st None st) by (unfold getPod; now rewrite Hp). reflexivity.
Qed.

Lemma completePod_active pid st pod :
  pods st !! pid = Some pod -> Pod.status pod = ACTIVE ->
  let pod' := fold_left apply_pod_update [SetStatus COMPLETED; SetPodEndTime (clock st)] pod in
  let st1 := set_pods (insert pid pod') st in
  completePod pid st =
    (let (r, st') :=
       for_each (Pod.participants pod)
         (fun q => nid <- randomUUID ;;
                   createNotification (completed_note pod (clock st) nid q) ;; ret tt) st1 in
     match r with
     | Ok _ => (Ok pod', st')
     | Err e => (Err e, st')
     end).
Proof.
  intros Hp Hs pod' st1. unfold completePod.
  rewrite (bind_ok _ _ st (Some pod) st) by (unfold getPod; now rewrite Hp).
  rewrite (bind_ok _ _ st pod st) by reflexivity.
  rewrite bool_decide_eq_false_2 by (rewrite Hs; auto).
  erewrite bind_ok by reflexivity.
  erewrite bind_ok by (eapply updatePod_some; exact Hp).
  rewrite (bind_ok _ _ _ pod' st1) by reflexivity.
  unfold bind at 1. fold pod' st1. unfold completed_note.
  destruct (for_each _ _ st1) as [[[]|e] st']; reflexivity.
Qed.

Lemma cancelPod_run pid st pod :
  pods st !! pid = Some pod ->
  let st1 := set_pods (insert pid (apply_pod_update pod (SetStatus CANCELLED))) st in
  cancelPod pid st =
    (let (r, st') :=
       for_each (guests pod)
         (fun q => nid <- randomUUID ;;
                   createNotification (cancelled_note pod (clock st) nid q) ;; ret tt) st1 in
     match r with
     | Ok _ => (Ok pod, st')
     | Err e => (Err e, st')
     end).
Proof.
  intros Hp st1. unfold cancelPod.
  rewrite (bind_ok _ _ st (Some pod) st) by (unfold getPod; now rewrite Hp).
  rewrite (bind_ok _ _ st pod st) by reflexivity.
  erewrite bind_ok by (eapply updatePod_some; exact Hp).
  erewrite bind_ok by reflexivity.
  unfold bind at 1. simpl fold_left. fold st1.
  change (clock st1) with (clock st).
  rewrite for_each_filter. fold (guests pod). unfold cancelled_note.
  destruct (for_each _ _ st1) as [[[]|e] st']; reflexivity.
Qed.

(** ** [startSession], once more *)

Lemma startSession_cases uid duration podId st :
  let s := new_session uid duration podId st in
  (exists e st', startSession uid duration podId st = (Err e, st')
                 /\ sessions st' = sessions st /\ pods st' = pods st
                 /\ clock st' = clock st /\ users st' = users st)
  \/ (exists st' u,
        startSession uid duration podId st = (Ok s, st')
        /\ users st !! uid = Some u
        /\ sessions st !! PomodoroSession.id s = None
        /\ ~ has_open_session uid st
        /\ sessions st' = <[PomodoroSession.id s := s]> (sessions st)
        /\ pods st' = pods st /\ clock st' = clock st
        /\ (if bool_decide (toDateString (User.lastActiveDate u) = toDateString (clock st))
            then users st' = users st
            else frame st' = frame (set_users (insert uid (streak_row u (clock st)))
                                      (set_sessions (insert (PomodoroSession.id s) s)
                                         (advance_rng st))))).
Proof.
  intros s. unfold startSession.
  erewrite bind_ok by reflexivity.
  destruct (List.find is_open _) eqn:Hf.
  { left. exists SessionAlreadyActive, st. repeat split. }
  apply find_open_none in Hf.
  erewrite bind_ok by reflexivity.
  destruct (users st !! uid) as [u|] eqn:Hu.
  2:{ left. exists UserNotFound, st. repeat split. }
  erewrite bind_ok by reflexivity.
  erewrite bind_ok by reflexivity.
  erewrite bind_ok by reflexivity.
  change (PomodoroSession.mk (rng_uuid st (rng_pos st)) uid (default 25 duration)
            (clock (advance_rng st)) None false None podId 0) with s.
  destruct (createSession_cases s (advance_rng st)) as [[E Hk]|E].
  - erewrite bind_ok by exact E.
    set (st1 := set_sessions _ _).
    assert (Hu1 : users st1 !! uid = Some u) by exact Hu.
    destruct (updateStreak_spec uid st1 u Hu1) as (st2 & E2 & H2).
    erewrite bind_ok by exact E2.
    right. exists st2, u. split; [reflexivity|]. split; [first [exact Hu|reflexivity]|].
    split; [exact Hk|]. split; [exact Hf|].
    change (clock st1) with (clock st) in H2.
    destruct (bool_decide _).
    + subst st2. repeat split.
    + destruct H2 as [F2 _]. split; [now rewrite (frame_sessions _ _ F2)|].
      split; [now rewrite (frame_pods _ _ F2)|].
      split; [now rewrite (frame_clock _ _ F2)|]. exact F2.
  - erewrite bind_err by exact E. left. exists DbConstraint, (advance_rng st). repeat split.
Qed.

Lemma startSession_keeps_pods uid duration podId st :
  pods (startSession uid duration podId st).2 = pods st
  /\ clock (startSession uid duration podId st).2 = clock st.
Proof.
  destruct (startSession_cases uid duration podId st)
    as [(e & st' & E & _ & Hp & Hc & _)|(st' & u & E & _ & _ & _ & _ & Hp & Hc & _)];
    rewrite E; auto.
Qed.

Lemma startSession_keeps_sessions uid duration podId st i s :
  sessions st !! i = Some s ->
  sessions (startSession uid duration podId st).2 !! i = Some s.
Proof.
  intros Hi.
  destruct (startSession_cases uid duration podId st)
    as [(e & st' & E & Hs & _)|(st' & u & E & _ & Hfree & _ & Hs & _)];
    rewrite E; simpl; rewrite Hs; [exact Hi|].
  rewrite lookup_insert_ne; [exact Hi|]. intros Heq. rewrite Heq in Hfree. congruence.
Qed.

Lemma has_open_session_mono uid st st' :
  (forall i s, sessions st !! i = Some s -> sessions st' !! i = Some s) ->
  has_open_session uid st -> has_open_session uid st'.
Proof. intros Hm (i & s & Hi & Hu & Ho). exists i, s. auto. Qed.

(** ** [startPod] *)

Lemma for_eachP_inv {A} (Q : Store -> Store -> Prop) (body : A -> P unit) (l : list A) :
  (forall st, Q st st) ->
  (forall a b c, Q a b -> Q b c -> Q a c) ->
  (forall x st, Q st (body x st).2) ->
  forall st, Q st (for_eachP l body st).2.
Proof.
  intros Hr Ht Hb. induction l as [|x l IH]; intros st; simpl; [apply Hr|].
  unfold bindP. pose proof (Hb x st) as H1.
  destruct (body x st) as [[[]|e] st1]; simpl in *; [|exact H1].
  exact (Ht _ _ _ H1 (IH st1)).
Qed.

Lemma grows_refl st : grows st st.
Proof. repeat split; auto. Qed.

Lemma grows_trans a b c : grows a b -> grows b c -> grows a c.
Proof.
  intros (H1 & H2 & H3) (K1 & K2 & K3). repeat split; try congruence. auto.
Qed.

Lemma start_body_grows pid dur q st :
  grows st
    ((_ <~ call (startSession (PodParticipant.userId q) (Some dur) (Some pid)) ;; retP tt) st).2.
Proof.
  unfold bindP, call.
  pose proof (startSession_keeps_pods (PodParticipant.userId q) (Some dur) (Some pid) st)
    as [Hp Hc].
  pose proof (startSession_keeps_sessions (PodParticipant.userId q) (Some dur) (Some pid) st)
    as Hs.
  destruct (startSession _ _ _ st) as [[s|e] st1]; simpl in *; repeat split; auto.
Qed.

Lemma start_all_done pid dur (l : list PodParticipant) :
  forall st st',
    for_eachP l
      (fun q => _ <~ call (startSession (PodParticipant.userId q) (Some dur) (Some pid)) ;;
                retP tt) st = (Done tt, st') ->
    grows st st'
    /\ NoDup (PodParticipant.userId <$> l)
    /\ forall q, q ∈ l ->
         ~ has_open_session (PodParticipant.userId q) st
         /\ in_pod_session (PodParticipant.userId q) pid dur (clock st) st'.
Proof.
  induction l as [|q l IH]; intros st st' E.
  - simpl in E. inversion E. subst. split; [apply grows_refl|]. split; [constructor|].
    intros q Hq. now apply elem_of_nil in Hq.
  - simpl in E. apply bindP_done_inv in E as ([] & st1 & E1 & E).
    apply bindP_done_inv in E1 as (s & st1' & E1 & Er). inversion Er. subst st1'. clear Er.
    unfold call in E1.
    destruct (startSession_cases (PodParticipant.userId q) (Some dur) (Some pid) st)
      as [(e & st0 & E0 & _)|(st0 & u & E0 & Hu & Hfree & Hnone & Hs & Hp & Hc & _)];
      rewrite E0 in E1; [discriminate|].
    inversion E1. subst s st0. clear E1.
    set (s := new_session (PodParticipant.userId q) (Some dur) (Some pid) st) in *.
    destruct (IH st1 st' E) as (Hg & Hnd & Hall).
    assert (Hg1 : grows st st1).
    { repeat split; auto. intros i t Hi. rewrite Hs, lookup_insert_ne; [exact Hi|].
      intros Heq. rewrite Heq in Hfree. congruence. }
    assert (Hopen1 : has_open_session (PodParticipant.userId q) st1).
    { exists (PomodoroSession.id s), s. rewrite Hs, lookup_insert_eq. repeat split. }
    split; [exact (grows_trans _ _ _ Hg1 Hg)|]. split.
    + rewrite fmap_cons. apply NoDup_cons. split; [|exact Hnd].
      intros Hin. apply list_elem_of_fmap in Hin as (q' & Hq' & Hin).
      destruct (Hall q' Hin) as [Hno _]. apply Hno. now rewrite <- Hq'.
    + intros q' Hq'. apply elem_of_cons in Hq' as [->|Hq'].
      * split; [exact Hnone|].
        exists (PomodoroSession.id s), s.
        destruct Hg as (_ & _ & Hm). split; [apply Hm; rewrite Hs; apply lookup_insert_eq|].
        repeat split.
      * destruct (Hall q' Hq') as [Hno Hin]. split.
        -- intros Ho. apply Hno. destruct Hg1 as (_ & _ & Hm).
           exact (has_open_session_mono _ _ _ Hm Ho).
        -- destruct Hg1 as (_ & Hc1 & _). now rewrite <- Hc1.
Qed.

Lemma started_note_same_tables (pod : Pod) q st :
  same_tables st
    ((if bool_decide (PodParticipant.userId q <> Pod.creatorId pod)
      then
        nid <~ call randomUUID ;;
        now <~ call Date_now ;;
        _ <~ call (createNotification
                     (Notification.mk nid (PodParticipant.userId q) POD_STARTED
                        ("Pod " +:+ dquote +:+ Pod.title pod +:+ dquote
                           +:+ " начался! Фокусируемся "
                           +:+ pretty (Pod.duration pod) +:+ " минут 🎯")
                        now false)) ;;
        retP tt
      else retP tt) st).2.
Proof.
  destruct (bool_decide _); [|apply same_tables_refl].
  unfold bindP, call, randomUUID, Date_now, createNotification, retP. simpl.
  destruct (bool_decide _); simpl; repeat split.
Qed.

Lemma startPod_run pid st pod :
  pods st !! pid = Some pod -> Pod.status pod = WAITING ->
  let st1 := set_pods (insert pid (started_pod pod (clock st))) st in
  match for_eachP (Pod.participants pod)
          (fun q => _ <~ call (startSession (PodParticipant.userId q)
                                 (Some (Pod.duration pod)) (Some pid)) ;;
                    retP tt) st1 with
  | (Failed e, st2) => startPod pid st = (Failed e, st2)
  | (Done _, st2) =>
      exists r st3,
        startPod pid st = (r, st3) /\ same_tables st2 st3
        /\ (r = Done pod \/ exists e, r = Failed e)
  end.
Proof.
  intros Hp Hs st1.
  assert (Heq : exists k : unit -> P Pod,
             startPod pid st
             = bindP (for_eachP (Pod.participants pod)
                        (fun q => _ <~ call (startSession (PodParticipant.userId q)
                                               (Some (Pod.duration pod)) (Some pid)) ;;
                                  retP tt)) k st1
             /\ forall u st2, exists r st3,
                   k u st2 = (r, st3) /\ same_tables st2 st3
                   /\ (r = Done pod \/ exists e, r = Failed e)).
  { eexists. split.
    - unfold startPod.
      erewrite bindP_done by (apply call_ok; unfold getPod; now rewrite Hp).
      cbv beta iota.
      rewrite bool_decide_eq_false_2 by (rewrite Hs; auto).
      erewrite bindP_done by (apply call_ok; reflexivity).
      erewrite bindP_done by (apply call_ok; eapply updatePod_some; exact Hp).
      fold (started_pod pod (clock st)). fold st1. reflexivity.
    - intros u st2. simpl.
      pose proof (for_eachP_inv same_tables _ (Pod.participants pod)
                    same_tables_refl same_tables_trans
                    (fun q st => started_note_same_tables pod q st) st2) as Ht.
      unfold bindP at 1.
      destruct (for_eachP (Pod.participants pod) _ st2) as [[[]|e] st3]; simpl in Ht.
      + exists (Done pod), st3. split; [reflexivity|]. split; [exact Ht|now left].
      + exists (Failed e), st3. split; [reflexivity|]. split; [exact Ht|right; now exists e]. }
  destruct Heq as (k & Heq & Hk). rewrite Heq.
  destruct (for_eachP (Pod.participants pod) _ st1) as [[u|e] st2] eqn:E1.
  - erewrite bindP_done by exact E1. apply Hk.
  - erewrite bindP_failed by exact E1. reflexivity.
Qed.

Lemma startPod_guards pid st :
  (pods st !! pid = None -> startPod pid st = (Failed (Base PodNotFound), st))
  /\ (forall pod, pods st !! pid = Some pod -> Pod.status pod <> WAITING ->
                  startPod pid st = (Failed PodAlreadyStarted, st)).
Proof.
  split.
  - intros Hp. unfold startPod.
    erewrite bindP_done by (apply call_ok; unfold getPod; now rewrite Hp). reflexivity.
  - intros pod Hp Hs. unfold startPod.
    erewrite bindP_done by (apply call_ok; unfold getPod; now rewrite Hp).
    cbv beta iota. now rewrite bool_decide_eq_true_2.
Qed.

Lemma started_pod_fields pod now :
  Pod.status (started_pod pod now) = ACTIVE
  /\ Pod.startTime (started_pod pod now) = Some now
  /\ Pod.endTime (started_pod pod now) = Some (now + Pod.duration pod * 60 * 1000)
  /\ Pod.participants (started_pod pod now) = Pod.participants pod
  /\ Pod.creatorId (started_pod pod now) = Pod.creatorId pod
  /\ Pod.inviteCode (started_pod pod now) = Pod.inviteCode pod.
Proof. now destruct pod. Qed.

(** X2. When [startPod] succeeds, the pod was WAITING and is stored as
    ACTIVE with [endTime = startTime + duration] minutes, the participants
    are pairwise distinct, none of them had an open session before, and
    each of them now has an open session tagged with the pod, of the pod's
    duration, started at the same instant. The pod returned is the one
    read before the update: its status still says WAITING. *)
Theorem X2_startPod_fans_out pid st pod st' :
  startPod pid st = (Done pod, st') ->
  pods st !! pid = Some pod
  /\ Pod.status pod = WAITING
  /\ pods st' !! pid = Some (started_pod pod (clock st))
  /\ Pod.status (started_pod pod (clock st)) = ACTIVE
  /\ Pod.endTime (started_pod pod (clock st))
     = Some (clock st + Pod.duration pod * 60 * 1000)
  /\ NoDup (participant_ids pod)
  /\ forall q, q ∈ Pod.participants pod ->
       ~ has_open_session (PodParticipant.userId q) st
       /\ in_pod_session (PodParticipant.userId q) pid (Pod.duration pod) (clock st) st'.
Proof.
  intros E. destruct (startPod_guards pid st) as [Hmiss Hguard].
  destruct (pods st !! pid) as [p|] eqn:Hp.
  2:{ rewrite (Hmiss eq_refl) in E. discriminate. }
  destruct (decide (Pod.status p = WAITING)) as [Hs|Hs].
  2:{ rewrite (Hguard p eq_refl Hs) in E. discriminate. }
  pose proof (startPod_run pid st p Hp Hs) as Hrun. simpl in Hrun.
  destruct (for_eachP (Pod.participants p) _ _) as [[[]|e] st2] eqn:E1.
  2:{ rewrite Hrun in E. discriminate. }
  destruct Hrun as (r & st3 & E3 & Ht & _). rewrite E3 in E. inversion E. subst r st3.
  clear E.
  assert (Hpod : p = pod).
  { unfold startPod in E3.
    erewrite bindP_done in E3 by (apply call_ok; unfold getPod; now rewrite Hp).
    cbv beta iota in E3.
    rewrite bool_decide_eq_false_2 in E3 by (rewrite Hs; auto).
    repeat (apply bindP_done_inv in E3 as (? & ? & _ & E3)).
    now inversion E3. }
  subst p.
  destruct (start_all_done _ _ _ _ _ E1) as ((Hpods & Hclock & Hmono) & Hnd & Hall).
  destruct Ht as (_ & Hses & Hpods' & _).
  destruct (started_pod_fields pod (clock st)) as (F1 & _ & F3 & _).
  split; [reflexivity|]. split; [exact Hs|].
  split; [rewrite Hpods', Hpods; apply lookup_insert_eq|].
  split; [exact F1|]. split; [exact F3|]. split; [exact Hnd|].
  intros q Hq. destruct (Hall q Hq) as [Hno (i & s & Hi & Hrest)]. split; [exact Hno|].
  exists i, s. rewrite Hses. split; [exact Hi|exact Hrest].
Qed.

Lemma X2_startPod_witness :
  exists st',
    startPod "p1" (store_with_pod WAITING) = (Done (pod1 WAITING), st')
    /\ (Pod.status <$> pods st' !! "p1") = Some ACTIVE
    /\ in_pod_session "u1" "p1" 25 (clock store0) st'
    /\ in_pod_session "u2" "p1" 25 (clock store0) st'.
Proof.
  destruct (startPod "p1" (store_with_pod WAITING)) as [r st'] eqn:E.
  assert (Hr : (startPod "p1" (store_with_pod WAITING)).1 = Done (pod1 WAITING))
    by (vm_compute; reflexivity).
  rewrite E in Hr. simpl in Hr. subst r. exists st'. split; [reflexivity|].
  destruct (X2_startPod_fans_out _ _ _ _ E) as (_ & _ & Hp & Hs & _ & _ & Hall).
  split; [rewrite Hp; reflexivity|].
  split.
  - apply (Hall (PodParticipant.mk "u1" "Alice" (10 * DAY) true None None)).
    apply list_elem_of_here.
  - apply (Hall (PodParticipant.mk "u2" "Bob" (10 * DAY) false None None)).
    apply list_elem_of_further, list_elem_of_here.
Defined.

(** X3. [startPod] is not atomic. If a participant of a WAITING pod
    already has an open session, [startPod] fails, yet the pod is left
    stored as ACTIVE; a second [startPod] is then refused as already
    started and [joinPod] as well. *)
Theorem X3_startPod_not_atomic pid st pod q :
  pods st !! pid = Some pod ->
  Pod.status pod = WAITING ->
  q ∈ Pod.participants pod ->
  has_open_session (PodParticipant.userId q) st ->
  exists e st',
    startPod pid st = (Failed e, st')
    /\ pods st' !! pid = Some (started_pod pod (clock st))
    /\ Pod.status (started_pod pod (clock st)) = ACTIVE
    /\ startPod pid st' = (Failed PodAlreadyStarted, st')
    /\ forall uid name,
         joinPod pid uid name st' = (Failed PodAlreadyStartedOrCompleted, st').
Proof.
  intros Hp Hs Hq Hopen.
  pose proof (startPod_run pid st pod Hp Hs) as Hrun. simpl in Hrun.
  set (st1 := set_pods (insert pid (started_pod pod (clock st))) st) in *.
  destruct (started_pod_fields pod (clock st)) as (F1 & _).
  assert (Hfin : forall e st',
             startPod pid st = (Failed e, st') -> pods st' = pods st1 ->
             exists e st',
               startPod pid st = (Failed e, st')
               /\ pods st' !! pid = Some (started_pod pod (clock st))
               /\ Pod.status (started_pod pod (clock st)) = ACTIVE
               /\ startPod pid st' = (Failed PodAlreadyStarted, st')
               /\ forall uid name,
                    joinPod pid uid name st' = (Failed PodAlreadyStartedOrCompleted, st')).
  { intros e st' E Hpods.
    assert (Hl : pods st' !! pid = Some (started_pod pod (clock st)))
      by (rewrite Hpods; apply lookup_insert_eq).
    exists e, st'. split; [exact E|]. split; [exact Hl|]. split; [exact F1|]. split.
    - apply (proj2 (startPod_guards pid st') _ Hl). rewrite F1. discriminate.
    - intros uid name. rewrite joinPod_run, Hl.
      rewrite bool_decide_eq_true_2; [reflexivity|]. rewrite F1. discriminate. }
  destruct (for_eachP (Pod.participants pod) _ st1) as [[[]|e] st2] eqn:E1.
  - exfalso. destruct (start_all_done _ _ _ _ _ E1) as (_ & _ & Hall).
    destruct (Hall q Hq) as [Hno _]. apply Hno.
    destruct Hopen as (i & s & Hi & Hrest). exists i, s. split; [exact Hi|exact Hrest].
  - pose proof (for_eachP_inv grows
                  (fun q => _ <~ call (startSession (PodParticipant.userId q)
                                         (Some (Pod.duration pod)) (Some pid)) ;;
                            retP tt)
                  (Pod.participants pod) grows_refl grows_trans
                  (fun x st => start_body_grows pid (Pod.duration pod) x st) st1) as Hg.
    rewrite E1 in Hg. destruct Hg as (Hpods & _).
    exact (Hfin e st2 Hrun Hpods).
Qed.

Lemma X3_startPod_not_atomic_witness :
  exists e st',
    startPod "p1" (set_pods (insert "p1" (pod1 WAITING)) (store_running 5))
      = (Failed e, st')
    /\ (Pod.status <$> pods st' !! "p1") = Some ACTIVE.
Proof.
  destruct (X3_startPod_not_atomic "p1"
              (set_pods (insert "p1" (pod1 WAITING)) (store_running 5)) (pod1 WAITING)
              (PodParticipant.mk "u1" "Alice" (10 * DAY) true None None))
    as (e & st' & E & Hp & Hs & _).
  - reflexivity.
  - reflexivity.
  - apply list_elem_of_here.
  - exists "s1", session1. repeat split; reflexivity.
  - exists e, st'. split; [exact E|]. rewrite Hp. reflexivity.
Defined.

(** ** The pods after each operation *)

Lemma pods_wf_same st st' : pods st' = pods st -> pods_wf st -> pods_wf st'.
Proof. unfold pods_wf. intros ->. auto. Qed.

Lemma pods_wf_insert st st' pid pod :
  pods st' = <[pid := pod]> (pods st) -> pod_wf pod -> pods_wf st -> pods_wf st'.
Proof.
  intros Hp Hw Hinv k p Hk. rewrite Hp in Hk.
  apply lookup_insert_Some in Hk as [[_ <-]|[_ Hk]]; [exact Hw|exact (Hinv k p Hk)].
Qed.

Lemma new_pod_wf bot creatorId creatorName duration title st :
  pod_wf (new_pod bot creatorId creatorName duration title st).
Proof.
  split.
  - unfold participant_ids. simpl. apply NoDup_singleton.
  - eexists _, []. simpl. repeat split. constructor.
Qed.

Lemma createPod_pods_wf bot creatorId creatorName duration title st :
  pods_wf st -> pods_wf (createPod bot creatorId creatorName duration title st).2.
Proof.
  intros Hinv.
  pose proof (createPod_run bot creatorId creatorName duration title st) as H. simpl in H.
  destruct (_ && _).
  - destruct H as (st' & E & Hp). rewrite E. simpl.
    exact (pods_wf_insert _ _ _ _ Hp (new_pod_wf _ _ _ _ _ _) Hinv).
  - rewrite H. exact Hinv.
Qed.

Lemma joinPod_pods_wf pid uid name st :
  pods_wf st -> pods_wf (joinPod pid uid name st).2.
Proof.
  intros Hinv. rewrite joinPod_run.
  destruct (pods st !! pid) as [pod|] eqn:Hp; [|exact Hinv].
  destruct (bool_decide (Pod.status pod <> WAITING)); [exact Hinv|].
  destruct (is_participant uid pod) eqn:Hin; [exact Hinv|].
  assert (Hn : uid ∉ participant_ids pod).
  { intros H. apply is_participant_spec in H. congruence. }
  pose proof (pod_wf_join pod uid name (clock st) Hn (Hinv pid pod Hp)) as Hw.
  simpl. destruct (bool_decide _); simpl;
    refine (pods_wf_insert st _ pid _ _ Hw Hinv); reflexivity.
Qed.

Lemma leavePod_pods_wf pid uid st :
  pods_wf st -> pods_wf (leavePod pid uid st).2.
Proof.
  intros Hinv. rewrite leavePod_run.
  destruct (pods st !! pid) as [pod|] eqn:Hp; [|exact Hinv].
  destruct (bool_decide_reflect (Pod.creatorId pod = uid)) as [He|Hne]; [exact Hinv|].
  refine (pods_wf_insert st _ pid _ _ (pod_wf_leave pod uid Hne (Hinv pid pod Hp)) Hinv).
  reflexivity.
Qed.

Lemma updateParticipantAction_pods_wf pid uid action st :
  pods_wf st -> pods_wf (updateParticipantAction pid uid action st).2.
Proof.
  intros Hinv. rewrite updateParticipantAction_run.
  destruct (pods st !! pid) as [pod|] eqn:Hp; [|exact Hinv].
  destruct (findIndex _ _) as [i|]; [|exact Hinv].
  refine (pods_wf_insert st _ pid _ _ _ Hinv); [reflexivity|].
  apply (pod_wf_keys pod); [| now destruct pod | exact (Hinv pid pod Hp)].
  assert (Hl : Pod.participants
                 (with_participants pod (alter (record_action action) i (Pod.participants pod)))
               = alter (record_action action) i (Pod.participants pod)) by now destruct pod.
  rewrite Hl. apply alter_keys. intros q. apply record_action_key.
Qed.

Lemma pod_wf_status pod upds :
  Forall (fun u => match u with SetParticipants _ => False | _ => True end) upds ->
  pod_wf pod -> pod_wf (fold_left apply_pod_update upds pod).
Proof.
  intros Hu. revert pod. induction Hu as [|u upds Hu _ IH]; intros pod Hw; [exact Hw|].
  simpl. apply IH. apply (pod_wf_keys pod); [| |exact Hw]; destruct pod, u; try reflexivity;
    contradiction.
Qed.

Lemma note_body_same_tables (mk : string -> PodParticipant -> Notification) q st :
  same_tables st ((nid <- randomUUID ;; createNotification (mk nid q) ;; ret tt) st).2.
Proof.
  erewrite bind_ok by reflexivity.
  unfold bind, createNotification. destruct (bool_decide _); simpl; repeat split.
Qed.

Lemma completePod_pods_wf pid st : pods_wf st -> pods_wf (completePod pid st).2.
Proof.
  intros Hinv. destruct (pods st !! pid) as [pod|] eqn:Hp.
  2:{ now rewrite (completePod_missing _ _ Hp). }
  destruct (decide (Pod.status pod = ACTIVE)) as [Hs|Hs].
  2:{ now rewrite (completePod_guard _ _ _ Hp Hs). }
  rewrite (completePod_active _ _ _ Hp Hs).
  set (st1 := set_pods _ st).
  pose proof (for_each_same_tables
                (fun q => nid <- randomUUID ;;
                          createNotification (completed_note pod (clock st) nid q) ;; ret tt)
                (Pod.participants pod)) as Ht.
  assert (Hw1 : pods_wf st1).
  { refine (pods_wf_insert st st1 pid _ eq_refl _ Hinv).
    apply pod_wf_status; [repeat constructor|exact (Hinv pid pod Hp)]. }
  specialize (Ht (fun q st => note_body_same_tables _ q st) st1).
  destruct (for_each _ _ st1) as [[[]|e] st']; simpl in *;
    destruct Ht as (_ & _ & Hpods & _); exact (pods_wf_same _ _ Hpods Hw1).
Qed.

Lemma cancelPod_pods_wf pid st : pods_wf st -> pods_wf (cancelPod pid st).2.
Proof.
  intros Hinv. destruct (pods st !! pid) as [pod|] eqn:Hp.
  2:{ unfold cancelPod.
      rewrite (bind_ok _ _ st None st) by (unfold getPod; now rewrite Hp). exact Hinv. }
  rewrite (cancelPod_run _ _ _ Hp).
  set (st1 := set_pods _ st).
  pose proof (for_each_same_tables
                (fun q => nid <- randomUUID ;;
                          createNotification (cancelled_note pod (clock st) nid q) ;; ret tt)
                (guests pod)) as Ht.
  assert (Hw1 : pods_wf st1).
  { refine (pods_wf_insert st st1 pid _ eq_refl _ Hinv).
    apply (pod_wf_status pod [SetStatus CANCELLED]);
      [repeat constructor|exact (Hinv pid pod Hp)]. }
  specialize (Ht (fun q st => note_body_same_tables _ q st) st1).
  destruct (for_each _ _ st1) as [[[]|e] st']; simpl in *;
    destruct Ht as (_ & _ & Hpods & _); exact (pods_wf_same _ _ Hpods Hw1).
Qed.

Lemma startPod_pods pid st :
  pods (startPod pid st).2 = pods st
  \/ exists pod, pods st !! pid = Some pod
                 /\ pods (startPod pid st).2 = <[pid := started_pod pod (clock st)]> (pods st).
Proof.
  destruct (startPod_guards pid st) as [Hmiss Hguard].
  destruct (pods st !! pid) as [pod|] eqn:Hp.
  2:{ left. now rewrite (Hmiss eq_refl). }
  destruct (decide (Pod.status pod = WAITING)) as [Hs|Hs].
  2:{ left. now rewrite (Hguard pod eq_refl Hs). }
  right. exists pod. split; [reflexivity|].
  pose proof (startPod_run pid st pod Hp Hs) as Hrun. simpl in Hrun.
  pose proof (for_eachP_inv grows
                (fun q => _ <~ call (startSession (PodParticipant.userId q)
                                       (Some (Pod.duration pod)) (Some pid)) ;;
                          retP tt)
                (Pod.participants pod) grows_refl grows_trans
                (fun x st => start_body_grows pid (Pod.duration pod) x st)
                (set_pods (insert pid (started_pod pod (clock st))) st)) as Hg.
  destruct (for_eachP (Pod.participants pod) _ _) as [[[]|e] st2]; simpl in Hg;
    destruct Hg as (Hpods & _).
  - destruct Hrun as (r & st3 & E & (_ & _ & Hp3 & _) & _). rewrite E. simpl.
    now rewrite Hp3, Hpods.
  - rewrite Hrun. simpl. exact Hpods.
Qed.

Lemma startPod_pods_wf pid st : pods_wf st -> pods_wf (startPod pid st).2.
Proof.
  intros Hinv. destruct (startPod_pods pid st) as [Hp|(pod & Hl & Hp)].
  - exact (pods_wf_same _ _ Hp Hinv).
  - refine (pods_wf_insert _ _ _ _ Hp _ Hinv).
    apply pod_wf_status; [repeat constructor|exact (Hinv pid pod Hl)].
Qed.

(** X4. Every operation of the pod coordinator keeps the participant
    lists well formed, whether it succeeds or fails: in every stored pod
    the creator comes first and is the only participant flagged as
    creator, and no user occurs twice. *)
Theorem X4_pods_stay_well_formed st :
  pods_wf st ->
  (forall bot creatorId creatorName duration title,
     pods_wf (createPod bot creatorId creatorName duration title st).2)
  /\ (forall pid uid name, pods_wf (joinPod pid uid name st).2)
  /\ (forall pid, pods_wf (startPod pid st).2)
  /\ (forall pid, pods_wf (completePod pid st).2)
  /\ (forall pid uid action, pods_wf (updateParticipantAction pid uid action st).2)
  /\ (forall pid, pods_wf (cancelPod pid st).2)
  /\ (forall pid uid, pods_wf (leavePod pid uid st).2).
Proof.
  intros Hinv. repeat match goal with |- _ /\ _ => split end; intros.
  - now apply createPod_pods_wf.
  - now apply joinPod_pods_wf.
  - now apply startPod_pods_wf.
  - now apply completePod_pods_wf.
  - now apply updateParticipantAction_pods_wf.
  - now apply cancelPod_pods_wf.
  - now apply leavePod_pods_wf.
Qed.

Lemma store_with_pod_wf status : pods_wf (store_with_pod status).
Proof.
  intros k p H. unfold store_with_pod in H. simpl in H.
  apply lookup_insert_Some in H as [[_ <-]|[_ H]]; [|now rewrite lookup_empty in H].
  split.
  - apply (bool_decide_unpack _). vm_compute. exact I.
  - eexists _, [_]. simpl. repeat split. repeat constructor.
Qed.

Lemma X4_pods_stay_well_formed_witness :
  pods_wf (store_with_pod WAITING)
  /\ pods_wf (joinPod "p1" "u3" "Carol" (store_with_pod WAITING)).2
  /\ pods_wf (leavePod "p1" "u2" (store_with_pod WAITING)).2
  /\ pods_wf (startPod "p1" (store_with_pod WAITING)).2.
Proof.
  pose proof (X4_pods_stay_well_formed (store_with_pod WAITING) (store_with_pod_wf WAITING))
    as (_ & Hjoin & Hstart & _ & _ & _ & Hleave).
  split; [apply store_with_pod_wf|].
  split; [apply Hjoin|]. split; [apply Hleave|apply Hstart].
Defined.

(** ** Closing a pod *)

Lemma all_users_set_pods f l st : all_users l st -> all_users l (set_pods f st).
Proof. intros H q Hq. exact (H q Hq). Qed.

Lemma notes_for_users (mk : string -> PodParticipant -> Notification) gen k l :
  (forall nid q, Notification.userId (mk nid q) = PodParticipant.userId q) ->
  Notification.userId <$> notes_for mk gen k l = PodParticipant.userId <$> l.
Proof.
  intros Hmk. revert k. induction l as [|q l IH]; intros k; simpl; [reflexivity|].
  now rewrite Hmk, IH.
Qed.

(** X5. [completePod] refuses a pod that is not ACTIVE and changes
    nothing.  On an ACTIVE pod whose participants are stored users it
    writes COMPLETED and the current time as end time, keeps the
    participant list, sends one POD_COMPLETED notification to every
    participant in list order (the creator included), and touches no
    session, user or statistics row: the sessions the pod opened stay as
    they were.  A second call is refused. *)
Theorem X5_completePod_closes_the_pod_only pid st pod :
  pods st !! pid = Some pod ->
  (Pod.status pod <> ACTIVE -> completePod pid st = (Err PodNotActive, st))
  /\ (Pod.status pod = ACTIVE ->
      all_users (Pod.participants pod) st ->
      exists pod' st',
        completePod pid st = (Ok pod', st')
        /\ pods st' = <[pid := pod']> (pods st)
        /\ Pod.status pod' = COMPLETED
        /\ Pod.endTime pod' = Some (clock st)
        /\ Pod.participants pod' = Pod.participants pod
        /\ sessions st' = sessions st
        /\ users st' = users st
        /\ user_stats st' = user_stats st
        /\ notifications st'
           = notifications st
               ++ notes_for (completed_note pod (clock st)) (rng_uuid st) (rng_pos st)
                    (Pod.participants pod)
        /\ completePod pid st' = (Err PodNotActive, st')).
Proof.
  intros Hp. split; [intros Hs; exact (completePod_guard _ _ _ Hp Hs)|].
  intros Hs Hall.
  rewrite (completePod_active _ _ _ Hp Hs).
  set (pod' := fold_left apply_pod_update _ pod).
  set (st1 := set_pods _ st).
  destruct (for_each_notify (completed_note pod (clock st)) (Pod.participants pod)
              (fun _ _ => eq_refl) st1 (all_users_set_pods _ _ _ Hall))
    as (st' & E & (Hu & Hss & Hpods & Hst & _) & Hn & _).
  exists pod', st'. rewrite E.
  split; [reflexivity|]. split; [exact Hpods|].
  split; [now destruct pod|]. split; [now destruct pod|]. split; [now destruct pod|].
  split; [exact Hss|]. split; [exact Hu|]. split; [exact Hst|]. split; [exact Hn|].
  apply (completePod_guard pid st' pod').
  - rewrite Hpods. simpl. apply lookup_insert_eq.
  - now destruct pod.
Qed.

Lemma X5_completePod_witness :
  completePod "p1" (store_with_pod WAITING) = (Err PodNotActive, store_with_pod WAITING)
  /\ exists pod' st',
       completePod "p1" (store_with_pod ACTIVE) = (Ok pod', st')
       /\ Pod.status pod' = COMPLETED
       /\ length (notifications st') = 2%nat
       /\ sessions st' = sessions (store_with_pod ACTIVE).
Proof.
  split.
  - apply (X5_completePod_closes_the_pod_only "p1" (store_with_pod WAITING) (pod1 WAITING));
      [reflexivity|discriminate].
  - destruct (X5_completePod_closes_the_pod_only "p1" (store_with_pod ACTIVE) (pod1 ACTIVE)
                eq_refl) as [_ H].
    destruct (H eq_refl) as (pod' & st' & E & _ & Hs & _ & _ & Hss & _ & _ & Hn & _).
    + intros q Hq. apply list_elem_of_In in Hq. simpl in Hq.
      destruct Hq as [<-|[<-|[]]]; [exists alice|exists bob]; reflexivity.
    + exists pod', st'. split; [exact E|]. split; [exact Hs|]. split; [|exact Hss].
      rewrite Hn. reflexivity.
Defined.

(** X6. [cancelPod] has no status guard: whatever the status of the pod,
    it stores CANCELLED, and it returns the pod as it was read, with the
    old status.  Only the participants other than the creator are
    notified, in list order, and no session is touched: sessions the pod
    opened stay open. *)
Theorem X6_cancelPod_returns_the_stale_pod pid st pod :
  pods st !! pid = Some pod ->
  all_users (guests pod) st ->
  exists st',
    cancelPod pid st = (Ok pod, st')
    /\ (Pod.status <$> pods st' !! pid) = Some CANCELLED
    /\ (forall k, k <> pid -> pods st' !! k = pods st !! k)
    /\ sessions st' = sessions st
    /\ users st' = users st
    /\ notifications st'
       = notifications st
           ++ notes_for (cancelled_note pod (clock st)) (rng_uuid st) (rng_pos st) (guests pod)
    /\ Pod.creatorId pod
         ∉ Notification.userId
             <$> notes_for (cancelled_note pod (clock st)) (rng_uuid st) (rng_pos st)
                   (guests pod).
Proof.
  intros Hp Hall.
  rewrite (cancelPod_run _ _ _ Hp).
  set (st1 := set_pods _ st).
  destruct (for_each_notify (cancelled_note pod (clock st)) (guests pod)
              (fun _ _ => eq_refl) st1 (all_users_set_pods _ _ _ Hall))
    as (st' & E & (Hu & Hss & Hpods & _) & Hn & _).
  exists st'. rewrite E.
  split; [reflexivity|].
  split. { rewrite Hpods. simpl. rewrite lookup_insert_eq. now destruct pod. }
  split. { intros k Hk. rewrite Hpods. simpl. now apply lookup_insert_ne. }
  split; [exact Hss|]. split; [exact Hu|]. split; [exact Hn|].
  rewrite (notes_for_users (cancelled_note pod (clock st)) _ _ _ (fun _ _ => eq_refl)).
  intros Hin. apply list_elem_of_fmap in Hin as (q & Hq & Hin).
  apply list_elem_of_In, List.filter_In in Hin as [_ Hin].
  apply bool_decide_eq_true in Hin. congruence.
Qed.

Lemma X6_cancelPod_witness :
  exists st',
    cancelPod "p1" (store_with_pod ACTIVE) = (Ok (pod1 ACTIVE), st')
    /\ (Pod.status <$> pods st' !! "p1") = Some CANCELLED
    /\ (Notification.userId <$> notifications st') = ["u2"].
Proof.
  destruct (X6_cancelPod_returns_the_stale_pod "p1" (store_with_pod ACTIVE) (pod1 ACTIVE)
              eq_refl) as (st' & E & Hs & _ & _ & _ & Hn & _).
  - intros q Hq. apply list_elem_of_In in Hq. simpl in Hq.
    destruct Hq as [<-|[]]. exists bob. reflexivity.
  - exists st'. split; [exact E|]. split; [exact Hs|]. rewrite Hn. reflexivity.
Defined.

(** ** Leaving a pod and reporting an action *)

Lemma set_pods_insert_twice pid pod st :
  set_pods (insert pid pod) (set_pods (insert pid pod) st) = set_pods (insert pid pod) st.
Proof. destruct st. unfold set_pods. simpl. f_equal. apply insert_insert_eq. Qed.

Lemma set_pods_insert_id pid pod st :
  pods st !! pid = Some pod -> set_pods (insert pid pod) st = st.
Proof. destruct st. unfold set_pods. simpl. intros H. f_equal. now apply insert_id. Qed.

Lemma filter_filter_same {A} (p : A -> bool) (l : list A) :
  List.filter p (List.filter p l) = List.filter p l.
Proof.
  induction l as [|a l IH]; simpl; [reflexivity|].
  destruct (p a) eqn:Hpa; simpl; [rewrite Hpa; now f_equal|exact IH].
Qed.

Lemma filter_all {A} (p : A -> bool) (l : list A) :
  (forall x, x ∈ l -> p x = true) -> List.filter p l = l.
Proof.
  induction l as [|a l IH]; intros H; simpl; [reflexivity|].
  rewrite (H a (list_elem_of_here _ _)). f_equal. apply IH. intros x Hx. apply H. now right.
Qed.

Lemma with_participants_same pod : with_participants pod (Pod.participants pod) = pod.
Proof. now destruct pod. Qed.

(** X7. [leavePod] refuses the creator and changes nothing.  For anyone
    else it removes exactly the participants with that user id, whatever
    the status of the pod; it closes no session and sends no
    notification.  Leaving again gives the same pod and the same store,
    and leaving a pod one is not in succeeds without changing the store. *)
Theorem X7_leavePod_removes_only_the_leaver pid uid st pod :
  pods st !! pid = Some pod ->
  (Pod.creatorId pod = uid -> leavePod pid uid st = (Failed CreatorCannotLeave, st))
  /\ (Pod.creatorId pod <> uid ->
      exists pod' st',
        leavePod pid uid st = (Done pod', st')
        /\ pods st' = <[pid := pod']> (pods st)
        /\ (forall q, q ∈ Pod.participants pod'
                      <-> q ∈ Pod.participants pod /\ PodParticipant.userId q <> uid)
        /\ Pod.status pod' = Pod.status pod
        /\ sessions st' = sessions st
        /\ notifications st' = notifications st
        /\ leavePod pid uid st' = (Done pod', st')
        /\ (uid ∉ participant_ids pod -> pod' = pod /\ st' = st)).
Proof.
  intros Hp. split.
  - intros Hc. rewrite leavePod_run, Hp. now rewrite bool_decide_eq_true_2.
  - intros Hc. rewrite leavePod_run, Hp. rewrite bool_decide_eq_false_2 by exact Hc.
    set (keep := fun p => bool_decide (PodParticipant.userId p <> uid)).
    set (pod' := with_participants pod (List.filter keep (Pod.participants pod))).
    assert (Hl : Pod.participants pod' = List.filter keep (Pod.participants pod))
      by now destruct pod.
    assert (Hcr : Pod.creatorId pod' = Pod.creatorId pod) by now destruct pod.
    exists pod', (set_pods (insert pid pod') st).
    split; [reflexivity|]. split; [reflexivity|].
    split.
    { intros q. rewrite Hl, !list_elem_of_In, List.filter_In. unfold keep.
      now rewrite bool_decide_eq_true. }
    split; [now destruct pod|]. split; [reflexivity|]. split; [reflexivity|].
    split.
    { rewrite leavePod_run. simpl. rewrite lookup_insert_eq.
      rewrite bool_decide_eq_false_2 by congruence.
      fold keep. rewrite Hl, filter_filter_same, <- Hl, with_participants_same.
      now rewrite set_pods_insert_twice. }
    intros Hn.
    assert (Hsame : pod' = pod).
    { unfold pod'. rewrite filter_all; [apply with_participants_same|].
      intros x Hx. apply bool_decide_eq_true. intros He. apply Hn.
      rewrite <- He. now apply list_elem_of_fmap_2. }
    split; [exact Hsame|]. rewrite Hsame. now apply set_pods_insert_id.
Qed.

Lemma X7_leavePod_witness :
  leavePod "p1" "u1" (store_with_pod ACTIVE) = (Failed CreatorCannotLeave, store_with_pod ACTIVE)
  /\ exists pod' st',
       leavePod "p1" "u2" (store_with_pod ACTIVE) = (Done pod', st')
       /\ Pod.status pod' = ACTIVE
       /\ leavePod "p1" "u2" st' = (Done pod', st').
Proof.
  split.
  - apply (X7_leavePod_removes_only_the_leaver "p1" "u1" (store_with_pod ACTIVE) (pod1 ACTIVE));
      reflexivity.
  - destruct (X7_leavePod_removes_only_the_leaver "p1" "u2" (store_with_pod ACTIVE)
                (pod1 ACTIVE) eq_refl) as [_ H].
    destruct H as (pod' & st' & E & _ & _ & Hs & _ & _ & Hre & _); [discriminate|].
    exists pod', st'. split; [exact E|]. split; [exact Hs|exact Hre].
Defined.

Lemma findIndex_find {A} (p : A -> bool) (l : list A) :
  match findIndex p l with
  | Some i => exists x, l !! i = Some x /\ List.find p l = Some x
  | None => List.find p l = None
  end.
Proof.
  induction l as [|a l IH]; simpl; [reflexivity|].
  destruct (p a); [now exists a|].
  destruct (findIndex p l) as [i|]; simpl; exact IH.
Qed.

Lemma find_alter_hit {A} (p : A -> bool) (f : A -> A) (l : list A) i x :
  (forall y, p (f y) = p y) ->
  findIndex p l = Some i -> l !! i = Some x ->
  findIndex p (alter f i l) = Some i /\ List.find p (alter f i l) = Some (f x).
Proof.
  intros Hf. revert i. induction l as [|a l IH]; intros i; simpl; [discriminate|].
  destruct (p a) eqn:Hpa.
  - intros [= <-] [= <-]. simpl. now rewrite Hf, Hpa.
  - destruct (findIndex p l) as [k|] eqn:Hk; simpl; [|discriminate].
    intros [= <-] Hx. simpl in *. rewrite Hpa.
    destruct (IH k eq_refl Hx) as [H1 H2]. unfold alter in H1, H2.
    rewrite H1, H2. now split.
Qed.

Lemma find_alter_miss {A} (p : A -> bool) (f : A -> A) (l : list A) i x :
  l !! i = Some x -> p x = false -> p (f x) = false ->
  List.find p (alter f i l) = List.find p l.
Proof.
  revert i. induction l as [|a l IH]; intros [|i]; simpl; try discriminate.
  - intros [= ->] H1 H2. now rewrite H1, H2.
  - intros Hx H1 H2. destruct (p a); [reflexivity|]. now apply (IH i).
Qed.

Lemma find_participant_None uid (l : list PodParticipant) :
  List.find (fun p => bool_decide (PodParticipant.userId p = uid)) l = None
  <-> uid ∉ PodParticipant.userId <$> l.
Proof.
  induction l as [|a l IH]; simpl.
  - split; [intros _ H; now apply elem_of_nil in H|reflexivity].
  - rewrite not_elem_of_cons. destruct (bool_decide_reflect (PodParticipant.userId a = uid)).
    + split; [discriminate|]. intros [H _]. congruence.
    + rewrite IH. split; [intros H; split; [congruence|exact H]|now intros [_ H]].
Qed.

(** X8. [updateParticipantAction] fails with 'Participant not found',
    changing nothing, exactly when no participant has the user id.
    Otherwise it records the action on the first participant with that id
    and on no other, for a pod in any status, and keeps the ids of the
    list.  The completion flag is only ever set: once COMPLETED was
    reported, a later report of another action replaces the action but
    leaves the flag set. *)
Theorem X8_updateParticipantAction_records_on_one pid uid action st pod :
  pods st !! pid = Some pod ->
  (participant_of uid pod = None <-> uid ∉ participant_ids pod)
  /\ (participant_of uid pod = None ->
      updateParticipantAction pid uid action st = (Failed ParticipantNotFound, st))
  /\ (forall q,
        participant_of uid pod = Some q ->
        exists pod' st',
          updateParticipantAction pid uid action st = (Done pod', st')
          /\ pods st' = <[pid := pod']> (pods st)
          /\ participant_of uid pod' = Some (record_action action q)
          /\ (forall other, other <> uid -> participant_of other pod' = participant_of other pod)
          /\ participant_ids pod' = participant_ids pod
          /\ Pod.status pod' = Pod.status pod
          /\ forall action2,
               exists pod'' st'',
                 updateParticipantAction pid uid action2 st' = (Done pod'', st'')
                 /\ participant_of uid pod''
                    = Some (record_action action2 (record_action action q))
                 /\ (action = TA_COMPLETED ->
                     PodParticipant.taskCompleted
                       (record_action action2 (record_action action q)) = Some true)).
Proof.
  intros Hp. split; [apply find_participant_None|].
  set (p := fun x => bool_decide (PodParticipant.userId x = uid)).
  pose proof (findIndex_find p (Pod.participants pod)) as Hfi.
  split.
  - intros Hn. rewrite updateParticipantAction_run, Hp. fold p.
    destruct (findIndex p (Pod.participants pod)) as [i|]; [|reflexivity].
    destruct Hfi as (x & _ & Hx). unfold participant_of in Hn. fold p in Hn. congruence.
  - intros q Hq. unfold participant_of in Hq. fold p in Hq.
    rewrite updateParticipantAction_run, Hp. fold p.
    destruct (findIndex p (Pod.participants pod)) as [i|] eqn:Hi; [|congruence].
    destruct Hfi as (x & Hx & Hfx). assert (x = q) by congruence. subst x.
    assert (Hkeep : forall a y, p (record_action a y) = p y) by reflexivity.
    set (l' := alter (record_action action) i (Pod.participants pod)).
    set (pod' := with_participants pod l').
    assert (Hl : Pod.participants pod' = l') by now destruct pod.
    destruct (find_alter_hit p (record_action action) _ i q (Hkeep action) Hi Hx)
      as [Hi' Hf'].
    fold l' in Hi', Hf'.
    exists pod', (set_pods (insert pid pod') st).
    split; [reflexivity|]. split; [reflexivity|].
    split. { unfold participant_of. now rewrite Hl. }
    split.
    { intros other Hne. unfold participant_of. rewrite Hl.
      assert (Hu : PodParticipant.userId q = uid).
      { apply List.find_some in Hfx as [_ Hfx]. now apply bool_decide_eq_true in Hfx. }
      apply (find_alter_miss _ _ _ i q Hx); apply bool_decide_eq_false; simpl; congruence. }
    split.
    { unfold participant_ids. rewrite Hl.
      change PodParticipant.userId with (fst ∘ participant_key).
      rewrite !list_fmap_compose. f_equal. apply alter_keys. intros y. reflexivity. }
    split; [now destruct pod|].
    intros action2. rewrite updateParticipantAction_run. simpl. rewrite lookup_insert_eq.
    fold p. rewrite Hl, Hi'.
    assert (Hx' : l' !! i = Some (record_action action q)).
    { unfold l'. rewrite list_lookup_alter_eq, Hx. reflexivity. }
    destruct (find_alter_hit p (record_action action2) _ i _ (Hkeep action2) Hi' Hx')
      as [_ Hf''].
    eexists _, _. split; [reflexivity|]. split.
    + unfold participant_of.
      match goal with
      | |- List.find _ (Pod.participants (with_participants _ ?l)) = _ =>
          assert (E : Pod.participants (with_participants pod' l) = l) by now destruct pod
      end.
      rewrite E. exact Hf''.
    + intros ->. simpl. now destruct (bool_decide (action2 = TA_COMPLETED)).
Qed.

Lemma X8_updateParticipantAction_witness :
  updateParticipantAction "p1" "u3" TA_SKIPPED (store_with_pod COMPLETED)
    = (Failed ParticipantNotFound, store_with_pod COMPLETED)
  /\ exists pod' st' pod'' st'',
       updateParticipantAction "p1" "u2" TA_COMPLETED (store_with_pod COMPLETED)
         = (Done pod', st')
       /\ updateParticipantAction "p1" "u2" TA_POSTPONED st' = (Done pod'', st'')
       /\ (PodParticipant.taskAction <$> participant_of "u2" pod'') = Some (Some TA_POSTPONED)
       /\ (PodParticipant.taskCompleted <$> participant_of "u2" pod'') = Some (Some true).
Proof.
  pose proof (X8_updateParticipantAction_records_on_one "p1" "u3" TA_SKIPPED
                (store_with_pod COMPLETED) (pod1 COMPLETED) eq_refl) as (_ & Hnone & _).
  pose proof (X8_updateParticipantAction_records_on_one "p1" "u2" TA_COMPLETED
                (store_with_pod COMPLETED) (pod1 COMPLETED) eq_refl) as (_ & _ & Hsome).
  split; [apply Hnone; reflexivity|].
  destruct (Hsome _ eq_refl) as (pod' & st' & E & _ & _ & _ & _ & _ & Hnext).
  destruct (Hnext TA_POSTPONED) as (pod'' & st'' & E2 & Hq & _).
  exists pod', st', pod'', st''. split; [exact E|]. split; [exact E2|].
  rewrite Hq. split; reflexivity.
Defined.

(** ** The pod table under the operations *)

Lemma same_identity_refl p : same_identity p p.
Proof. repeat split. Qed.

Lemma same_identity_updates upds p : same_identity p (fold_left apply_pod_update upds p).
Proof.
  revert p. induction upds as [|u upds IH]; intros p; simpl; [apply same_identity_refl|].
  destruct (IH (apply_pod_update p u)) as (H1 & H2 & H3 & H4 & H5 & H6 & H7).
  destruct p, u; simpl in *; repeat split; assumption.
Qed.

Lemma pods_step_update st st' pid p upds :
  pods st !! pid = Some p ->
  pods st' = <[pid := fold_left apply_pod_update upds p]> (pods st) ->
  pods_step st st'.
Proof.
  intros Hp E. right. left. exists pid, p, (fold_left apply_pod_update upds p).
  split; [exact Hp|]. split; [apply same_identity_updates|exact E].
Qed.

Lemma pods_step_same_tables st st1 st' :
  pods_step st st1 -> same_tables st1 st' -> pods_step st st'.
Proof.
  intros H (_ & _ & Hp & _). unfold pods_step. rewrite Hp. exact H.
Qed.

Lemma createPod_pods_step bot creatorId creatorName duration title st :
  pods_step st (createPod bot creatorId creatorName duration title st).2.
Proof.
  pose proof (createPod_run bot creatorId creatorName duration title st) as H. simpl in H.
  destruct (_ && _) eqn:Hc.
  - destruct H as (st' & E & Hp). rewrite E. simpl.
    apply andb_true_iff in Hc as [Hc _]. apply andb_true_iff in Hc as [Hfree Hcode].
    apply bool_decide_eq_true in Hfree, Hcode.
    right. right. exists (new_pod bot creatorId creatorName duration title st).
    split; [exact Hfree|]. split; [exact Hcode|exact Hp].
  - rewrite H. now left.
Qed.

Lemma joinPod_pods_step pid uid name st : pods_step st (joinPod pid uid name st).2.
Proof.
  rewrite joinPod_run.
  destruct (pods st !! pid) as [pod|] eqn:Hp; [|now left].
  destruct (bool_decide (Pod.status pod <> WAITING)); [now left|].
  destruct (is_participant uid pod); [now left|].
  simpl. destruct (bool_decide _); simpl;
    refine (pods_step_update st _ pid pod [SetParticipants _] Hp _); reflexivity.
Qed.

Lemma startPod_pods_step pid st : pods_step st (startPod pid st).2.
Proof.
  destruct (startPod_pods pid st) as [Hp|(pod & Hl & Hp)]; [now left|].
  exact (pods_step_update st _ pid pod _ Hl Hp).
Qed.

Lemma completePod_pods_step pid st : pods_step st (completePod pid st).2.
Proof.
  destruct (pods st !! pid) as [pod|] eqn:Hp.
  2:{ rewrite (completePod_missing _ _ Hp). now left. }
  destruct (decide (Pod.status pod = ACTIVE)) as [Hs|Hs].
  2:{ rewrite (completePod_guard _ _ _ Hp Hs). now left. }
  rewrite (completePod_active _ _ _ Hp Hs).
  set (st1 := set_pods _ st).
  pose proof (for_each_same_tables _ (Pod.participants pod)
                (fun q s => note_body_same_tables (completed_note pod (clock st)) q s)
                st1) as Ht.
  assert (H1 : pods_step st st1) by exact (pods_step_update st st1 pid pod _ Hp eq_refl).
  destruct (for_each _ _ st1) as [[[]|e] st']; simpl in *;
    exact (pods_step_same_tables _ _ _ H1 Ht).
Qed.

Lemma cancelPod_pods_step pid st : pods_step st (cancelPod pid st).2.
Proof.
  destruct (pods st !! pid) as [pod|] eqn:Hp.
  2:{ unfold cancelPod.
      rewrite (bind_ok _ _ st None st) by (unfold getPod; now rewrite Hp). now left. }
  rewrite (cancelPod_run _ _ _ Hp).
  set (st1 := set_pods _ st).
  pose proof (for_each_same_tables _ (guests pod)
                (fun q s => note_body_same_tables (cancelled_note pod (clock st)) q s)
                st1) as Ht.
  assert (H1 : pods_step st st1)
    by exact (pods_step_update st st1 pid pod [SetStatus CANCELLED] Hp eq_refl).
  destruct (for_each _ _ st1) as [[[]|e] st']; simpl in *;
    exact (pods_step_same_tables _ _ _ H1 Ht).
Qed.

Lemma updateParticipantAction_pods_step pid uid action st :
  pods_step st (updateParticipantAction pid uid action st).2.
Proof.
  rewrite updateParticipantAction_run.
  destruct (pods st !! pid) as [pod|] eqn:Hp; [|now left].
  destruct (findIndex _ _) as [i|]; [|now left].
  refine (pods_step_update st _ pid pod [SetParticipants _] Hp _); reflexivity.
Qed.

Lemma leavePod_pods_step pid uid st : pods_step st (leavePod pid uid st).2.
Proof.
  rewrite leavePod_run.
  destruct (pods st !! pid) as [pod|] eqn:Hp; [|now left].
  destruct (bool_decide (Pod.creatorId pod = uid)); [now left|].
  refine (pods_step_update st _ pid pod [SetParticipants _] Hp _); reflexivity.
Qed.

Lemma run_pod_call_step c st : pods_step st (run_pod_call c st).
Proof.
  destruct c; simpl.
  - apply createPod_pods_step.
  - apply joinPod_pods_step.
  - apply startPod_pods_step.
  - apply completePod_pods_step.
  - apply updateParticipantAction_pods_step.
  - apply cancelPod_pods_step.
  - apply leavePod_pods_step.
Qed.

(** X9. No operation of the pod coordinator deletes a pod or changes the
    id, invite code, creator, title, duration, share link or creation
    time of a stored pod, whether the operation returns or throws. *)
Theorem X9_pods_are_never_deleted c st : pods_kept st (run_pod_call c st).
Proof.
  intros k p Hk.
  destruct (run_pod_call_step c st) as [E|[(pid & p0 & p' & Hp & Hid & E)|(p' & Hfree & _ & E)]];
    rewrite E.
  - exists p. split; [exact Hk|apply same_identity_refl].
  - destruct (decide (k = pid)) as [->|Hne].
    + exists p'. rewrite lookup_insert_eq. split; [reflexivity|]. congruence.
    + exists p. rewrite lookup_insert_ne by congruence.
      split; [exact Hk|apply same_identity_refl].
  - exists p. rewrite lookup_insert_ne by congruence.
    split; [exact Hk|apply same_identity_refl].
Qed.

(** X10. The schema of the pod table is kept by every operation of the
    pod coordinator, whether it returns or throws: rows stay stored
    under their own id, and no two rows ever share an invite code. *)
Theorem X10_pod_table_stays_consistent c st :
  pods_keyed st -> codes_unique st ->
  pods_keyed (run_pod_call c st) /\ codes_unique (run_pod_call c st).
Proof.
  intros Hkey Huni.
  destruct (run_pod_call_step c st) as [E|[(pid & p0 & p' & Hp & Hid & E)|(p' & Hfree & Hcode & E)]].
  - split; [intros k p|intros k1 k2 p1 p2]; rewrite E; [apply Hkey|apply Huni].
  - destruct Hid as (Hi & Hc & _). split.
    + intros k p. rewrite E. intros Hk.
      apply lookup_insert_Some in Hk as [[<- <-]|[_ Hk]]; [|exact (Hkey k p Hk)].
      rewrite Hi. exact (Hkey _ _ Hp).
    + intros k1 k2 p1 p2. rewrite E. intros H1 H2 Heq.
      apply lookup_insert_Some in H1 as [[<- <-]|[Hn1 H1]];
        apply lookup_insert_Some in H2 as [[<- <-]|[Hn2 H2]].
      * reflexivity.
      * apply (Huni _ _ p0 p2 Hp H2). congruence.
      * apply (Huni _ _ p1 p0 H1 Hp). congruence.
      * exact (Huni _ _ _ _ H1 H2 Heq).
  - split.
    + intros k p. rewrite E. intros Hk.
      apply lookup_insert_Some in Hk as [[<- <-]|[_ Hk]]; [reflexivity|exact (Hkey k p Hk)].
    + intros k1 k2 p1 p2. rewrite E. intros H1 H2 Heq.
      apply lookup_insert_Some in H1 as [[<- <-]|[Hn1 H1]];
        apply lookup_insert_Some in H2 as [[<- <-]|[Hn2 H2]].
      * reflexivity.
      * exfalso. apply Hcode. exists k2, p2. split; [exact H2|]. now symmetry.
      * exfalso. apply Hcode. exists k1, p1. split; [exact H1|exact Heq].
      * exact (Huni _ _ _ _ H1 H2 Heq).
Qed.

Lemma store_with_pod_keyed status :
  pods_keyed (store_with_pod status) /\ codes_unique (store_with_pod status).
Proof.
  split.
  - intros k p H. unfold store_with_pod in H. simpl in H.
    apply lookup_insert_Some in H as [[<- <-]|[_ H]]; [reflexivity|].
    now rewrite lookup_empty in H.
  - intros k1 k2 p1 p2 H1 H2 _. unfold store_with_pod in H1, H2. simpl in H1, H2.
    apply lookup_insert_Some in H1 as [[<- _]|[_ H1]]; [|now rewrite lookup_empty in H1].
    apply lookup_insert_Some in H2 as [[<- _]|[_ H2]]; [|now rewrite lookup_empty in H2].
    reflexivity.
Qed.

Lemma X10_pod_table_witness :
  codes_unique (run_pod_call (CreatePod "focus_bot" "u3" "Carol" 25 None)
                  (store_with_pod WAITING))
  /\ pods_keyed (run_pod_call (CancelPod "p1") (store_with_pod WAITING)).
Proof.
  destruct (store_with_pod_keyed WAITING) as [Hk Hu].
  split.
  - apply (X10_pod_table_stays_consistent _ _ Hk Hu).
  - apply (X10_pod_table_stays_consistent _ _ Hk Hu).
Defined.

(** ** Looking pods up *)

Lemma find_None_iff {A} (f : A -> bool) (l : list A) :
  List.find f l = None <-> forall x, x ∈ l -> f x = false.
Proof.
  split.
  - intros H x Hx. apply (List.find_none f l H). now apply list_elem_of_In.
  - induction l as [|a l IH]; intros H; simpl; [reflexivity|].
    rewrite (H a (list_elem_of_here _ _)). apply IH. intros x Hx. apply H. now right.
Qed.

Lemma find_Some_elem {A} (f : A -> bool) (l : list A) x :
  List.find f l = Some x -> x ∈ l /\ f x = true.
Proof. intros H. apply List.find_some in H as [H1 H2]. now rewrite list_elem_of_In. Qed.

Lemma elem_of_rows {V} (m : gmap string V) (v : V) :
  v ∈ (map_to_list m).*2 <-> exists k, m !! k = Some v.
Proof.
  rewrite list_elem_of_fmap. split.
  - intros ([k v'] & -> & H). exists k. now apply elem_of_map_to_list in H.
  - intros (k & H). exists (k, v). split; [reflexivity|now apply elem_of_map_to_list].
Qed.

(** X11. [findPodByInviteCode] reads only.  It returns nothing exactly
    when no stored pod carries the code, and any pod it returns is stored
    and carries the code; where invite codes are unique it returns the
    pod that carries the code.  The code [createPod] hands out finds the
    pod it created. *)
Theorem X11_invite_code_finds_the_pod code st :
  (exists r, findPodByInviteCode code st = (Ok r, st)
             /\ (r = None <-> ~ invite_code_taken code (pods st))
             /\ (forall p, r = Some p ->
                           exists k, pods st !! k = Some p /\ Pod.inviteCode p = code))
  /\ (forall k p, codes_unique st -> pods st !! k = Some p -> Pod.inviteCode p = code ->
                  findPodByInviteCode code st = (Ok (Some p), st))
  /\ (forall bot creatorId creatorName duration title pod st',
        createPod bot creatorId creatorName duration title st = (Ok (pod, code), st') ->
        findPodByInviteCode code st' = (Ok (Some pod), st')).
Proof.
  set (f := fun p => bool_decide (Pod.inviteCode p = code)).
  assert (Hrun : forall s, findPodByInviteCode code s
                           = (Ok (List.find f (map_to_list (pods s)).*2), s)) by reflexivity.
  assert (Hsound : forall s p, List.find f (map_to_list (pods s)).*2 = Some p ->
                               exists k, pods s !! k = Some p /\ Pod.inviteCode p = code).
  { intros s p H. apply find_Some_elem in H as [Hin Hf].
    apply elem_of_rows in Hin as (k & Hk). exists k. split; [exact Hk|].
    now apply bool_decide_eq_true in Hf. }
  assert (Hnone : forall s, List.find f (map_to_list (pods s)).*2 = None
                            <-> ~ invite_code_taken code (pods s)).
  { intros s. rewrite find_None_iff. split.
    - intros H (k & p & Hk & Hc). simpl in Hc.
      assert (Hin : p ∈ (map_to_list (pods s)).*2) by (apply elem_of_rows; now exists k).
      specialize (H p Hin). apply bool_decide_eq_false in H. contradiction.
    - intros H p Hin. apply bool_decide_eq_false. intros Hc.
      apply elem_of_rows in Hin as (k & Hk). apply H. now exists k, p. }
  split; [|split].
  - eexists. split; [apply Hrun|]. split; [apply Hnone|apply Hsound].
  - intros k p Huni Hk Hc. rewrite Hrun. f_equal. f_equal.
    destruct (List.find f (map_to_list (pods st)).*2) as [p'|] eqn:E.
    + destruct (Hsound st p' E) as (k' & Hk' & Hc').
      assert (k' = k) by (apply (Huni _ _ _ _ Hk' Hk); congruence). subst k'. congruence.
    + exfalso. apply (proj1 (Hnone st) E). now exists k, p.
  - intros bot creatorId creatorName duration title pod st' E.
    pose proof (createPod_run bot creatorId creatorName duration title st) as H. simpl in H.
    destruct (_ && _) eqn:Hc; [|rewrite H in E; discriminate].
    destruct H as (st1 & E1 & Hp). rewrite E1 in E. inversion E. subst.
    apply andb_true_iff in Hc as [Hc _]. apply andb_true_iff in Hc as [_ Hcode].
    apply bool_decide_eq_true in Hcode.
    rewrite Hrun. f_equal. f_equal.
    destruct (List.find _ (map_to_list (pods st')).*2) as [p'|] eqn:E2.
    + destruct (Hsound st' p' E2) as (k' & Hk' & Hc'). rewrite Hp in Hk'.
      apply lookup_insert_Some in Hk' as [[_ <-]|[_ Hk']]; [reflexivity|].
      exfalso. apply Hcode. now exists k', p'.
    + exfalso. apply (proj1 (Hnone st') E2).
      exists (drawn_pod_id st), (new_pod bot creatorId creatorName duration title st).
      split; [rewrite Hp; apply lookup_insert_eq|reflexivity].
Qed.

Lemma X11_invite_code_witness :
  findPodByInviteCode "0000002A" (store_with_pod WAITING)
    = (Ok (Some (pod1 WAITING)), store_with_pod WAITING).
Proof.
  destruct (X11_invite_code_finds_the_pod "0000002A" (store_with_pod WAITING))
    as (_ & H & _).
  apply (H "p1" (pod1 WAITING)); [apply store_with_pod_keyed|reflexivity|reflexivity].
Defined.

(** X12. [getUserActivePod] and [getUserWaitingPod] read only.  A pod
    they return is stored, has the user among its participants and is
    WAITING or ACTIVE (WAITING for [getUserWaitingPod]); they return
    nothing exactly when there is no such pod.  After a successful
    [joinPod] the user has a waiting pod, and a user with a waiting pod
    has an active-or-waiting one. *)
Theorem X12_user_pod_lookups uid st :
  (exists r, getUserActivePod uid st = (Ok r, st)
             /\ (forall p, r = Some p ->
                           (exists k, pods st !! k = Some p)
                           /\ (Pod.status p = ACTIVE \/ Pod.status p = WAITING)
                           /\ uid ∈ participant_ids p)
             /\ (r = None <->
                 forall k p, pods st !! k = Some p -> uid ∈ participant_ids p ->
                             Pod.status p <> ACTIVE /\ Pod.status p <> WAITING))
  /\ (exists r, getUserWaitingPod uid st = (Ok r, st)
                /\ (forall p, r = Some p ->
                              (exists k, pods st !! k = Some p)
                              /\ Pod.status p = WAITING /\ uid ∈ participant_ids p)
                /\ (r = None <->
                    forall k p, pods st !! k = Some p -> uid ∈ participant_ids p ->
                                Pod.status p <> WAITING))
  /\ ((getUserWaitingPod uid st).1 <> Ok None -> (getUserActivePod uid st).1 <> Ok None)
  /\ (forall pid name pod st',
        joinPod pid uid name st = (Done pod, st') ->
        (getUserWaitingPod uid st').1 <> Ok None).
Proof.
  set (fa := fun pod => (bool_decide (Pod.status pod = ACTIVE)
                         || bool_decide (Pod.status pod = WAITING))
                        && is_participant uid pod).
  set (fw := fun pod => bool_decide (Pod.status pod = WAITING) && is_participant uid pod).
  assert (Ha : forall s, getUserActivePod uid s
                         = (Ok (List.find fa (map_to_list (pods s)).*2), s)) by reflexivity.
  assert (Hw : forall s, getUserWaitingPod uid s
                         = (Ok (List.find fw (map_to_list (pods s)).*2), s)) by reflexivity.
  assert (Hfa : forall p, fa p = true <->
                          (Pod.status p = ACTIVE \/ Pod.status p = WAITING)
                          /\ uid ∈ participant_ids p).
  { intros p. unfold fa. rewrite andb_true_iff, orb_true_iff, !bool_decide_eq_true.
    now rewrite is_participant_spec. }
  assert (Hfw : forall p, fw p = true <-> Pod.status p = WAITING /\ uid ∈ participant_ids p).
  { intros p. unfold fw. rewrite andb_true_iff, bool_decide_eq_true.
    now rewrite is_participant_spec. }
  assert (Hwn : forall s, List.find fw (map_to_list (pods s)).*2 = None <->
                          forall k p, pods s !! k = Some p -> uid ∈ participant_ids p ->
                                      Pod.status p <> WAITING).
  { intros s. rewrite find_None_iff. split.
    - intros H k p Hk Hin Hs.
      assert (Hf : fw p = true) by now apply Hfw.
      rewrite H in Hf; [discriminate|]. apply elem_of_rows. now exists k.
    - intros H p Hin. apply elem_of_rows in Hin as (k & Hk).
      destruct (fw p) eqn:Hf; [|reflexivity].
      apply Hfw in Hf as [Hs Hu]. now destruct (H k p Hk Hu). }
  assert (Han : forall s, List.find fa (map_to_list (pods s)).*2 = None <->
                          forall k p, pods s !! k = Some p -> uid ∈ participant_ids p ->
                                      Pod.status p <> ACTIVE /\ Pod.status p <> WAITING).
  { intros s. rewrite find_None_iff. split.
    - intros H k p Hk Hin.
      assert (Hf : fa p = false) by (apply H, elem_of_rows; now exists k).
      split; intros Hs; rewrite (proj2 (Hfa p)) in Hf; try discriminate; tauto.
    - intros H p Hin. apply elem_of_rows in Hin as (k & Hk).
      destruct (fa p) eqn:Hf; [|reflexivity].
      apply Hfa in Hf as [Hs Hu]. destruct (H k p Hk Hu). tauto. }
  split; [|split; [|split]].
  - eexists. split; [apply Ha|]. split; [|apply Han].
    intros p E. apply find_Some_elem in E as [Hin Hf].
    apply Hfa in Hf as [Hs Hu]. split; [now apply elem_of_rows|]. now split.
  - eexists. split; [apply Hw|]. split; [|apply Hwn].
    intros p E. apply find_Some_elem in E as [Hin Hf].
    apply Hfw in Hf as [Hs Hu]. split; [now apply elem_of_rows|]. now split.
  - rewrite Ha, Hw. simpl. intros H1 H2. apply H1. f_equal.
    inversion H2 as [H3]. rewrite H3. apply Hwn. intros k p Hk Hu.
    exact (proj2 (proj1 (Han st) H3 k p Hk Hu)).
  - intros pid name pod st' E. rewrite Hw. simpl. intros H. inversion H as [H1].
    pose proof (proj1 (Hwn st') H1) as Hno. clear H H1.
    rewrite joinPod_run in E.
    destruct (pods st !! pid) as [pod0|] eqn:Hp; [|discriminate].
    destruct (bool_decide_reflect (Pod.status pod0 <> WAITING)) as [|Hs]; [discriminate|].
    assert (Hs' : Pod.status pod0 = WAITING).
    { destruct (decide (Pod.status pod0 = WAITING)) as [Hd|Hd]; [exact Hd|now destruct Hs]. }
    destruct (is_participant uid pod0) eqn:Hin.
    + inversion E. subst. apply (Hno pid pod Hp); [|exact Hs'].
      now apply is_participant_spec.
    + simpl in E. destruct (bool_decide _); [|discriminate].
      inversion E as [[E1 E2]]. clear E.
      apply (Hno pid pod).
      * rewrite <- E2. simpl. rewrite E1. apply lookup_insert_eq.
      * rewrite <- E1. unfold participant_ids.
        replace (Pod.participants (with_participants pod0 _))
          with (Pod.participants pod0 ++ [joiner uid name (clock st)]) by now destruct pod0.
        rewrite fmap_app. apply elem_of_app. right. simpl. apply list_elem_of_here.
      * rewrite <- E1. now destruct pod0.
Qed.

Lemma X12_user_pod_lookups_witness :
  exists pod st',
    joinPod "p1" "u3" "Carol" (store_with_pod WAITING) = (Done pod, st')
    /\ (getUserWaitingPod "u3" st').1 <> Ok None
    /\ (getUserActivePod "u3" st').1 <> Ok None.
Proof.
  destruct (joinPod "p1" "u3" "Carol" (store_with_pod WAITING)) as [[pod|e] st'] eqn:E;
    [|vm_compute in E; discriminate].
  exists pod, st'. split; [reflexivity|].
  destruct (X12_user_pod_lookups "u3" (store_with_pod WAITING)) as (_ & _ & _ & Hjoin).
  destruct (X12_user_pod_lookups "u3" st') as (_ & _ & Hwa & _).
  pose proof (Hjoin "p1" "Carol" pod st' E) as Hw.
  split; [exact Hw|exact (Hwa Hw)].
Defined.

(** ** The reward of a session, in whole numbers *)

Lemma js_ge_90_percent a d : js_ge (js_div a d) 0.9 = reaches_90_percent a d.
Proof.
  unfold js_div, reaches_90_percent.
  destruct (Z.eqb_spec d 0) as [->|Hd].
  { simpl. destruct (0 <? a) eqn:H1; [reflexivity|]. now destruct (a <? 0). }
  unfold js_ge, Qle_bool, Qdiv, Qmult, Qinv, inject_Z.
  destruct d as [|p|p]; [congruence| |]; simpl Qnum; simpl Qden; cbv beta iota.
  - change (0 <? Z.pos p) with true. cbv iota.
    apply eq_true_iff_eq. rewrite !Z.leb_le.
    rewrite Pos.mul_1_l. simpl Qnum. lia.
  - change (0 <? Z.neg p) with false. cbv iota.
    apply eq_true_iff_eq. rewrite !Z.leb_le.
    rewrite ?Pos.mul_1_l. simpl Qnum. simpl Qden. lia.
Qed.

Lemma session_reward_values s inPod :
  0 <= s ->
  calculatePomodoroReward 1 (inject_Z s) inPod = if inPod || (15 <=? s) then 2 else 1.
Proof.
  intros Hs. change 1%Q with (inject_Z 1). rewrite reward_closed_form.
  assert (H0 : 0 <= s / 3) by (apply Z.div_pos; lia).
  destruct inPod; simpl orb.
  - symmetry. apply Z.div_unique with (r := Z.min (s / 3) 5). lia. lia.
  - destruct (Z.leb_spec 15 s) as [H|H].
    + assert (5 <= s / 3) by (apply Z.div_le_lower_bound; lia).
      rewrite Z.min_r by lia. reflexivity.
    + assert (s / 3 < 5) by (apply Z.div_lt_upper_bound; lia).
      rewrite Z.min_l by lia.
      symmetry. apply Z.div_unique with (r := 5 + s / 3); lia.
Qed.

(** X13. The reward [completeSession] grants, in whole numbers.  The
    session counts as done when ten times the whole minutes elapsed reach
    nine times the planned minutes (for a session planned with zero
    minutes: when a whole minute has elapsed).  A completion that is done,
    or not flagged as early, earns 2 coins in a pod or from a streak of 15
    days on and 1 coin otherwise, so that a streak of 3 to 14 days earns
    a solo session nothing more; any other completion earns 0.  The
    reward is written to the stored session. *)
Theorem X13_completion_reward_in_integers sid action early st s u :
  sessions st !! sid = Some s ->
  PomodoroSession.completed s = false ->
  users st !! PomodoroSession.userId s = Some u ->
  0 <= User.currentStreak u ->
  let actual := (clock st - PomodoroSession.startTime s) / 60000 in
  exists r st',
    completeSession sid action early st = (Ok r, st')
    /\ cr_actualMinutes r = actual
    /\ cr_reward r
       = (if reaches_90_percent actual (PomodoroSession.duration s) || negb early
          then if truthy_id (PomodoroSession.podId s) || (15 <=? User.currentStreak u)
               then 2 else 1
          else 0)
    /\ (PomodoroSession.reward <$> sessions st' !! sid) = Some (cr_reward r)
    /\ (PomodoroSession.completed <$> sessions st' !! sid) = Some true.
Proof.
  intros Hs Hc Hu Hstreak actual.
  destruct (completeSession_run sid action early st s u Hs Hc Hu)
    as (achs & st' & E & Hss & _).
  eexists _, st'. split; [exact E|]. split; [reflexivity|].
  split.
  - simpl. unfold reward_of, rewarded, completionRate_of.
    rewrite js_ge_90_percent. fold actual.
    change (actualMinutes_of s (clock st)) with actual.
    destruct (reaches_90_percent actual (PomodoroSession.duration s) || negb early);
      [|reflexivity].
    now apply session_reward_values.
  - rewrite Hss, lookup_insert_eq. simpl. split; now destruct s.
Qed.

Lemma X13_completion_reward_witness :
  (exists r st', completeSession "s1" None true (store_running 22) = (Ok r, st')
                 /\ cr_reward r = 0)
  /\ (exists r st', completeSession "s1" None true (store_running 23) = (Ok r, st')
                    /\ cr_reward r = 1).
Proof.
  split.
  - destruct (X13_completion_reward_in_integers "s1" None true (store_running 22)
                session1 alice eq_refl eq_refl eq_refl) as (r & st' & E & _ & Hr & _).
    + vm_compute. discriminate.
    + exists r, st'. split; [exact E|]. rewrite Hr. reflexivity.
  - destruct (X13_completion_reward_in_integers "s1" None true (store_running 23)
                session1 alice eq_refl eq_refl eq_refl) as (r & st' & E & _ & Hr & _).
    + vm_compute. discriminate.
    + exists r, st'. split; [exact E|]. rewrite Hr. reflexivity.
Defined.

(** ** The sweep over the catalog *)

Lemma catalog_find_self a : a ∈ ACHIEVEMENTS -> catalog_find (Achievement.id a) = Some a.
Proof.
  intros Ha. apply list_elem_of_In in Ha. simpl in Ha.
  repeat (destruct Ha as [<-|Ha]; [vm_compute; reflexivity|]). destruct Ha.
Qed.

Lemma meets_strip ps u u' a : strip u' = strip u -> meets ps u' a = meets ps u a.
Proof.
  intros H. apply strip_fields in H as (Hi & Hp & Hm & Ht & Hs & _).
  unfold meets. now rewrite Hi, Hp, Hm, Ht, Hs.
Qed.

Lemma checkAchievements_loop_idle uid user (rest : list Achievement) acc st :
  List.filter (eligible (pods st) user) rest = [] ->
  checkAchievements_loop uid user rest acc st = (Ok acc, st).
Proof.
  revert acc. induction rest as [|a rest IH]; intros acc Hf; simpl in *; [reflexivity|].
  unfold eligible at 1 in Hf.
  destruct (bool_decide (Achievement.id a ∈ User.achievements user)); simpl in Hf.
  - now apply IH.
  - erewrite bind_ok by apply checkAchievementRequirement_spec.
    destruct (meets (pods st) user a); [discriminate|]. now apply IH.
Qed.

Lemma checkAchievements_loop_cons uid user a (rest : list Achievement) acc st :
  checkAchievements_loop uid user (a :: rest) acc st =
    if eligible (pods st) user a
    then (unlocked <- unlockAchievement uid (Achievement.id a) ;;
          checkAchievements_loop uid user rest
            (if unlocked : bool then acc ++ [Achievement.id a] else acc)) st
    else checkAchievements_loop uid user rest acc st.
Proof.
  simpl. unfold eligible.
  destruct (bool_decide (Achievement.id a ∈ User.achievements user)); simpl; [reflexivity|].
  erewrite bind_ok by apply checkAchievementRequirement_spec.
  now destruct (meets (pods st) user a).
Qed.

Lemma checkAchievements_loop_account uid user (rest : list Achievement) :
  forall acc st udb,
    NoDup (Achievement.id <$> rest) ->
    (forall a, a ∈ rest -> catalog_find (Achievement.id a) = Some a) ->
    users st !! uid = Some udb ->
    (forall a, a ∈ rest -> Achievement.id a ∉ User.achievements user ->
               Achievement.id a ∉ User.achievements udb) ->
    exists st' udb',
      checkAchievements_loop uid user rest acc st
        = (Ok (acc ++ (Achievement.id <$> List.filter (eligible (pods st) user) rest)), st')
      /\ users st' !! uid = Some udb'
      /\ User.achievements udb'
         = User.achievements udb
             ++ (Achievement.id <$> List.filter (eligible (pods st) user) rest)
      /\ User.focusCoins udb'
         = User.focusCoins udb + total_reward (List.filter (eligible (pods st) user) rest)
      /\ length (notifications st')
         = (length (notifications st)
            + length (List.filter (eligible (pods st) user) rest))%nat
      /\ frame st' = frame st.
Proof.
  induction rest as [|a rest IH]; intros acc st udb Hnd Hcat Hu Hfresh.
  - exists st, udb. simpl. rewrite !app_nil_r.
    repeat split; [exact Hu|lia|lia].
  - rewrite fmap_cons in Hnd. apply NoDup_cons in Hnd as [Ha Hnd].
    assert (Hcat' : forall b, b ∈ rest -> catalog_find (Achievement.id b) = Some b)
      by (intros b Hb; apply Hcat; now right).
    assert (Hfresh' : forall b, b ∈ rest -> Achievement.id b ∉ User.achievements user ->
                                Achievement.id b ∉ User.achievements udb)
      by (intros b Hb; apply Hfresh; now right).
    rewrite checkAchievements_loop_cons. simpl List.filter.
    destruct (eligible (pods st) user a) eqn:He;
      [|exact (IH acc st udb Hnd Hcat' Hu Hfresh')].
    unfold eligible in He. apply andb_true_iff in He as [Hin _].
    apply negb_true_iff, bool_decide_eq_false in Hin.
    set (st1 := unlocked_store uid (Achievement.id a) udb a st).
    rewrite (bind_ok _ _ st true st1).
    2:{ rewrite (unlockAchievement_spec _ _ _ _ Hu).
        rewrite bool_decide_eq_false_2 by (apply Hfresh; [now left|exact Hin]).
        now rewrite (Hcat a (list_elem_of_here _ _)). }
    assert (Hu1 : users st1 !! uid = Some (credited udb (Achievement.id a) a))
      by apply lookup_insert_eq.
    destruct (IH (acc ++ [Achievement.id a]) st1 _ Hnd Hcat' Hu1)
      as (st2 & u2 & E2 & Hu2 & Hach & Hcoins & Hnotes & F2).
    { intros b Hb Hnb. rewrite credited_achievements.
      rewrite elem_of_app, list_elem_of_singleton. intros [H|H].
      - now apply (Hfresh' b Hb Hnb).
      - apply Ha. rewrite <- H. now apply list_elem_of_fmap_2. }
    change (pods st1) with (pods st) in *.
    exists st2, u2.
    split; [rewrite E2, fmap_cons; now rewrite <- app_assoc|].
    split; [exact Hu2|].
    split; [rewrite Hach, credited_achievements, fmap_cons; now rewrite <- app_assoc|].
    split; [rewrite Hcoins, credited_focusCoins; simpl; lia|].
    split; [rewrite Hnotes; unfold st1; simpl; rewrite length_app; simpl; lia|].
    rewrite F2. now apply frame_unlocked_store.
Qed.

Lemma list_filter_none {A} (f : A -> bool) (l : list A) :
  (forall x, In x l -> f x = false) -> List.filter f l = [].
Proof.
  induction l as [|a l IH]; intros H; simpl; [reflexivity|].
  rewrite (H a (or_introl eq_refl)). apply IH. intros x Hx. apply H. now right.
Qed.

(** X14. The sweep [checkAchievements] fails with 'User not found'
    without changing anything when the user is missing.  Otherwise it
    returns, in catalog order, the achievements the user has not unlocked
    and whose requirement the user meets; it appends exactly those to
    the user's list, adds the sum of their rewards to the balance, sends
    one notification for each and changes no other column.  A second
    sweep right after it unlocks nothing and changes nothing. *)
Theorem X14_sweep_pays_each_achievement_once uid st :
  (users st !! uid = None -> checkAchievements uid st = (Err UserNotFound, st))
  /\ (forall u,
        users st !! uid = Some u ->
        let won := List.filter (eligible (pods st) u) ACHIEVEMENTS in
        exists st' u',
          checkAchievements uid st = (Ok (Achievement.id <$> won), st')
          /\ users st' !! uid = Some u'
          /\ User.achievements u' = User.achievements u ++ (Achievement.id <$> won)
          /\ User.focusCoins u' = User.focusCoins u + total_reward won
          /\ strip u' = strip u
          /\ length (notifications st') = (length (notifications st) + length won)%nat
          /\ checkAchievements uid st' = (Ok [], st')).
Proof.
  split.
  - intros Hu. unfold checkAchievements.
    rewrite (bind_ok _ _ st None st) by (unfold getUser; now rewrite Hu). reflexivity.
  - intros u Hu won.
    destruct (checkAchievements_loop_account uid u ACHIEVEMENTS [] st u
                catalog_ids_NoDup catalog_find_self Hu (fun _ _ H => H))
      as (st' & u' & E & Hu' & Hach & Hcoins & Hnotes & F).
    fold won in E, Hach, Hcoins, Hnotes. simpl in E.
    destruct (frame_user _ _ _ _ F Hu) as (u1 & Hu1 & Hstrip).
    assert (u1 = u') by congruence. subst u1.
    exists st', u'.
    split.
    { unfold checkAchievements.
      rewrite (bind_ok _ _ st (Some u) st) by (unfold getUser; now rewrite Hu).
      rewrite (bind_ok _ _ st u st) by reflexivity. exact E. }
    split; [exact Hu'|]. split; [exact Hach|]. split; [exact Hcoins|].
    split; [exact Hstrip|]. split; [exact Hnotes|].
    unfold checkAchievements.
    rewrite (bind_ok _ _ st' (Some u') st') by (unfold getUser; now rewrite Hu').
    rewrite (bind_ok _ _ st' u' st') by reflexivity.
    apply checkAchievements_loop_idle.
    rewrite (frame_pods _ _ F).
    apply list_filter_none.
    intros a Ha. apply list_elem_of_In in Ha. unfold eligible.
    destruct (eligible (pods st) u a) eqn:He.
    + rewrite bool_decide_eq_true_2; [reflexivity|].
      rewrite Hach. apply elem_of_app. right. apply list_elem_of_fmap_2.
      apply list_elem_of_In, List.filter_In. split; [now apply list_elem_of_In|exact He].
    + unfold eligible in He. rewrite (meets_strip _ _ _ _ Hstrip).
      destruct (bool_decide_reflect (Achievement.id a ∈ User.achievements u)) as [Hin|Hin].
      * rewrite bool_decide_eq_true_2; [reflexivity|].
        rewrite Hach. apply elem_of_app. now left.
      * simpl in He. rewrite He. apply andb_false_r.
Qed.

Lemma X14_sweep_witness :
  exists st' u',
    checkAchievements "u3" store0 = (Ok ["focus_streak_3"; "focus_streak_7"], st')
    /\ users st' !! "u3" = Some u'
    /\ User.focusCoins u' = 40
    /\ checkAchievements "u3" st' = (Ok [], st').
Proof.
  destruct (X14_sweep_pays_each_achievement_once "u3" store0) as [_ H].
  destruct (H carol eq_refl) as (st' & u' & E & Hu & _ & Hc & _ & _ & Hre).
  assert (Hw : List.filter (eligible (pods store0) carol) ACHIEVEMENTS
               = [focus_streak_3;
                  Achievement.mk "focus_streak_7" "Focus Streak 7"
                    "7 дней подряд с фокус-сессиями" "🔥🔥" Rstreak 7 25])
    by (vm_compute; reflexivity).
  rewrite Hw in E, Hc.
  exists st', u'. split; [exact E|]. split; [exact Hu|]. split; [exact Hc|exact Hre].
Defined.

(** ** The statistics rows *)

Lemma frame_stats st st' : frame st' = frame st -> user_stats st' = user_stats st.
Proof. intros H. exact (f_equal fr_stats H). Qed.

Lemma updateUserStats_run uid minutes coins st :
  users st !! uid <> None ->
  updateUserStats uid minutes coins st
  = (Ok tt, set_user_stats
              (insert uid (counted_row uid (user_stats st !! uid) minutes coins)) st).
Proof.
  intros Hu. unfold updateUserStats.
  erewrite bind_ok by reflexivity.
  erewrite bind_ok; [reflexivity|].
  unfold db_updateUserStats. rewrite bool_decide_eq_true_2.
  - reflexivity.
  - destruct (users st !! uid); [eauto|congruence].
Qed.

Lemma completeSession_stats sid action early st s u :
  sessions st !! sid = Some s ->
  PomodoroSession.completed s = false ->
  users st !! PomodoroSession.userId s = Some u ->
  user_stats (completeSession sid action early st).2
  = if rewarded s (clock st) early
    then <[PomodoroSession.userId s :=
             counted_row (PomodoroSession.userId s)
               (user_stats st !! PomodoroSession.userId s)
               (actualMinutes_of s (clock st)) (reward_of s u (clock st) early)]>
           (user_stats st)
    else user_stats st.
Proof.
  intros Hs Hc Hu.
  unfold completeSession.
  rewrite (bind_ok _ _ st (Some s) st) by (unfold getSession; now rewrite Hs).
  rewrite (bind_ok _ _ st s st) by reflexivity.
  rewrite Hc.
  rewrite (bind_ok _ _ st (Some u) st) by (unfold getUser; now rewrite Hu).
  rewrite (bind_ok _ _ st u st) by reflexivity.
  rewrite (bind_ok _ _ st (clock st) st) by reflexivity.
  unfold reward_of.
  set (now := clock st). fold (actualMinutes_of s now).
  set (actual := actualMinutes_of s now).
  assert (Hr : js_ge (js_div actual (PomodoroSession.duration s)) 0.9 || negb early
               = rewarded s now early) by reflexivity.
  rewrite Hr. clear Hr.
  destruct (rewarded s now early).
  - set (reward := calculatePomodoroReward 1 _ _).
    set (uid := PomodoroSession.userId s) in *.
    set (st1 := set_users (insert uid (rewarded_row u actual reward)) st).
    assert (Hu1 : users st1 !! uid = Some (rewarded_row u actual reward))
      by apply lookup_insert_eq.
    pose proof (updateUserStats_run uid actual reward st1) as E2.
    rewrite Hu1 in E2. specialize (E2 ltac:(discriminate)).
    set (st2 := set_user_stats _ st1) in E2.
    assert (Hu2 : users st2 !! uid = Some (rewarded_row u actual reward)) by exact Hu1.
    destruct (checkAchievements_spec uid st2 _ Hu2) as (st3 & E3 & F3).
    set (achs := Achievement.id <$> _) in E3.
    assert (Hs3 : sessions st3 !! sid = Some s)
      by (rewrite (frame_sessions _ _ F3); exact Hs).
    rewrite (bind_ok _ _ st (reward, achs) st3).
    + erewrite bind_ok by (eapply updateSession_some; exact Hs3).
      simpl. rewrite (frame_stats _ _ F3). reflexivity.
    + erewrite bind_ok by (eapply updateUser_some; exact Hu).
      erewrite bind_ok by exact E2.
      erewrite bind_ok by exact E3. reflexivity.
  - set (uid := PomodoroSession.userId s) in *.
    set (st1 := set_users (insert uid (effort_row u actual)) st).
    rewrite (bind_ok _ _ st (0, []) st1).
    + erewrite bind_ok by (eapply updateSession_some; exact Hs). reflexivity.
    + erewrite bind_ok by (eapply updateUser_some; exact Hu). reflexivity.
Qed.

(** X15. What [completeSession] writes to the statistics.  A rewarded
    completion adds one pomodoro, the whole minutes elapsed and the
    reward to the user's row, in the weekly and in the daily columns
    alike, starting from zeros when the user has no row; it never looks
    at the day or the week.  A completion without reward leaves the
    statistics untouched, although it adds the minutes to the user's
    total. *)
Theorem X15_completion_statistics sid action early st s u :
  sessions st !! sid = Some s ->
  PomodoroSession.completed s = false ->
  users st !! PomodoroSession.userId s = Some u ->
  let uid := PomodoroSession.userId s in
  let actual := (clock st - PomodoroSession.startTime s) / 60000 in
  exists r st',
    completeSession sid action early st = (Ok r, st')
    /\ (forall other, other <> uid -> user_stats st' !! other = user_stats st !! other)
    /\ (reaches_90_percent actual (PomodoroSession.duration s) || negb early = true ->
        user_stats st' !! uid
        = Some (counted_row uid (user_stats st !! uid) actual (cr_reward r)))
    /\ (reaches_90_percent actual (PomodoroSession.duration s) || negb early = false ->
        user_stats st' = user_stats st
        /\ exists u', users st' !! uid = Some u'
                      /\ User.totalFocusMinutes u' = User.totalFocusMinutes u + actual
                      /\ User.totalPomodoros u' = User.totalPomodoros u).
Proof.
  intros Hs Hc Hu uid actual.
  destruct (completeSession_run sid action early st s u Hs Hc Hu)
    as (achs & st' & E & _ & _ & _ & Hrun).
  pose proof (completeSession_stats sid action early st s u Hs Hc Hu) as Hst.
  rewrite E in Hst. simpl in Hst.
  assert (Hr : rewarded s (clock st) early
               = reaches_90_percent actual (PomodoroSession.duration s) || negb early).
  { unfold rewarded, completionRate_of. now rewrite js_ge_90_percent. }
  rewrite Hr in Hst, Hrun.
  eexists _, st'. split; [exact E|].
  destruct (reaches_90_percent actual (PomodoroSession.duration s) || negb early).
  - split; [|split; [|discriminate]].
    + intros other Hne. rewrite Hst. now apply lookup_insert_ne.
    + intros _. rewrite Hst. apply lookup_insert_eq.
  - split; [|split; [discriminate|]].
    + intros other _. now rewrite Hst.
    + intros _. split; [exact Hst|].
      destruct Hrun as (Husers & _).
      exists (effort_row u actual). rewrite Husers. split; [apply lookup_insert_eq|].
      now destruct u.
Qed.

Lemma X15_completion_statistics_witness :
  (exists r st', completeSession "s1" None true (store_running 26) = (Ok r, st')
                 /\ user_stats st' !! "u1" = Some (UserStats.mk "u1" 1 26 0 1 1 26))
  /\ (exists r st', completeSession "s1" None true (store_running 5) = (Ok r, st')
                    /\ user_stats st' = ∅
                    /\ (User.totalFocusMinutes <$> users st' !! "u1") = Some 5).
Proof.
  split.
  - destruct (X15_completion_statistics "s1" None true (store_running 26)
                session1 alice eq_refl eq_refl eq_refl) as (r & st' & E & _ & H & _).
    exists r, st'. split; [exact E|].
    assert (Hr : cr_reward r = 1).
    { assert (E' : (completeSession "s1" None true (store_running 26)).1 = Ok r)
        by now rewrite E.
      vm_compute in E'. now inversion E'. }
    etransitivity; [exact (H eq_refl)|]. rewrite Hr. reflexivity.
  - destruct (X15_completion_statistics "s1" None true (store_running 5)
                session1 alice eq_refl eq_refl eq_refl) as (r & st' & E & _ & _ & H).
    destruct (H eq_refl) as (Hst & u' & Hu' & Hm & _).
    exists r, st'. split; [exact E|]. split; [exact Hst|].
    change (users st' !! "u1" = Some u') in Hu'. rewrite Hu'. simpl.
    now rewrite Hm.
Defined.

Lemma reset_loop (f : UserStats -> UserStats) (g : string -> UserStats -> UserStats)
    (l : list User) :
  (forall uid s,
     UserStats.mk uid (UserStats.weekPomodoros (f s)) (UserStats.weekFocusMinutes (f s))
       (UserStats.weekTasksCompleted (f s)) (UserStats.weekFocusCoins (f s))
       (UserStats.todayPomodoros (f s)) (UserStats.todayFocusMinutes (f s)) = g uid s) ->
  (forall uid s, g uid (g uid s) = g uid s) ->
  forall st,
    (forall u, u ∈ l -> is_Some (users st !! User.id u)) ->
    exists st',
      for_each l
        (fun user =>
           o <- getUserStats (User.id user) ;;
           match o with
           | Some stats => db_updateUserStats (User.id user) (f stats) ;; ret tt
           | None => ret tt
           end) st = (Ok tt, st')
      /\ only_stats_differ st st'
      /\ forall uid,
           user_stats st' !! uid
           = if bool_decide (uid ∈ User.id <$> l) then g uid <$> user_stats st !! uid
             else user_stats st !! uid.
Proof.
  intros Hg Hidem. induction l as [|x l IH]; intros st Hl.
  - exists st. split; [reflexivity|]. split; [repeat split|]. intros uid.
    rewrite bool_decide_eq_false_2; [reflexivity|]. rewrite fmap_nil. apply not_elem_of_nil.
  - assert (Hl' : forall u, u ∈ l -> is_Some (users st !! User.id u))
      by (intros u Hu; apply Hl; now right).
    set (body := fun user : User => _) in *.
    assert (Hbody : body x st
                    = (Ok tt, match user_stats st !! User.id x with
                              | Some stats =>
                                  set_user_stats (insert (User.id x) (g (User.id x) stats)) st
                              | None => st
                              end)).
    { unfold body. erewrite bind_ok by reflexivity.
      destruct (user_stats st !! User.id x) as [stats|]; [|reflexivity].
      erewrite bind_ok; [reflexivity|].
      unfold db_updateUserStats.
      rewrite bool_decide_eq_true_2 by (apply Hl; now left).
      now rewrite Hg. }
    simpl for_each. rewrite (bind_ok _ _ _ _ _ Hbody). clear Hbody.
    destruct (user_stats st !! User.id x) as [stats|] eqn:Hst.
    + destruct (IH (set_user_stats (insert (User.id x) (g (User.id x) stats)) st) Hl')
        as (st' & E & (H1 & H2 & H3 & H4 & H5 & H6) & Hrows).
      exists st'. split; [exact E|]. split; [repeat split; assumption|].
      intros uid. rewrite Hrows. simpl.
      destruct (decide (uid = User.id x)) as [->|Hne].
      * rewrite lookup_insert_eq, Hst.
        rewrite (bool_decide_eq_true_2 (User.id x ∈ User.id x :: _))
          by apply list_elem_of_here.
        destruct (bool_decide _); simpl; [now rewrite Hidem|reflexivity].
      * rewrite lookup_insert_ne by congruence.
        apply (f_equal (fun b : bool => if b then _ else _)).
        apply bool_decide_ext. rewrite elem_of_cons. tauto.
    + destruct (IH st Hl') as (st' & E & Hsame & Hrows).
      exists st'. split; [exact E|]. split; [exact Hsame|].
      intros uid. rewrite Hrows.
      destruct (decide (uid = User.id x)) as [->|Hne].
      * rewrite Hst.
        rewrite (bool_decide_eq_true_2 (User.id x ∈ User.id <$> x :: _))
          by (rewrite fmap_cons; apply list_elem_of_here).
        now destruct (bool_decide _).
      * apply (f_equal (fun b : bool => if b then _ else _)).
        apply bool_decide_ext. rewrite fmap_cons, elem_of_cons. tauto.
Qed.

Lemma keyed_user_ids st uid :
  users_keyed st ->
  uid ∈ User.id <$> (map_to_list (users st)).*2 <-> is_Some (users st !! uid).
Proof.
  intros Hk. rewrite list_elem_of_fmap. split.
  - intros (u & -> & Hu). apply elem_of_rows in Hu as (k & Hu).
    rewrite (Hk k u Hu). now exists u.
  - intros [u Hu]. exists u. split; [symmetry; exact (Hk uid u Hu)|].
    apply elem_of_rows. now exists uid.
Qed.

(** X16. The two scheduled resets never fail, where user rows are
    stored under their id.  [resetDailyStats] zeroes the two daily
    columns of every user's statistics row and keeps the weekly ones;
    [resetWeeklyStats] zeroes the four weekly columns and keeps the daily
    ones.  Neither creates a row for a user without one, and neither
    touches users, sessions, pods or notifications. *)
Theorem X16_resets_zero_their_columns st :
  users_keyed st ->
  (exists st',
     resetDailyStats st = (Ok tt, st')
     /\ only_stats_differ st st'
     /\ forall uid,
          user_stats st' !! uid
          = if bool_decide (is_Some (users st !! uid))
            then reset_today uid <$> user_stats st !! uid
            else user_stats st !! uid)
  /\ (exists st',
        resetWeeklyStats st = (Ok tt, st')
        /\ only_stats_differ st st'
        /\ forall uid,
             user_stats st' !! uid
             = if bool_decide (is_Some (users st !! uid))
               then reset_week uid <$> user_stats st !! uid
               else user_stats st !! uid).
Proof.
  intros Hk.
  assert (Hl : forall u, u ∈ (map_to_list (users st)).*2 -> is_Some (users st !! User.id u)).
  { intros u Hu. apply (keyed_user_ids st _ Hk). now apply list_elem_of_fmap_2. }
  split.
  - destruct (reset_loop
                (fun stats =>
                   UserStats.mk (UserStats.userId stats) (UserStats.weekPomodoros stats)
                     (UserStats.weekFocusMinutes stats) (UserStats.weekTasksCompleted stats)
                     (UserStats.weekFocusCoins stats) 0 0)
                reset_today (map_to_list (users st)).*2
                (fun _ _ => eq_refl) (fun _ _ => eq_refl) st Hl)
      as (st' & E & Hsame & Hrows).
    exists st'. split; [|split; [exact Hsame|]].
    + unfold resetDailyStats. erewrite bind_ok by reflexivity. exact E.
    + intros uid. rewrite Hrows.
      apply (f_equal (fun b : bool => if b then _ else _)).
      apply bool_decide_ext. now apply keyed_user_ids.
  - destruct (reset_loop
                (fun stats =>
                   UserStats.mk (UserStats.userId stats) 0 0 0 0
                     (UserStats.todayPomodoros stats) (UserStats.todayFocusMinutes stats))
                reset_week (map_to_list (users st)).*2
                (fun _ _ => eq_refl) (fun _ _ => eq_refl) st Hl)
      as (st' & E & Hsame & Hrows).
    exists st'. split; [|split; [exact Hsame|]].
    + unfold resetWeeklyStats. erewrite bind_ok by reflexivity. exact E.
    + intros uid. rewrite Hrows.
      apply (f_equal (fun b : bool => if b then _ else _)).
      apply bool_decide_ext. now apply keyed_user_ids.
Qed.

Lemma users_keyed_decide st :
  map_Forall (fun k u => User.id u = k) (users st) -> users_keyed st.
Proof. intros H k u Hu. exact (H k u Hu). Qed.

Lemma store0_users_keyed : users_keyed store_with_stats.
Proof. apply users_keyed_decide. apply (bool_decide_unpack _). vm_compute. exact I. Qed.

Lemma X16_resets_witness :
  (exists st', resetDailyStats store_with_stats = (Ok tt, st')
               /\ user_stats st' !! "u1" = Some (UserStats.mk "u1" 3 75 0 3 0 0)
               /\ user_stats st' !! "u2" = None)
  /\ (exists st', resetWeeklyStats store_with_stats = (Ok tt, st')
                  /\ user_stats st' !! "u1" = Some (UserStats.mk "u1" 0 0 0 0 2 50)).
Proof.
  destruct (X16_resets_zero_their_columns store_with_stats store0_users_keyed)
    as [(st1 & E1 & _ & H1) (st2 & E2 & _ & H2)].
  split.
  - exists st1. split; [exact E1|]. rewrite !H1. split; reflexivity.
  - exists st2. split; [exact E2|]. rewrite H2. reflexivity.
Defined.

(** ** Countdowns *)

Lemma countdown_split r :
  0 <= r -> counts_down r (r / (60 * 1000)) (Z.rem r (60 * 1000) / 1000).
Proof.
  intros Hr. unfold counts_down.
  rewrite Z.rem_mod_nonneg by lia.
  change (60 * 1000) with 60000.
  pose proof (Z.div_mod r 60000 ltac:(lia)) as H1.
  pose proof (Z.mod_pos_bound r 60000 ltac:(lia)) as H2.
  pose proof (Z.div_mod (r mod 60000) 1000 ltac:(lia)) as H3.
  pose proof (Z.mod_pos_bound (r mod 60000) 1000 ltac:(lia)) as H4.
  assert (0 <= r / 60000) by (apply Z.div_pos; lia).
  assert (0 <= r mod 60000 / 1000) by (apply Z.div_pos; lia).
  assert (r mod 60000 / 1000 < 60) by (apply Z.div_lt_upper_bound; lia).
  lia.
Qed.

Lemma counts_down_unique r m s m' s' :
  counts_down r m s -> counts_down r m' s' -> m = m' /\ s = s'.
Proof. unfold counts_down. lia. Qed.

Lemma getSessionInfo_run sid st :
  getSessionInfo sid st =
    match sessions st !! sid with
    | None => (Ok None, st)
    | Some s =>
        if PomodoroSession.completed s then (Ok None, st)
        else
          let remaining :=
            Z.max 0 (PomodoroSession.duration s * 60 * 1000
                     - (clock st - PomodoroSession.startTime s)) in
          (Ok (Some (mkSessionInfo s (remaining / (60 * 1000))
                       (Z.rem remaining (60 * 1000) / 1000))), st)
    end.
Proof.
  unfold getSessionInfo. erewrite bind_ok by reflexivity.
  destruct (sessions st !! sid) as [s|]; [|reflexivity].
  destruct (PomodoroSession.completed s); [reflexivity|].
  erewrite bind_ok by reflexivity. reflexivity.
Qed.

(** X17. [getSessionInfo] only reads, and answers nothing for a
    missing or a completed session.  For any other stored session, a
    cancelled one included, it reports the whole minutes and seconds of
    the time that remains of the planned duration: the seconds stay
    below 60, nothing is reported below zero, both are 0 once the
    planned time is over, and at the start the minutes equal the planned
    duration. *)
Theorem X17_getSessionInfo_counts_down sid st :
  ((sessions st !! sid = None
    \/ exists s, sessions st !! sid = Some s /\ PomodoroSession.completed s = true) ->
   getSessionInfo sid st = (Ok None, st))
  /\ (forall s,
        sessions st !! sid = Some s -> PomodoroSession.completed s = false ->
        exists m sec,
          getSessionInfo sid st = (Ok (Some (mkSessionInfo s m sec)), st)
          /\ counts_down
               (Z.max 0 (PomodoroSession.startTime s + PomodoroSession.duration s * 60000
                         - clock st)) m sec
          /\ (PomodoroSession.startTime s + PomodoroSession.duration s * 60000 <= clock st ->
              m = 0 /\ sec = 0)
          /\ (clock st = PomodoroSession.startTime s -> 0 <= PomodoroSession.duration s ->
              m = PomodoroSession.duration s /\ sec = 0)).
Proof.
  split.
  - intros [Hn|(s & Hs & Hc)]; rewrite getSessionInfo_run.
    + now rewrite Hn.
    + now rewrite Hs, Hc.
  - intros s Hs Hc. rewrite getSessionInfo_run, Hs, Hc. cbv zeta.
    set (r := Z.max 0 _).
    assert (Hr : r = Z.max 0 (PomodoroSession.startTime s
                              + PomodoroSession.duration s * 60000 - clock st))
      by (unfold r; f_equal; lia).
    pose proof (countdown_split r ltac:(unfold r; lia)) as Hcd.
    eexists _, _. split; [reflexivity|]. rewrite <- Hr. split; [exact Hcd|]. split.
    + intros Hover.
      apply (counts_down_unique r _ _ 0 0 Hcd). unfold counts_down. lia.
    + intros Hstart Hd.
      apply (counts_down_unique r _ _ (PomodoroSession.duration s) 0 Hcd).
      unfold counts_down. lia.
Qed.

Lemma X17_getSessionInfo_witness :
  getSessionInfo "s1" store_completed = (Ok None, store_completed)
  /\ getSessionInfo "s1" (store_running 5)
     = (Ok (Some (mkSessionInfo session1 20 0)), store_running 5)
  /\ getSessionInfo "s1" (store_running 26)
     = (Ok (Some (mkSessionInfo session1 0 0)), store_running 26).
Proof.
  split; [|split].
  - apply (X17_getSessionInfo_counts_down "s1" store_completed).
    right. eexists. split; vm_compute; reflexivity.
  - destruct (X17_getSessionInfo_counts_down "s1" (store_running 5)) as [_ H].
    destruct (H session1 eq_refl eq_refl) as (m & sec & E & Hcd & _).
    destruct (counts_down_unique _ _ _ 20 0 Hcd) as [-> ->]; [|exact E].
    vm_compute. repeat split; discriminate.
  - destruct (X17_getSessionInfo_counts_down "s1" (store_running 26)) as [_ H].
    destruct (H session1 eq_refl eq_refl) as (m & sec & E & _ & Hover & _).
    destruct Hover as [-> ->]; [|exact E].
    vm_compute. discriminate.
Defined.

Lemma getPodInfo_run pid st :
  getPodInfo pid st =
    match pods st !! pid with
    | None => (Ok None, st)
    | Some pod =>
        match bool_decide (Pod.status pod = ACTIVE), Pod.endTime pod with
        | true, Some endTime =>
            let remaining := Z.max 0 (endTime - clock st) in
            (Ok (Some (mkPodInfo pod (Some (remaining / (60 * 1000)))
                         (Some (Z.rem remaining (60 * 1000) / 1000)))), st)
        | _, _ => (Ok (Some (mkPodInfo pod None None)), st)
        end
    end.
Proof.
  unfold getPodInfo. erewrite bind_ok by reflexivity.
  destruct (pods st !! pid) as [pod|]; [|reflexivity].
  destruct (bool_decide (Pod.status pod = ACTIVE)); [|reflexivity].
  destruct (Pod.endTime pod); [|reflexivity].
  erewrite bind_ok by reflexivity. reflexivity.
Qed.

Lemma startPod_done pid st pod st' :
  startPod pid st = (Done pod, st') ->
  pods st !! pid = Some pod
  /\ pods st' !! pid = Some (started_pod pod (clock st))
  /\ clock st' = clock st.
Proof.
  intros E. destruct (startPod_guards pid st) as [Hmiss Hguard].
  destruct (pods st !! pid) as [p|] eqn:Hp.
  2:{ rewrite (Hmiss eq_refl) in E. discriminate. }
  destruct (decide (Pod.status p = WAITING)) as [Hs|Hs].
  2:{ rewrite (Hguard p eq_refl Hs) in E. discriminate. }
  pose proof (startPod_run pid st p Hp Hs) as Hrun. simpl in Hrun.
  destruct (for_eachP (Pod.participants p) _ _) as [[[]|e] st2] eqn:E1.
  2:{ rewrite Hrun in E. discriminate. }
  destruct Hrun as (r & st3 & E3 & Ht & Hr). rewrite E3 in E. inversion E. subst r st3.
  destruct Hr as [Hr|[e Hr]]; [|discriminate]. inversion Hr. subst p.
  destruct (start_all_done _ _ _ _ _ E1) as ((Hpods & Hclock & _) & _).
  destruct Ht as (_ & _ & Hpods' & _ & Hclock' & _).
  split; [reflexivity|]. split.
  - rewrite Hpods', Hpods. apply lookup_insert_eq.
  - now rewrite Hclock', Hclock.
Qed.

(** X18. [getPodInfo] only reads.  It reports a countdown only for an
    ACTIVE pod with an end time: the whole minutes and seconds left until
    the end time, never below zero.  Any other stored pod is returned
    without a countdown.  Right after a successful [startPod] the
    countdown shows the full duration of the pod. *)
Theorem X18_getPodInfo_counts_down pid st :
  (pods st !! pid = None -> getPodInfo pid st = (Ok None, st))
  /\ (forall pod,
        pods st !! pid = Some pod ->
        (Pod.status pod <> ACTIVE \/ Pod.endTime pod = None) ->
        getPodInfo pid st = (Ok (Some (mkPodInfo pod None None)), st))
  /\ (forall pod endTime,
        pods st !! pid = Some pod -> Pod.status pod = ACTIVE ->
        Pod.endTime pod = Some endTime ->
        exists m sec,
          getPodInfo pid st = (Ok (Some (mkPodInfo pod (Some m) (Some sec))), st)
          /\ counts_down (Z.max 0 (endTime - clock st)) m sec)
  /\ (forall pod st',
        startPod pid st = (Done pod, st') -> 0 <= Pod.duration pod ->
        getPodInfo pid st'
        = (Ok (Some (mkPodInfo (started_pod pod (clock st))
                       (Some (Pod.duration pod)) (Some 0))), st')).
Proof.
  split; [|split; [|split]].
  - intros Hp. now rewrite getPodInfo_run, Hp.
  - intros pod Hp Hno. rewrite getPodInfo_run, Hp.
    destruct Hno as [Hs|He].
    + now rewrite bool_decide_eq_false_2.
    + rewrite He. now destruct (bool_decide _).
  - intros pod endTime Hp Hs He. rewrite getPodInfo_run, Hp, He.
    rewrite bool_decide_eq_true_2 by exact Hs. cbv zeta.
    eexists _, _. split; [reflexivity|]. apply countdown_split. lia.
  - intros pod st' E Hd.
    destruct (startPod_done _ _ _ _ E) as (_ & Hp' & Hclock).
    destruct (started_pod_fields pod (clock st)) as (F1 & _ & F3 & _).
    rewrite getPodInfo_run, Hp', F3.
    rewrite bool_decide_eq_true_2 by exact F1. cbv zeta. rewrite Hclock.
    set (r := Z.max 0 _).
    pose proof (countdown_split r ltac:(unfold r; lia)) as Hcd.
    destruct (counts_down_unique r _ _ (Pod.duration pod) 0 Hcd) as [-> ->];
      [|reflexivity].
    unfold counts_down, r. lia.
Qed.

Lemma X18_getPodInfo_witness :
  getPodInfo "p1" (store_with_pod WAITING)
    = (Ok (Some (mkPodInfo (pod1 WAITING) None None)), store_with_pod WAITING)
  /\ exists st',
       startPod "p1" (store_with_pod WAITING) = (Done (pod1 WAITING), st')
       /\ exists info, getPodInfo "p1" st' = (Ok (Some info), st')
                       /\ pi_remainingMinutes info = Some 25.
Proof.
  destruct (X18_getPodInfo_counts_down "p1" (store_with_pod WAITING))
    as (_ & Hidle & _ & Hstart).
  split.
  - apply Hidle; [reflexivity|left; discriminate].
  - destruct (startPod "p1" (store_with_pod WAITING)) as [r st'] eqn:E.
    assert (Hr : (startPod "p1" (store_with_pod WAITING)).1 = Done (pod1 WAITING))
      by (vm_compute; reflexivity).
    rewrite E in Hr. simpl in Hr. subst r. exists st'. split; [reflexivity|].
    eexists. split; [apply (Hstart _ _ eq_refl); vm_compute; discriminate|reflexivity].
Defined.

(** ** The invite code *)

Lemma N_lt_16_cases (d : N) :
  (d < 16)%N ->
  In d [0; 1; 2; 3; 4; 5; 6; 7; 8; 9; 10; 11; 12; 13; 14; 15]%N.
Proof.
  intros H. assert (E : d = N.of_nat (N.to_nat d)) by lia.
  assert (Hn : (N.to_nat d < 16)%nat) by lia.
  rewrite E. generalize dependent (N.to_nat d). intros n _ Hn.
  do 16 (destruct n as [|n]; [simpl; tauto|]). lia.
Qed.

Lemma hex_digit_value d :
  (d < 16)%N -> hex_value (upper_ascii (hex_digit d)) = Some d.
Proof.
  intros H. apply N_lt_16_cases in H. simpl in H.
  repeat (destruct H as [<-|H]; [vm_compute; reflexivity|]). destruct H.
Qed.

Lemma toString_hex_app l1 l2 :
  toString_hex (l1 ++ l2) = toString_hex l1 +:+ toString_hex l2.
Proof. induction l1 as [|b l1 IH]; simpl; [reflexivity|]. now rewrite IH. Qed.

Lemma toUpperCase_app s1 s2 :
  toUpperCase (s1 +:+ s2) = toUpperCase s1 +:+ toUpperCase s2.
Proof. induction s1 as [|c s1 IH]; simpl; [reflexivity|]. now rewrite IH. Qed.

Lemma toUpperCase_length s : String.length (toUpperCase s) = String.length s.
Proof. induction s as [|c s IH]; simpl; [reflexivity|]. now rewrite IH. Qed.

Lemma toString_hex_length l : String.length (toString_hex l) = (2 * length l)%nat.
Proof. induction l as [|b l IH]; simpl; [reflexivity|]. rewrite IH. lia. Qed.

Lemma bytes_of_length n x : length (bytes_of n x) = n.
Proof.
  revert x. induction n as [|n IH]; intros x; simpl; [reflexivity|].
  rewrite length_app, IH. simpl. lia.
Qed.

Lemma parse_hex_from_app s1 s2 acc :
  parse_hex_from acc (s1 +:+ s2)
  = match parse_hex_from acc s1 with
    | Some v => parse_hex_from v s2
    | None => None
    end.
Proof.
  revert acc. induction s1 as [|c s1 IH]; intros acc; simpl; [reflexivity|].
  destruct (hex_value c); [apply IH|reflexivity].
Qed.

Lemma parse_hex_byte b acc :
  (b < 256)%N ->
  parse_hex_from acc (toUpperCase (toString_hex [b])) = Some (acc * 256 + b)%N.
Proof.
  intros Hb. simpl.
  rewrite hex_digit_value by (apply N.Div0.div_lt_upper_bound; lia).
  rewrite hex_digit_value by (apply N.mod_lt; lia).
  f_equal. pose proof (N.div_mod b 16 ltac:(lia)). lia.
Qed.

Lemma parse_hex_bytes n :
  forall x acc,
    parse_hex_from acc (toUpperCase (toString_hex (bytes_of n x)))
    = Some (acc * 256 ^ N.of_nat n + x mod 256 ^ N.of_nat n)%N.
Proof.
  induction n as [|n IH]; intros x acc.
  - simpl. f_equal. rewrite N.mod_1_r. lia.
  - simpl bytes_of. rewrite toString_hex_app, toUpperCase_app, parse_hex_from_app, IH.
    rewrite parse_hex_byte by (apply N.mod_lt; lia).
    f_equal. rewrite Nat2N.inj_succ, N.pow_succ_r'.
    rewrite (N.Div0.mod_mul_r x 256 (256 ^ N.of_nat n)). lia.
Qed.

Lemma bytes_of_mod n :
  forall x, bytes_of n (x mod 256 ^ N.of_nat n) = bytes_of n x.
Proof.
  induction n as [|n IH]; intros x; [reflexivity|].
  simpl bytes_of. rewrite Nat2N.inj_succ, N.pow_succ_r'.
  set (c := (256 ^ N.of_nat n)%N).
  rewrite (N.Div0.mod_mul_r x 256 c).
  pose proof (N.mod_lt x 256 ltac:(lia)) as Hlt.
  assert (Hd : ((x mod 256 + 256 * ((x / 256) mod c)) / 256 = (x / 256) mod c)%N).
  { symmetry. apply (N.div_unique _ 256 _ (x mod 256)); [exact Hlt|lia]. }
  assert (Hm : ((x mod 256 + 256 * ((x / 256) mod c)) mod 256 = x mod 256)%N).
  { symmetry. apply (N.mod_unique _ 256 ((x / 256) mod c)); [exact Hlt|lia]. }
  rewrite Hd, Hm. unfold c. now rewrite IH.
Qed.

(** X19. The invite code [createPod] hands out is eight upper-case
    hexadecimal digits: it reads back as the drawn number modulo 2^32,
    so two draws give the same code exactly when they agree modulo 2^32.
    The share link of the pod is the bot's link with the code appended. *)
Theorem X19_invite_code_is_eight_hex_digits bot creatorId creatorName duration title st :
  String.length (drawn_invite_code st) = 8%nat
  /\ parse_hex (drawn_invite_code st)
     = Some (rng_bytes st (S (rng_pos st)) mod 2 ^ 32)%N
  /\ (forall st2,
        drawn_invite_code st = drawn_invite_code st2 <->
        (rng_bytes st (S (rng_pos st)) mod 2 ^ 32
         = rng_bytes st2 (S (rng_pos st2)) mod 2 ^ 32)%N)
  /\ (forall pod code st',
        createPod bot creatorId creatorName duration title st = (Ok (pod, code), st') ->
        code = drawn_invite_code st
        /\ Pod.inviteCode pod = code
        /\ Pod.shareLink pod = "https://max.ru/" +:+ bot +:+ "?start=pod_" +:+ code).
Proof.
  assert (Hparse : forall s, parse_hex (drawn_invite_code s)
                             = Some (rng_bytes s (S (rng_pos s)) mod 2 ^ 32)%N).
  { intros s. unfold parse_hex, drawn_invite_code. rewrite parse_hex_bytes.
    f_equal. }
  split; [|split; [|split]].
  - unfold drawn_invite_code.
    now rewrite toUpperCase_length, toString_hex_length, bytes_of_length.
  - apply Hparse.
  - intros st2. split.
    + intros E. pose proof (Hparse st) as H1. rewrite E, Hparse in H1. now inversion H1.
    + intros E. unfold drawn_invite_code. f_equal. f_equal.
      rewrite <- (bytes_of_mod 4 (rng_bytes st _)), <- (bytes_of_mod 4 (rng_bytes st2 _)).
      change (256 ^ N.of_nat 4)%N with (2 ^ 32)%N. now rewrite E.
  - intros pod code st' E.
    pose proof (createPod_run bot creatorId creatorName duration title st) as H. simpl in H.
    destruct (_ && _); [|rewrite H in E; discriminate].
    destruct H as (st1 & E1 & _). rewrite E1 in E. inversion E. subst. repeat split.
Qed.

Lemma X19_invite_code_witness :
  parse_hex "0000002A" = Some 42%N
  /\ exists pod st',
       createPod "focus_bot" "u1" "Alice" 25 None store0 = (Ok (pod, "0000002A"), st')
       /\ Pod.shareLink pod = "https://max.ru/focus_bot?start=pod_0000002A".
Proof.
  destruct (X19_invite_code_is_eight_hex_digits "focus_bot" "u1" "Alice" 25 None store0)
    as (_ & Hp & _ & Hc).
  split; [exact Hp|].
  destruct (createPod "focus_bot" "u1" "Alice" 25 None store0) as [[[pod code]|e] st'] eqn:E;
    [|vm_compute in E; discriminate].
  destruct (Hc pod code st' eq_refl) as (-> & _ & Hl).
  exists pod, st'. split; [reflexivity|]. rewrite Hl. reflexivity.
Defined.

(** ** The history of a user *)

#[local] Instance later_start_total : Total later_start.
Proof. intros a b. unfold later_start. lia. Qed.

#[local] Instance later_start_trans : Transitive later_start.
Proof. intros a b c. unfold later_start. lia. Qed.

(** X20. [getSessionHistory] only reads.  It returns the first [limit]
    (10 when no limit is given) of the user's stored sessions in the
    order of [getUserSessions], newest first: every session it returns
    belongs to the user, and every session of the user that it leaves
    out started no later than each one it returns.  A negative limit
    leaves out that many of the oldest sessions instead. *)
Theorem X20_history_is_the_newest_sessions uid limit st :
  let n := default 10 limit in
  exists all h rest,
    getUserSessions uid st = (Ok all, st)
    /\ getSessionHistory uid limit st = (Ok h, st)
    /\ all = h ++ rest
    /\ length h
       = (if 0 <=? n then Nat.min (Z.to_nat n) (length all)
          else (length all - Z.to_nat (- n))%nat)
    /\ StronglySorted later_start h
    /\ (forall s t, s ∈ h -> t ∈ rest ->
                    PomodoroSession.startTime t <= PomodoroSession.startTime s)
    /\ (forall s, s ∈ h ->
                  PomodoroSession.userId s = uid /\ exists i, sessions st !! i = Some s).
Proof.
  intros n.
  set (all := merge_sort later_start
                (filter (fun s => PomodoroSession.userId s = uid)
                        (map_to_list (sessions st)).*2)).
  set (k := if 0 <=? n then Z.to_nat n else (length all - Z.to_nat (- n))%nat).
  assert (Hh : slice_from_0 all n = take k all).
  { unfold slice_from_0, k. now destruct (0 <=? n). }
  assert (Hsorted : StronglySorted later_start (take k all ++ drop k all)).
  { rewrite take_drop. apply StronglySorted_merge_sort; apply _. }
  exists all, (take k all), (drop k all).
  split; [reflexivity|].
  split. { unfold getSessionHistory. erewrite bind_ok by reflexivity. fold n all.
           now rewrite Hh. }
  split; [now rewrite take_drop|].
  split. { rewrite length_take. unfold k. destruct (0 <=? n); lia. }
  split; [exact (StronglySorted_app_1_l _ _ _ Hsorted)|].
  split.
  - intros s t Hs Ht. exact (StronglySorted_app_1_elem_of _ _ _ _ _ Hsorted Hs Ht).
  - intros s Hs. apply elem_of_user_sessions. fold all.
    rewrite <- (take_drop k all). apply elem_of_app. now left.
Qed.

(** ** Counting the pods of a user *)

Lemma filter_length_perm {A} (f : A -> bool) (l l' : list A) :
  l ≡ₚ l' -> length (List.filter f l) = length (List.filter f l').
Proof.
  induction 1 as [|x l l' _ IH|x y l|l1 l2 l3 _ IH1 _ IH2]; simpl.
  - reflexivity.
  - destruct (f x); simpl; congruence.
  - destruct (f x), (f y); reflexivity.
  - congruence.
Qed.

Lemma filter_length_le {A} (f : A -> bool) (l : list A) :
  (length (List.filter f l) <= length l)%nat.
Proof. induction l as [|a l IH]; simpl; [lia|]. destruct (f a); simpl; lia. Qed.

Lemma filter_disjoint_length {A} (f g : A -> bool) (l : list A) :
  (forall x, f x = true -> g x = false) ->
  (length (List.filter f l) + length (List.filter g l) <= length l)%nat.
Proof.
  intros H. induction l as [|a l IH]; simpl; [lia|].
  destruct (f a) eqn:Hf; [rewrite (H a Hf)|destruct (g a)]; simpl; lia.
Qed.

Lemma filter_filter_length {A} (f : A -> bool) (P : A -> Prop) `{!forall x, Decision (P x)}
    (l : list A) :
  (forall x, x ∈ l -> f x = true -> P x) ->
  length (List.filter f (filter P l)) = length (List.filter f l).
Proof.
  induction l as [|a l IH]; intros Hall; [reflexivity|].
  assert (IH' : length (List.filter f (filter P l)) = length (List.filter f l))
    by (apply IH; intros x Hx; apply Hall; now right).
  rewrite filter_cons. destruct (decide (P a)) as [Hp|Hp]; simpl.
  - destruct (f a); simpl; congruence.
  - destruct (f a) eqn:Hf; [|exact IH'].
    destruct Hp. apply Hall; [apply list_elem_of_here|exact Hf].
Qed.

Lemma user_pods_elem uid st p :
  p ∈ merge_sort later_created
        (filter (fun p => uid ∈ PodParticipant.userId <$> Pod.participants p)
                (map_to_list (pods st)).*2)
  <-> uid ∈ participant_ids p /\ exists k, pods st !! k = Some p.
Proof.
  rewrite merge_sort_Permutation, list_elem_of_filter, elem_of_rows. reflexivity.
Qed.

(** X21. The pod counters of a user.  [getUserPodStats] only reads; of
    the stored pods that list the user as a participant it counts all as
    participated, and among them those the user created, the COMPLETED
    ones and the ACTIVE ones, so that created is at most participated
    and completed plus active is at most participated.  Where the
    participant lists are well formed, created is the number of all
    stored pods of that creator.  [getUserActivePods] is empty exactly
    when [getUserActivePod] finds nothing. *)
Theorem X21_pod_counters uid st :
  (exists stats all,
     getUserPodStats uid st = (Ok stats, st)
     /\ getUserPods uid st = (Ok all, st)
     /\ ps_participated stats = length all
     /\ (forall p, p ∈ all <-> uid ∈ participant_ids p /\ exists k, pods st !! k = Some p)
     /\ (ps_created stats <= ps_participated stats)%nat
     /\ (ps_completed stats + ps_active stats <= ps_participated stats)%nat
     /\ (pods_wf st ->
         ps_created stats
         = length (List.filter (fun p => bool_decide (Pod.creatorId p = uid))
                     (map_to_list (pods st)).*2)))
  /\ (exists l r,
        getUserActivePods uid st = (Ok l, st)
        /\ getUserActivePod uid st = (Ok r, st)
        /\ (l = [] <-> r = None)).
Proof.
  set (rows := (map_to_list (pods st)).*2).
  set (mine := fun p : Pod => uid ∈ PodParticipant.userId <$> Pod.participants p).
  set (all := merge_sort later_created (filter mine rows)).
  split.
  - eexists _, all. split; [reflexivity|]. split; [reflexivity|]. simpl. fold rows mine all.
    split; [reflexivity|]. split; [intros p; apply user_pods_elem|].
    split; [apply filter_length_le|].
    split.
    { apply filter_disjoint_length. intros p Hp.
      apply bool_decide_eq_true in Hp. apply bool_decide_eq_false. congruence. }
    intros Hwf. unfold all.
    rewrite (filter_length_perm _ _ _ (merge_sort_Permutation later_created (filter mine rows))).
    apply filter_filter_length. intros p Hp Hc.
    apply bool_decide_eq_true in Hc. apply elem_of_rows in Hp as (k & Hk).
    destruct (Hwf k p Hk) as [_ (c & rest & Hl & Hcu & _)].
    unfold mine. rewrite Hl, fmap_cons, Hcu, Hc. apply list_elem_of_here.
  - eexists _, _. split; [reflexivity|]. split; [reflexivity|]. simpl. fold rows mine all.
    split.
    + intros Hnil. apply find_None_iff. intros p Hp.
      destruct ((bool_decide (Pod.status p = ACTIVE) || bool_decide (Pod.status p = WAITING))
                && is_participant uid p) eqn:Hf; [|reflexivity].
      apply andb_true_iff in Hf as [Hs Hin].
      assert (Hall : p ∈ all).
      { apply user_pods_elem. split; [now apply is_participant_spec|].
        now apply elem_of_rows. }
      assert (Hp' : In p (List.filter
                            (fun p => bool_decide (Pod.status p = WAITING)
                                      || bool_decide (Pod.status p = ACTIVE)) all)).
      { apply List.filter_In. split; [now apply list_elem_of_In|].
        now rewrite orb_comm. }
      rewrite Hnil in Hp'. destruct Hp'.
    + intros Hnone. apply list_filter_none. intros p Hp.
      apply list_elem_of_In, user_pods_elem in Hp as [Hin Hk].
      apply elem_of_rows in Hk.
      pose proof (proj1 (find_None_iff _ _) Hnone p Hk) as Hf. simpl in Hf.
      rewrite (proj2 (is_participant_spec uid p) Hin), andb_true_r in Hf.
      now rewrite orb_comm.
Qed.

Lemma X21_pod_counters_witness :
  exists stats,
    getUserPodStats "u1" (store_with_pod ACTIVE) = (Ok stats, store_with_pod ACTIVE)
    /\ ps_created stats = 1%nat.
Proof.
  destruct (X21_pod_counters "u1" (store_with_pod ACTIVE))
    as [(stats & all & E & _ & _ & _ & _ & _ & Hc) _].
  exists stats. split; [exact E|]. rewrite (Hc (store_with_pod_wf ACTIVE)).
  vm_compute. reflexivity.
Defined.

(** ** Completing a session from the bot *)

Lemma js_gt_10_percent a b : 0 < b -> js_gt (js_div a b) 0.1 = (b <? 10 * a).
Proof.
  intros Hb. unfold js_div. destruct (Z.eqb_spec b 0) as [->|_]; [lia|].
  unfold js_gt, Qle_bool, Qdiv, Qmult, Qinv, inject_Z.
  destruct b as [|p|p]; try lia. simpl Qnum. simpl Qden.
  rewrite Pos.mul_1_l.
  destruct (Z.ltb_spec (Z.pos p) (10 * a)) as [H|H];
    destruct (Z.leb_spec (a * 1 * 10) (1 * Z.pos p)) as [H'|H']; simpl; try reflexivity; lia.
Qed.

Lemma countdown_seconds r :
  0 <= r -> r / (60 * 1000) * 60 + Z.rem r (60 * 1000) / 1000 = r / 1000.
Proof.
  intros Hr. destruct (countdown_split r Hr) as (_ & _ & H1 & H2).
  apply Z.div_unique with (r := r - (r / (60 * 1000) * 60 + Z.rem r (60 * 1000) / 1000) * 1000);
    lia.
Qed.

Lemma ninety_percent_is_not_early s now :
  0 < PomodoroSession.duration s ->
  reaches_90_percent (actualMinutes_of s now) (PomodoroSession.duration s) = true ->
  10 * remaining_seconds s now <= PomodoroSession.duration s * 60.
Proof.
  intros Hd. unfold reaches_90_percent, actualMinutes_of, remaining_seconds.
  destruct (Z.eqb_spec (PomodoroSession.duration s) 0) as [|_]; [lia|].
  destruct (Z.ltb_spec 0 (PomodoroSession.duration s)) as [_|]; [|lia].
  intros H. apply Z.leb_le in H.
  set (d := PomodoroSession.duration s) in *.
  set (e := now - PomodoroSession.startTime s) in *.
  pose proof (Z.div_mod e 60000 ltac:(lia)) as H1.
  pose proof (Z.mod_pos_bound e 60000 ltac:(lia)) as H2.
  assert (Hr : Z.max 0 (PomodoroSession.startTime s + d * 60000 - now) <= 6000 * d)
    by (unfold e in *; lia).
  assert (Z.max 0 (PomodoroSession.startTime s + d * 60000 - now) / 1000 <= 6 * d).
  { apply Z.div_le_upper_bound; lia. }
  lia.
Qed.

(** X22. Completing a session from the bot.  For a stored, not yet
    completed session of positive planned duration, the handler flags
    the completion as early exactly when more than a tenth of the planned
    seconds remain, and passes that flag to [completeSession].  The
    session is then rewarded exactly when at most a tenth of the planned
    seconds remain: the 90 % test of the service never decides.  The
    handler does not compare the caller with the owner of the session,
    and the choice of the button has no influence on the reward: after
    'skipped' the reply says that nothing was granted even when the
    reward was paid. *)
Theorem X22_bot_completion_pays_by_remaining_time maxId caller sid action st s u :
  getUserByMaxId maxId st = (Ok (Some caller), st) ->
  sessions st !! sid = Some s ->
  PomodoroSession.completed s = false ->
  users st !! PomodoroSession.userId s = Some u ->
  0 <= User.currentStreak u ->
  0 < PomodoroSession.duration s ->
  let early := PomodoroSession.duration s * 60 <? 10 * remaining_seconds s (clock st) in
  exists r st' reply,
    completeSession sid (taskAction_of action) early st = (Ok r, st')
    /\ handleSessionComplete (Some maxId) sid action st = (reply, st')
    /\ cr_reward r
       = (if early then 0
          else if truthy_id (PomodoroSession.podId s) || (15 <=? User.currentStreak u)
               then 2 else 1)
    /\ (users st' !! User.id caller <> None -> action = "skipped" -> reply = SkippedReply).
Proof.
  intros Hcaller Hs Hc Hu Hstreak Hd early.
  destruct (completeSession_run sid (taskAction_of action) early st s u Hs Hc Hu)
    as (achs & st' & E & _).
  set (r := mkCompleteResult _ _ _ _) in E.
  assert (Hreward : cr_reward r
                    = if early then 0
                      else if truthy_id (PomodoroSession.podId s)
                              || (15 <=? User.currentStreak u) then 2 else 1).
  { simpl. unfold reward_of, rewarded, completionRate_of. rewrite js_ge_90_percent.
    destruct early eqn:He.
    - destruct (reaches_90_percent _ _) eqn:H90; [|reflexivity].
      apply (ninety_percent_is_not_early s (clock st) Hd) in H90.
      unfold early in He. apply Z.ltb_lt in He. lia.
    - rewrite orb_true_r. now apply session_reward_values. }
  assert (Hrun : exists reply,
             handleSessionComplete (Some maxId) sid action st = (reply, st')
             /\ (users st' !! User.id caller <> None -> action = "skipped" ->
                 reply = SkippedReply)).
  { unfold handleSessionComplete.
    rewrite (bind_ok _ _ _ _ _ Hcaller).
    rewrite (bind_ok _ _ st (Some (mkSessionInfo s _ _)) st)
      by (rewrite getSessionInfo_run, Hs, Hc; reflexivity).
    cbv beta iota zeta. cbn [si_session si_remainingMinutes si_remainingSeconds].
    rewrite Hc.
    rewrite countdown_seconds by lia.
    rewrite js_gt_10_percent by lia.
    replace (Z.max 0 (PomodoroSession.duration s * 60 * 1000
                      - (clock st - PomodoroSession.startTime s)) / 1000)
      with (remaining_seconds s (clock st))
      by (unfold remaining_seconds; f_equal; f_equal; lia).
    fold early. rewrite (bind_ok _ _ _ _ _ E).
    rewrite (bind_ok _ _ st' (users st' !! User.id caller) st') by reflexivity.
    destruct (users st' !! User.id caller) as [updated|] eqn:Hupd.
    - eexists. split; [reflexivity|]. intros _ ->. reflexivity.
    - eexists. split; [reflexivity|]. intros H. now destruct H. }
  destruct Hrun as (reply & Hh & Hskip).
  exists r, st', reply. repeat split; assumption.
Qed.

Lemma X22_bot_completion_witness :
  exists r st',
    completeSession "s1" (Some TA_SKIPPED) false (store_running 23) = (Ok r, st')
    /\ handleSessionComplete (Some "1001") "s1" "skipped" (store_running 23)
       = (SkippedReply, st')
    /\ cr_reward r = 1.
Proof.
  destruct (X22_bot_completion_pays_by_remaining_time "1001" alice "s1" "skipped"
              (store_running 23) session1 alice)
    as (r & st' & reply & E & Hh & Hr & Hskip).
  - vm_compute. reflexivity.
  - reflexivity.
  - reflexivity.
  - reflexivity.
  - vm_compute. discriminate.
  - vm_compute. reflexivity.
  - exists r, st'. split; [exact E|]. split; [|exact Hr].
    rewrite Hh. f_equal. apply Hskip; [|reflexivity].
    assert (Hst : st' = (completeSession "s1" (Some TA_SKIPPED) false (store_running 23)).2)
      by (change (taskAction_of "skipped") with (Some TA_SKIPPED) in E;
          change (_ <? _) with false in E; now rewrite E).
    rewrite Hst. vm_compute. discriminate.
Defined.

(** ** Starting a session *)





(** ** Closing a session *)

Lemma closing_frees_the_user st st' sid s s' :
  at_most_one_open st ->
  sessions st !! sid = Some s -> is_open s = true ->
  is_open s' = false ->
  sessions st' = <[sid := s']> (sessions st) ->
  ~ has_open_session (PomodoroSession.userId s) st'.
Proof.
  intros Hinv Hs Ho Hc Hses (i & x & Hi & Hu & Hox). rewrite Hses in Hi.
  apply lookup_insert_Some in Hi as [[_ <-]|[Hne Hi]]; [congruence|].
  apply Hne. symmetry. exact (Hinv i sid x s Hi Hs Hu Hox Ho).
Qed.

(** X24. [cancelSession] answers false for a missing session and
    changes nothing.  For a stored session it answers true, writes the
    current time as end time and clears the completed flag, and credits
    nothing: users, statistics, pods and notifications stay as they
    were.  Where every user has at most one open session, cancelling or
    completing a user's open session leaves that user without an open
    session. *)
Theorem X24_closing_a_session sid st :
  (sessions st !! sid = None -> cancelSession sid st = (Ok false, st))
  /\ (forall s,
        sessions st !! sid = Some s ->
        exists st',
          cancelSession sid st = (Ok true, st')
          /\ sessions st' = <[sid := cancelled_row s (clock st)]> (sessions st)
          /\ PomodoroSession.endTime (cancelled_row s (clock st)) = Some (clock st)
          /\ PomodoroSession.completed (cancelled_row s (clock st)) = false
          /\ PomodoroSession.reward (cancelled_row s (clock st)) = PomodoroSession.reward s
          /\ users st' = users st /\ user_stats st' = user_stats st
          /\ pods st' = pods st /\ notifications st' = notifications st
          /\ (at_most_one_open st -> is_open s = true ->
              ~ has_open_session (PomodoroSession.userId s) st'))
  /\ (forall s u action early,
        sessions st !! sid = Some s -> is_open s = true ->
        users st !! PomodoroSession.userId s = Some u ->
        at_most_one_open st ->
        exists r st',
          completeSession sid action early st = (Ok r, st')
          /\ ~ has_open_session (PomodoroSession.userId s) st').
Proof.
  split; [|split].
  - intros Hs. now rewrite cancelSession_run, Hs.
  - intros s Hs. rewrite cancelSession_run, Hs.
    eexists. split; [reflexivity|]. split; [reflexivity|].
    split; [now destruct s|]. split; [now destruct s|]. split; [now destruct s|].
    repeat (split; [reflexivity|]).
    intros Hinv Ho.
    apply (closing_frees_the_user st _ sid s (cancelled_row s (clock st)) Hinv Hs Ho);
      [now destruct s|reflexivity].
  - intros s u action early Hs Ho Hu Hinv.
    assert (Hc : PomodoroSession.completed s = false).
    { unfold is_open in Ho. apply andb_true_iff in Ho as [Ho _].
      now apply negb_true_iff in Ho. }
    destruct (completeSession_run sid action early st s u Hs Hc Hu)
      as (achs & st' & E & Hses & _).
    eexists _, st'. split; [exact E|].
    refine (closing_frees_the_user st st' sid s _ Hinv Hs Ho _ Hses).
    now destruct s.
Qed.

Lemma X24_closing_witness :
  (exists st', cancelSession "s1" (store_running 5) = (Ok true, st')
               /\ users st' = users (store_running 5)
               /\ ~ has_open_session "u1" st')
  /\ cancelSession "s2" (store_running 5) = (Ok false, store_running 5).
Proof.
  destruct (X24_closing_a_session "s1" (store_running 5)) as (_ & Hcancel & _).
  destruct (X24_closing_a_session "s2" (store_running 5)) as (Hmiss & _).
  split; [|apply Hmiss; reflexivity].
  destruct (Hcancel session1 eq_refl)
    as (st' & E & _ & _ & _ & _ & Hu & _ & _ & _ & Hfree).
  exists st'. split; [exact E|]. split; [exact Hu|].
  apply Hfree; [|reflexivity].
  intros i j s t Hi Hj _ _ _.
  unfold store_running in Hi, Hj. simpl in Hi, Hj.
  apply lookup_insert_Some in Hi as [[<- _]|[_ Hi]]; [|now rewrite lookup_empty in Hi].
  apply lookup_insert_Some in Hj as [[<- _]|[_ Hj]]; [|now rewrite lookup_empty in Hj].
  reflexivity.
Defined.

(** ** One live pod per user *)

Lemma live_kept_same st st' :
  pods st' = pods st -> one_live_pod_per_user st -> one_live_pod_per_user st'.
Proof. intros E H uid k1 k2 p1 p2. rewrite E. apply H. Qed.

Lemma live_kept_update st st' k p p' :
  pods st !! k = Some p ->
  pods st' = <[k := p']> (pods st) ->
  (is_live p' = true -> is_live p = true) ->
  (forall x, x ∈ participant_ids p' -> x ∈ participant_ids p \/ in_no_live_pod x st) ->
  one_live_pod_per_user st -> one_live_pod_per_user st'.
Proof.
  intros Hp E Hlive Hids Hinv uid k1 k2 p1 p2 H1 H2 L1 L2 U1 U2.
  rewrite E in H1, H2.
  apply lookup_insert_Some in H1 as [[<- <-]|[N1 H1]];
    apply lookup_insert_Some in H2 as [[<- <-]|[N2 H2]].
  - reflexivity.
  - destruct (Hids uid U1) as [Hin|Hno].
    + exact (Hinv uid k k2 p p2 Hp H2 (Hlive L1) L2 Hin U2).
    + destruct (Hno k2 p2 H2 L2 U2).
  - destruct (Hids uid U2) as [Hin|Hno].
    + exact (Hinv uid k1 k p1 p H1 Hp L1 (Hlive L2) U1 Hin).
    + destruct (Hno k1 p1 H1 L1 U1).
  - exact (Hinv uid k1 k2 p1 p2 H1 H2 L1 L2 U1 U2).
Qed.

Lemma live_kept_new st st' k p' :
  pods st !! k = None ->
  pods st' = <[k := p']> (pods st) ->
  (forall x, x ∈ participant_ids p' -> in_no_live_pod x st) ->
  one_live_pod_per_user st -> one_live_pod_per_user st'.
Proof.
  intros Hfree E Hids Hinv uid k1 k2 p1 p2 H1 H2 L1 L2 U1 U2.
  rewrite E in H1, H2.
  apply lookup_insert_Some in H1 as [[<- <-]|[N1 H1]];
    apply lookup_insert_Some in H2 as [[<- <-]|[N2 H2]].
  - reflexivity.
  - destruct (Hids uid U1 k2 p2 H2 L2 U2).
  - destruct (Hids uid U2 k1 p1 H1 L1 U1).
  - exact (Hinv uid k1 k2 p1 p2 H1 H2 L1 L2 U1 U2).
Qed.

Lemma startPod_keeps_live pid st :
  one_live_pod_per_user st -> one_live_pod_per_user (startPod pid st).2.
Proof.
  intros Hinv. destruct (startPod_guards pid st) as [_ Hguard].
  destruct (startPod_pods pid st) as [E|(pod & Hp & E)]; [exact (live_kept_same _ _ E Hinv)|].
  destruct (decide (Pod.status pod = WAITING)) as [Hs|Hs].
  2:{ rewrite (Hguard pod Hp Hs). exact Hinv. }
  apply (live_kept_update st _ pid pod _ Hp E); [| |exact Hinv].
  - intros _. unfold is_live. rewrite Hs. reflexivity.
  - intros x Hx. left. unfold participant_ids in *.
    destruct (started_pod_fields pod (clock st)) as (_ & _ & _ & F & _).
    now rewrite F in Hx.
Qed.

Lemma completePod_keeps_live pid st :
  one_live_pod_per_user st -> one_live_pod_per_user (completePod pid st).2.
Proof.
  intros Hinv. destruct (pods st !! pid) as [pod|] eqn:Hp.
  2:{ now rewrite (completePod_missing _ _ Hp). }
  destruct (decide (Pod.status pod = ACTIVE)) as [Hs|Hs].
  2:{ now rewrite (completePod_guard _ _ _ Hp Hs). }
  rewrite (completePod_active _ _ _ Hp Hs).
  set (st1 := set_pods _ st).
  pose proof (for_each_same_tables _ (Pod.participants pod)
                (fun q s => note_body_same_tables (completed_note pod (clock st)) q s)
                st1) as Ht.
  assert (H1 : one_live_pod_per_user st1).
  { refine (live_kept_update st st1 pid pod _ Hp eq_refl _ _ Hinv).
    - intros H. now destruct pod.
    - intros x Hx. left. now destruct pod. }
  destruct (for_each _ _ st1) as [[[]|e] st']; simpl in *;
    destruct Ht as (_ & _ & Hpods & _); exact (live_kept_same _ _ Hpods H1).
Qed.

Lemma cancelPod_keeps_live pid st :
  one_live_pod_per_user st -> one_live_pod_per_user (cancelPod pid st).2.
Proof.
  intros Hinv. destruct (pods st !! pid) as [pod|] eqn:Hp.
  2:{ unfold cancelPod.
      rewrite (bind_ok _ _ st None st) by (unfold getPod; now rewrite Hp). exact Hinv. }
  rewrite (cancelPod_run _ _ _ Hp).
  set (st1 := set_pods _ st).
  pose proof (for_each_same_tables _ (guests pod)
                (fun q s => note_body_same_tables (cancelled_note pod (clock st)) q s)
                st1) as Ht.
  assert (H1 : one_live_pod_per_user st1).
  { refine (live_kept_update st st1 pid pod _ Hp eq_refl _ _ Hinv).
    - intros H. now destruct pod.
    - intros x Hx. left. now destruct pod. }
  destruct (for_each _ _ st1) as [[[]|e] st']; simpl in *;
    destruct Ht as (_ & _ & Hpods & _); exact (live_kept_same _ _ Hpods H1).
Qed.

Lemma read_only_session_guard user st :
  exists r, ensureNoActivePomodoroSession user st = (Ok r, st).
Proof.
  unfold ensureNoActivePomodoroSession.
  destruct (getActiveSession_spec (User.id user) st) as (o & E & _).
  rewrite (bind_ok _ _ _ _ _ E). destruct o as [s|]; [|now eexists].
  assert (Hi : exists i, getSessionInfo (PomodoroSession.id s) st = (Ok i, st)).
  { rewrite getSessionInfo_run. destruct (sessions st !! _) as [x|]; [|now eexists].
    destruct (PomodoroSession.completed x); now eexists. }
  destruct Hi as (i & Hi). rewrite (bind_ok _ _ _ _ _ Hi). now eexists.
Qed.

Lemma read_only_pod_guard user exclude st :
  exists r, ensureNoActivePod user exclude st = (Ok r, st)
            /\ (exclude = None -> r = None -> in_no_live_pod (User.id user) st).
Proof.
  unfold ensureNoActivePod, getUserActivePod.
  erewrite bind_ok by (erewrite bind_ok by reflexivity; reflexivity).
  destruct (List.find _ _) as [p|] eqn:Hf.
  - destruct (bool_decide_reflect (Some (Pod.id p) = exclude)) as [He|He].
    + exists None. split; [reflexivity|]. intros ->. discriminate.
    + exists (Some p). split; [reflexivity|]. discriminate.
  - exists None. split; [reflexivity|]. intros _ _ k p Hk Hl Hin.
    pose proof (proj1 (find_None_iff _ _) Hf p (proj2 (elem_of_rows _ _) (ex_intro _ k Hk)))
      as Hno.
    simpl in Hno. unfold is_live in Hl.
    rewrite Hl, (proj2 (is_participant_spec _ _) Hin) in Hno. discriminate.
Qed.

Lemma handlePodStart_store ctxUserId pid st :
  (handlePodStart ctxUserId pid st).2 = st
  \/ (handlePodStart ctxUserId pid st).2 = (startPod pid st).2.
Proof.
  unfold handlePodStart, answer, with_user.
  destruct ctxUserId as [m|]; [|now left].
  erewrite bindP_done by (apply call_ok; reflexivity).
  destruct (List.find _ _) as [user|]; [|now left].
  erewrite bindP_done by (apply call_ok; reflexivity).
  destruct (pods st !! pid) as [pod|]; [|now left].
  destruct (bool_decide _); [now left|].
  destruct (read_only_session_guard user st) as (r1 & E1).
  erewrite bindP_done by (apply call_ok; exact E1).
  destruct r1; [now left|].
  destruct (read_only_pod_guard user (Some pid) st) as (r2 & E2 & _).
  erewrite bindP_done by (apply call_ok; exact E2).
  destruct r2; [now left|].
  right. unfold bindP. now destruct (startPod pid st) as [[x|e] st'].
Qed.

Lemma handlePodCancel_store ctxUserId pid st :
  (handlePodCancel ctxUserId pid st).2 = st
  \/ (handlePodCancel ctxUserId pid st).2 = (cancelPod pid st).2.
Proof.
  unfold handlePodCancel, answer, with_user.
  destruct ctxUserId as [m|]; [|now left].
  erewrite bindP_done by (apply call_ok; reflexivity).
  destruct (List.find _ _) as [user|]; [|now left].
  erewrite bindP_done by (apply call_ok; reflexivity).
  destruct (pods st !! pid) as [pod|]; [|now left].
  destruct (bool_decide _); [now left|].
  right. unfold bindP, call. now destruct (cancelPod pid st) as [[x|e] st'].
Qed.

Lemma handlePodDuration_store bot ctxUserId duration st :
  (handlePodDuration bot ctxUserId duration st).2 = st
  \/ exists user,
       in_no_live_pod (User.id user) st
       /\ (handlePodDuration bot ctxUserId duration st).2
          = (createPod bot (User.id user) (User.name user) duration
               (Some ("Фокус-Pod от " +:+ User.name user)) st).2.
Proof.
  unfold handlePodDuration, answer, with_user.
  destruct ctxUserId as [m|]; [|now left].
  erewrite bindP_done by (apply call_ok; reflexivity).
  destruct (List.find _ _) as [user|]; [|now left].
  destruct (read_only_session_guard user st) as (r1 & E1).
  erewrite bindP_done by (apply call_ok; exact E1).
  destruct r1; [now left|].
  destruct (read_only_pod_guard user None st) as (r2 & E2 & Hfree).
  erewrite bindP_done by (apply call_ok; exact E2).
  destruct r2; [now left|].
  right. exists user. split; [now apply Hfree|].
  unfold bindP, call. now destruct (createPod _ _ _ _ _ st) as [[x|e] st'].
Qed.

Lemma processPodJoinByCode_store user inviteCode st :
  (processPodJoinByCode user inviteCode st).2 = st
  \/ exists pid,
       in_no_live_pod (User.id user) st
       /\ (processPodJoinByCode user inviteCode st).2
          = (joinPod pid (User.id user) (User.name user) st).2.
Proof.
  unfold processPodJoinByCode, answer.
  destruct inviteCode as [code|]; [|now left].
  destruct (read_only_session_guard user st) as (r1 & E1).
  erewrite bindP_done by (apply call_ok; exact E1).
  destruct r1; [now left|].
  destruct (read_only_pod_guard user None st) as (r2 & E2 & Hfree).
  erewrite bindP_done by (apply call_ok; exact E2).
  destruct r2; [now left|].
  erewrite bindP_done by (apply call_ok; reflexivity).
  destruct (List.find _ _) as [pod|]; [|now left].
  destruct (is_participant (User.id user) pod); [now left|].
  right. exists (Pod.id pod). split; [now apply Hfree|].
  unfold bindP. now destruct (joinPod _ _ _ st) as [[x|e] st'].
Qed.

Lemma createPod_keeps_live bot creatorId creatorName duration title st :
  in_no_live_pod creatorId st ->
  one_live_pod_per_user st ->
  one_live_pod_per_user (createPod bot creatorId creatorName duration title st).2.
Proof.
  intros Hfree Hinv.
  pose proof (createPod_run bot creatorId creatorName duration title st) as H. simpl in H.
  destruct (_ && _) eqn:Hc.
  - destruct H as (st' & E & Hp). rewrite E. simpl.
    apply andb_true_iff in Hc as [Hc _]. apply andb_true_iff in Hc as [Hk _].
    apply bool_decide_eq_true in Hk.
    apply (live_kept_new st st' _ _ Hk Hp); [|exact Hinv].
    intros x Hx. unfold participant_ids in Hx. simpl in Hx.
    apply list_elem_of_singleton in Hx. now subst x.
  - rewrite H. exact Hinv.
Qed.

Lemma joinPod_keeps_live pid uid name st :
  in_no_live_pod uid st ->
  one_live_pod_per_user st ->
  one_live_pod_per_user (joinPod pid uid name st).2.
Proof.
  intros Hfree Hinv. rewrite joinPod_run.
  destruct (pods st !! pid) as [pod|] eqn:Hp; [|exact Hinv].
  destruct (bool_decide (Pod.status pod <> WAITING)); [exact Hinv|].
  destruct (is_participant uid pod); [exact Hinv|].
  set (pod' := with_participants pod _).
  assert (Hupd : forall st', pods st' = <[pid := pod']> (pods st) ->
                             one_live_pod_per_user st').
  { intros st' E. apply (live_kept_update st st' pid pod pod' Hp E); [| |exact Hinv].
    - intros H. now destruct pod.
    - intros x Hx. unfold participant_ids in Hx.
      replace (Pod.participants pod')
        with (Pod.participants pod ++ [joiner uid name (clock st)]) in Hx
        by now destruct pod.
      rewrite fmap_app in Hx. apply elem_of_app in Hx as [Hx|Hx]; [now left|].
      right. simpl in Hx. apply list_elem_of_singleton in Hx. now subst x. }
  cbv zeta. destruct (bool_decide _); apply Hupd; reflexivity.
Qed.

(** X25. Through the pod handlers of the bot no user ever becomes a
    participant of two live (WAITING or ACTIVE) pods: choosing a
    duration (which creates a pod), entering an invite code, pressing
    start or cancel, and the completion timer each keep that property,
    whatever their arguments and whether they succeed or fail.  The
    property rests on the guards of the handlers: [joinPod] itself lets
    a user who waits in one pod join another. *)
Theorem X25_bot_keeps_one_live_pod_per_user :
  (forall e st, one_live_pod_per_user st -> one_live_pod_per_user (run_pod_event e st))
  /\ one_live_pod_per_user store_two_pods
  /\ ~ one_live_pod_per_user (joinPod "p2" "u2" "Bob" store_two_pods).2.
Proof.
  split; [|split].
  - intros e st Hinv. destruct e as [bot c d|user code|c pid|pid|c pid]; simpl.
    + destruct (handlePodDuration_store bot c d st) as [->|(user & Hfree & ->)];
        [exact Hinv|]. now apply createPod_keeps_live.
    + destruct (processPodJoinByCode_store user code st) as [->|(pid & Hfree & ->)];
        [exact Hinv|]. now apply joinPod_keeps_live.
    + destruct (handlePodStart_store c pid st) as [->| ->];
        [exact Hinv|]. now apply startPod_keeps_live.
    + now apply completePod_keeps_live.
    + destruct (handlePodCancel_store c pid st) as [->| ->];
        [exact Hinv|]. now apply cancelPod_keeps_live.
  - intros uid k1 k2 p1 p2 H1 H2 _ _ U1 U2.
    unfold store_two_pods, store_with_pod in H1, H2. simpl in H1, H2.
    apply lookup_insert_Some in H1 as [[<- <-]|[_ H1]];
      apply lookup_insert_Some in H2 as [[<- <-]|[_ H2]]; try reflexivity.
    + apply lookup_insert_Some in H2 as [[<- <-]|[_ H2]]; [|now rewrite lookup_empty in H2].
      exfalso. apply list_elem_of_In in U1, U2. simpl in U1, U2.
      destruct U1 as [<-|[]]. destruct U2 as [U2|[U2|[]]]; discriminate.
    + apply lookup_insert_Some in H1 as [[<- <-]|[_ H1]]; [|now rewrite lookup_empty in H1].
      exfalso. apply list_elem_of_In in U1, U2. simpl in U1, U2.
      destruct U2 as [<-|[]]. destruct U1 as [U1|[U1|[]]]; discriminate.
    + apply lookup_insert_Some in H1 as [[<- _]|[_ H1]]; [|now rewrite lookup_empty in H1].
      apply lookup_insert_Some in H2 as [[<- _]|[_ H2]]; [|now rewrite lookup_empty in H2].
      reflexivity.
  - intros H.
    assert (E : "p1" = "p2"); [|discriminate].
    apply (H "u2" "p1" "p2" (pod1 WAITING)
             (with_participants pod2
                (Pod.participants pod2 ++ [joiner "u2" "Bob" (clock store_two_pods)])));
      try (vm_compute; reflexivity).
    + apply list_elem_of_In. simpl. right. left. reflexivity.
    + apply list_elem_of_In. simpl. right. left. reflexivity.
Qed.

Lemma X25_bot_one_live_pod_witness :
  one_live_pod_per_user
    (run_pod_event (PodCodeEntered bob (Some "000000FF")) store_two_pods)
  /\ (processPodJoinByCode bob (Some "000000FF") store_two_pods).1
     = BusyWithPod (pod1 WAITING).
Proof.
  destruct X25_bot_keeps_one_live_pod_per_user as (Hkeep & Hinv & _).
  split; [exact (Hkeep _ _ Hinv)|]. vm_compute. reflexivity.
Defined.

(** ** The scheduled jobs *)

Lemma sendNotification_ok uid type message st :
  is_Some (users st !! uid) ->
  sendNotification uid type message st
  = (Ok tt,
     set_notifications
       (fun l => l ++ [Notification.mk (rng_uuid st (rng_pos st)) uid type message
                         (clock st) false])
       (advance_rng st)).
Proof.
  intros Hu. unfold sendNotification.
  erewrite bind_ok by reflexivity. erewrite bind_ok by reflexivity.
  erewrite bind_ok by (apply createNotification_ok; exact Hu). reflexivity.
Qed.

Lemma job_loop (body : User -> M unit) (sel : Store -> User -> bool)
    (type : NotificationType) (msg : Store -> User -> string) (l : list User) :
  (forall u st,
     body u st = if sel st u then sendNotification (User.id u) type (msg st u) st
                 else (Ok tt, st)) ->
  (forall st st' u, same_tables st st' -> sel st' u = sel st u) ->
  forall st,
    (forall u, u ∈ l -> is_Some (users st !! User.id u)) ->
    exists st' notes,
      for_each l body st = (Ok tt, st')
      /\ same_tables st st'
      /\ notifications st' = notifications st ++ notes
      /\ Notification.userId <$> notes = User.id <$> List.filter (sel st) l
      /\ Forall (fun n => Notification.type n = type
                          /\ Notification.sentAt n = clock st
                          /\ Notification.read n = false) notes.
Proof.
  intros Hbody Hsel. induction l as [|u l IH]; intros st Hl.
  - exists st, []. simpl. rewrite app_nil_r. repeat split. constructor.
  - assert (Hl' : forall x, x ∈ l -> is_Some (users st !! User.id x))
      by (intros x Hx; apply Hl; now right).
    simpl for_each. simpl List.filter.
    destruct (sel st u) eqn:Hu.
    + set (n := Notification.mk (rng_uuid st (rng_pos st)) (User.id u) type (msg st u)
                  (clock st) false).
      set (st1 := set_notifications (fun l => l ++ [n]) (advance_rng st)).
      assert (E1 : body u st = (Ok tt, st1)).
      { rewrite Hbody, Hu. apply sendNotification_ok, Hl, list_elem_of_here. }
      assert (Hsame : same_tables st st1) by (repeat split).
      destruct (IH st1 Hl') as (st' & notes & E & Ht & Hn & Hids & Hall).
      exists st', (n :: notes).
      split; [rewrite (bind_ok _ _ _ _ _ E1); exact E|].
      split; [exact (same_tables_trans _ _ _ Hsame Ht)|].
      split; [rewrite Hn; simpl; now rewrite <- app_assoc|].
      split.
      * rewrite !fmap_cons, Hids. f_equal. f_equal.
        apply List.filter_ext. intros x. now apply Hsel.
      * constructor; [repeat split|exact Hall].
    + assert (E1 : body u st = (Ok tt, st)) by now rewrite Hbody, Hu.
      destruct (IH st Hl') as (st' & notes & E & Ht & Hn & Hids & Hall).
      exists st', notes. split; [rewrite (bind_ok _ _ _ _ _ E1); exact E|].
      split; [exact Ht|]. split; [exact Hn|]. split; [exact Hids|exact Hall].
Qed.

Lemma sent_since_app st st' notes :
  notifications st' = notifications st ++ notes -> sent_since st st' = notes.
Proof. intros E. unfold sent_since. rewrite E. apply drop_app_length. Qed.

Lemma same_tables_stats st st' u :
  same_tables st st' -> user_stats st' !! User.id u = user_stats st !! User.id u.
Proof. intros (_ & _ & _ & E & _). now rewrite E. Qed.

(** X26. The three scheduled notification jobs, where user rows are
    stored under their id.  None of them fails or changes anything but
    the notification log.  [sendDailyReminders] writes one
    DAILY_REMINDER to every user without a pomodoro counted today;
    [sendStreakWarnings] writes one STREAK_WARNING to every user with a
    positive streak who was last active on another day and has no
    pomodoro counted today; [sendWeeklyStats] writes one WEEKLY_STATS to
    every user whose row counts a pomodoro this week.  Right after
    [resetDailyStats] the daily reminder goes to every user. *)
Theorem X26_scheduled_jobs_pick_their_users st :
  users_keyed st ->
  job_sends st sendDailyReminders reminded DAILY_REMINDER
  /\ job_sends st sendStreakWarnings warned STREAK_WARNING
  /\ job_sends st sendWeeklyStats reported WEEKLY_STATS
  /\ (forall st1 u,
        resetDailyStats st = (Ok tt, st1) -> u ∈ (map_to_list (users st)).*2 ->
        reminded st1 u = true).
Proof.
  intros Hk. set (everyone := (map_to_list (users st)).*2). unfold job_sends.
  fold everyone.
  assert (Hl : forall u, u ∈ everyone -> is_Some (users st !! User.id u)).
  { intros u Hu. apply (keyed_user_ids st _ Hk). now apply list_elem_of_fmap_2. }
  assert (Hjob : forall (job : M unit) (body : User -> M unit)
                        (sel : Store -> User -> bool)
                        (type : NotificationType) (msg : Store -> User -> string),
             job st = for_each everyone body st ->
             (forall u s,
                body u s = if sel s u then sendNotification (User.id u) type (msg s u) s
                           else (Ok tt, s)) ->
             (forall s s' u, same_tables s s' -> sel s' u = sel s u) ->
             exists st',
               job st = (Ok tt, st')
               /\ same_tables st st'
               /\ Notification.userId <$> sent_since st st'
                  = User.id <$> List.filter (sel st) everyone
               /\ Forall (fun n => Notification.type n = type) (sent_since st st')).
  { intros job body sel type msg Hrun Hbody Hsel.
    destruct (job_loop body sel type msg everyone Hbody Hsel st Hl)
      as (st' & notes & E & Ht & Hn & Hids & Hall).
    exists st'. rewrite (sent_since_app _ _ _ Hn).
    split; [now rewrite Hrun|]. split; [exact Ht|]. split; [exact Hids|].
    eapply Forall_impl; [exact Hall|]. now intros n (H & _). }
  split; [|split; [|split]].
  - eapply (Hjob sendDailyReminders _ reminded DAILY_REMINDER
              (fun s u => "Привет! У тебя "
                            +:+ pretty (match user_stats s !! User.id u with
                                        | Some stats => UserStats.todayPomodoros stats
                                        | None => 0
                                        end)
                            +:+ " Pomodoro сегодня. Может, начнёшь? 🚀")).
    + unfold sendDailyReminders. erewrite bind_ok by reflexivity. reflexivity.
    + intros u s. cbv beta. erewrite bind_ok by reflexivity.
      unfold reminded, idle_today.
      destruct (user_stats s !! User.id u) as [stats|]; [destruct (bool_decide _)|];
        reflexivity.
    + intros s s' u Hs. unfold reminded, idle_today. now rewrite (same_tables_stats _ _ _ Hs).
  - eapply (Hjob sendStreakWarnings _ warned STREAK_WARNING
              (fun s u => "⚠️ Твоя серия в опасности! " +:+ pretty (User.currentStreak u)
                            +:+ " дней 🔥 Осталось " +:+ pretty (24 - getHours (clock st))
                            +:+ " часов до конца дня.")).
    + unfold sendStreakWarnings. erewrite bind_ok by reflexivity.
      erewrite bind_ok by reflexivity. reflexivity.
    + intros u s. cbv beta. unfold warned, idle_today.
      destruct (0 <? User.currentStreak u); [|reflexivity].
      erewrite bind_ok by reflexivity. simpl andb.
      destruct (bool_decide _); [|reflexivity].
      erewrite bind_ok by reflexivity. simpl andb.
      destruct (user_stats s !! User.id u) as [stats|]; [destruct (bool_decide _)|];
        reflexivity.
    + intros s s' u Hs. unfold warned, idle_today.
      rewrite (same_tables_stats _ _ _ Hs).
      destruct Hs as (_ & _ & _ & _ & Hc & _). now rewrite Hc.
  - eapply (Hjob sendWeeklyStats _ reported WEEKLY_STATS
              (fun s u =>
                 match user_stats s !! User.id u with
                 | Some stats =>
                     "📊 Статистика за неделю:" +:+ newline
                       +:+ "🎯 Pomodoro: " +:+ pretty (UserStats.weekPomodoros stats)
                       +:+ newline
                       +:+ "⏱️ Фокуса: " +:+ pretty (UserStats.weekFocusMinutes stats / 60)
                       +:+ "ч " +:+ pretty (Z.rem (UserStats.weekFocusMinutes stats) 60)
                       +:+ "мин" +:+ newline
                       +:+ "✅ Задач: " +:+ pretty (UserStats.weekTasksCompleted stats)
                       +:+ newline
                       +:+ "🪙 FocusCoins: +" +:+ pretty (UserStats.weekFocusCoins stats)
                       +:+ newline +:+ newline
                       +:+ "Отличная работа! Так держать! 💪"
                 | None => EmptyString
                 end)).
    + unfold sendWeeklyStats. erewrite bind_ok by reflexivity. reflexivity.
    + intros u s. cbv beta. erewrite bind_ok by reflexivity.
      unfold reported.
      destruct (user_stats s !! User.id u) as [stats|]; [destruct (0 <? _)|]; reflexivity.
    + intros s s' u Hs. unfold reported. now rewrite (same_tables_stats _ _ _ Hs).
  - intros st1 u E Hu.
    destruct (reset_loop
                (fun stats =>
                   UserStats.mk (UserStats.userId stats) (UserStats.weekPomodoros stats)
                     (UserStats.weekFocusMinutes stats) (UserStats.weekTasksCompleted stats)
                     (UserStats.weekFocusCoins stats) 0 0)
                reset_today everyone
                (fun _ _ => eq_refl) (fun _ _ => eq_refl) st Hl)
      as (st' & E' & _ & Hrows).
    unfold resetDailyStats in E. erewrite bind_ok in E by reflexivity.
    fold everyone in E. rewrite E' in E. inversion E. subst st'.
    unfold reminded, idle_today. rewrite Hrows.
    rewrite bool_decide_eq_true_2 by now apply list_elem_of_fmap_2.
    destruct (user_stats st !! User.id u); reflexivity.
Qed.

Lemma X26_scheduled_jobs_witness :
  exists st',
    sendDailyReminders store_with_stats = (Ok tt, st')
    /\ length (sent_since store_with_stats st') = 2%nat
    /\ "u1" ∉ Notification.userId <$> sent_since store_with_stats st'.
Proof.
  destruct (X26_scheduled_jobs_pick_their_users store_with_stats store0_users_keyed)
    as ((st' & E & _ & Hids & _) & _).
  exists st'. split; [exact E|].
  assert (Hsel : User.id <$> List.filter (reminded store_with_stats)
                               (map_to_list (users store_with_stats)).*2
                 ≡ₚ ["u2"; "u3"]).
  { vm_compute. first [reflexivity | apply perm_swap]. }
  rewrite <- Hids in Hsel. split.
  - rewrite <- (length_fmap Notification.userId). now rewrite Hsel.
  - rewrite Hsel. intros H. apply list_elem_of_In in H. simpl in H.
    destruct H as [H|[H|[]]]; discriminate.
Defined.

(** ** Tasks *)

Lemma bindT_ok {A B} (m : T A) (k : A -> T B) d a d1 :
  m d = (Ok a, d1) -> bindT m k d = k a d1.
Proof. intros H. unfold bindT. now rewrite H. Qed.

Lemma on_store_ok {A} (m : M A) d a st1 :
  m (store d) = (Ok a, st1) -> on_store m d = (Ok a, mkDesk st1 (tasks d)).
Proof. intros H. unfold on_store. now rewrite H. Qed.

Lemma checkAchievements_account uid st u :
  users st !! uid = Some u ->
  exists st' u',
    checkAchievements uid st
      = (Ok (Achievement.id <$> List.filter (eligible (pods st) u) ACHIEVEMENTS), st')
    /\ users st' !! uid = Some u'
    /\ User.focusCoins u'
       = User.focusCoins u + total_reward (List.filter (eligible (pods st) u) ACHIEVEMENTS)
    /\ strip u' = strip u
    /\ frame st' = frame st.
Proof.
  intros Hu.
  destruct (checkAchievements_loop_account uid u ACHIEVEMENTS [] st u
              catalog_ids_NoDup catalog_find_self Hu (fun _ _ H => H))
    as (st' & u' & E & Hu' & _ & Hcoins & _ & F).
  destruct (frame_user _ _ _ _ F Hu) as (u1 & Hu1 & Hstrip).
  assert (u1 = u') by congruence. subst u1.
  exists st', u'. split; [|auto].
  unfold checkAchievements.
  rewrite (bind_ok _ _ st (Some u) st) by (unfold getUser; now rewrite Hu).
  rewrite (bind_ok _ _ st u st) by reflexivity. exact E.
Qed.

(** X27. [completeTask] answers nothing for a missing task and changes
    nothing.  For a stored task of a stored user it marks the task
    completed at the current time, adds one to the user's completed
    tasks and two coins to the balance, and then runs the achievement
    sweep, which adds the rewards of what it unlocks.  It does not look
    at the completed flag: completing a task that is already completed
    counts and pays again. *)
Theorem X27_completeTask_always_pays tid d :
  (tasks d !! tid = None -> completeTask tid d = (Ok None, d))
  /\ (forall t u,
        tasks d !! tid = Some t ->
        users (store d) !! Task.userId t = Some u ->
        exists d' u',
          completeTask tid d = (Ok (Some (completed_task t (clock (store d)))), d')
          /\ tasks d' = <[tid := completed_task t (clock (store d))]> (tasks d)
          /\ Task.completed (completed_task t (clock (store d))) = true
          /\ Task.completedAt (completed_task t (clock (store d))) = Some (clock (store d))
          /\ users (store d') !! Task.userId t = Some u'
          /\ User.completedTasks u' = User.completedTasks u + 1
          /\ User.focusCoins u'
             = User.focusCoins u + 2
               + total_reward
                   (List.filter (eligible (pods (store d)) (task_credited u)) ACHIEVEMENTS)
          /\ sessions (store d') = sessions (store d)
          /\ pods (store d') = pods (store d)).
Proof.
  split.
  - intros Ht. unfold completeTask.
    rewrite (bindT_ok _ _ d None d) by (unfold db_getTask; now rewrite Ht). reflexivity.
  - intros t u Ht Hu. unfold completeTask.
    rewrite (bindT_ok _ _ d (Some t) d) by (unfold db_getTask; now rewrite Ht).
    erewrite bindT_ok by (apply on_store_ok; reflexivity).
    set (now := clock (store d)).
    set (t' := completed_task t now).
    set (d1 := mkDesk (store d) (insert tid t' (tasks d))).
    rewrite (bindT_ok _ _ _ (Some t') d1)
      by (unfold db_updateTask; destruct d; simpl in *; now rewrite Ht).
    rewrite (bindT_ok _ _ d1 (Some u) d1)
      by (apply (on_store_ok (getUser _) d1); unfold getUser; simpl; now rewrite Hu).
    set (uid := Task.userId t) in *.
    set (u1 := apply_user_update u (SetCompletedTasks (User.completedTasks u + 1))).
    set (st1 := set_users (insert uid u1) (store d)).
    rewrite (bindT_ok _ _ d1 (Some u1) (mkDesk st1 (tasks d1)))
      by (apply (on_store_ok _ d1);
          exact (updateUser_some uid (SetCompletedTasks (User.completedTasks u + 1)) []
                   (store d) u Hu)).
    assert (Hu1 : users st1 !! uid = Some u1) by apply lookup_insert_eq.
    set (st2 := set_users (insert uid (task_credited u)) st1).
    rewrite (bindT_ok _ _ _ (User.focusCoins u1 + 2) (mkDesk st2 (tasks d1))).
    2:{ apply (on_store_ok _ (mkDesk st1 (tasks d1))). simpl store.
        rewrite (awardFocusCoins_spec uid 2 st1 u1 Hu1). f_equal.
        unfold st2, task_credited, u1. now destruct u. }
    assert (Hu2 : users st2 !! uid = Some (task_credited u)) by apply lookup_insert_eq.
    destruct (checkAchievements_account uid st2 _ Hu2)
      as (st3 & u' & E3 & Hu3 & Hcoins & Hstrip & F3).
    rewrite (bindT_ok _ _ _ _ (mkDesk st3 (tasks d1)))
      by (apply (on_store_ok _ (mkDesk st2 (tasks d1))); exact E3).
    exists (mkDesk st3 (tasks d1)), u'.
    split; [reflexivity|]. split; [reflexivity|].
    split; [now destruct t|]. split; [now destruct t|].
    split; [exact Hu3|].
    apply strip_fields in Hstrip as (_ & _ & _ & Htasks & _).
    split; [rewrite Htasks; now destruct u|].
    split; [rewrite Hcoins; change (pods st2) with (pods (store d)); now destruct u|].
    split; [exact (frame_sessions _ _ F3)|exact (frame_pods _ _ F3)].
Qed.

Lemma X27_completeTask_witness :
  Task.completed <$> tasks desk_done !! "t1" = Some true
  /\ exists d' u',
       (completeTask "t1" desk_done).2 = d'
       /\ users (store d') !! "u1" = Some u'
       /\ User.completedTasks u' = 1
       /\ User.focusCoins u' = 2.
Proof.
  split; [reflexivity|].
  destruct (X27_completeTask_always_pays "t1" desk_done) as [_ H].
  destruct (H _ alice eq_refl eq_refl) as (d' & u' & E & _ & _ & _ & Hu & Ht & Hc & _).
  exists d', u'. split; [now rewrite E|]. split; [exact Hu|].
  split; [exact Ht|]. rewrite Hc. vm_compute. reflexivity.
Defined.

(** ** Sessions under the pod service *)

Lemma createPod_sessions bot creatorId creatorName duration title st :
  sessions (createPod bot creatorId creatorName duration title st).2 = sessions st.
Proof.
  unfold createPod.
  erewrite bind_ok by reflexivity.
  erewrite bind_ok by reflexivity.
  erewrite bind_ok by reflexivity.
  set (pod := Pod.mk _ _ _ _ _ _ _ _ _ _ _).
  set (st2 := advance_rng (advance_rng st)).
  unfold bind at 1. unfold db_createPod.
  destruct (_ && _) eqn:Hc; [|reflexivity].
  apply andb_true_iff in Hc as [_ Hu]. apply bool_decide_eq_true in Hu as [u Hu].
  set (st3 := set_pods _ st2).
  destruct (checkAchievements_spec creatorId st3 u Hu) as (st4 & E4 & F4).
  erewrite bind_ok by exact E4. simpl. exact (frame_sessions _ _ F4).
Qed.

Lemma start_body_keeps_one_open pid dur q s :
  at_most_one_open s ->
  at_most_one_open
    ((_ <~ call (startSession (PodParticipant.userId q) (Some dur) (Some pid)) ;;
      retP tt) s).2.
Proof.
  intros H.
  pose proof (proj1 (session_calls_keep_invariant s H) (PodParticipant.userId q)
                (Some dur) (Some pid)) as H1.
  unfold bindP, call.
  now destruct (startSession (PodParticipant.userId q) (Some dur) (Some pid) s)
    as [[x|e] s'].
Qed.

Lemma startPod_keeps_one_open pid st :
  at_most_one_open st -> at_most_one_open (startPod pid st).2.
Proof.
  intros Hinv. destruct (startPod_guards pid st) as [Hmiss Hguard].
  destruct (pods st !! pid) as [pod|] eqn:Hp.
  2:{ now rewrite (Hmiss eq_refl). }
  destruct (decide (Pod.status pod = WAITING)) as [Hs|Hs].
  2:{ now rewrite (Hguard pod eq_refl Hs). }
  pose proof (startPod_run pid st pod Hp Hs) as Hrun. simpl in Hrun.
  pose proof (for_eachP_inv (fun a b => at_most_one_open a -> at_most_one_open b)
                (fun q => _ <~ call (startSession (PodParticipant.userId q)
                                       (Some (Pod.duration pod)) (Some pid)) ;;
                          retP tt)
                (Pod.participants pod)
                (fun _ H => H) (fun _ _ _ H1 H2 H => H2 (H1 H))
                (fun q s => start_body_keeps_one_open pid (Pod.duration pod) q s)
                (set_pods (insert pid (started_pod pod (clock st))) st) Hinv) as Hloop.
  destruct (for_eachP (Pod.participants pod) _ _) as [[[]|e] st2]; simpl in Hloop.
  - destruct Hrun as (r & st3 & E & (_ & Hses & _) & _). rewrite E. simpl.
    exact (at_most_one_open_same _ _ Hses Hloop).
  - now rewrite Hrun.
Qed.

(** X28. The pod service keeps the open-session invariant of the
    session manager.  Every pod operation but [startPod] leaves the
    session table as it was, and [startPod], which opens a session for
    each participant, keeps every user at one open session at most,
    whether it succeeds or throws half-way.  The same holds for the pod
    handlers of the bot. *)
Theorem X28_pods_keep_one_open_session st :
  (forall c, (forall pid, c <> StartPod pid) -> sessions (run_pod_call c st) = sessions st)
  /\ (at_most_one_open st ->
      (forall c, at_most_one_open (run_pod_call c st))
      /\ (forall e, at_most_one_open (run_pod_event e st))).
Proof.
  assert (Hcomplete : forall pid, sessions (completePod pid st).2 = sessions st).
  { intros pid. destruct (pods st !! pid) as [pod|] eqn:Hp.
    2:{ now rewrite (completePod_missing _ _ Hp). }
    destruct (decide (Pod.status pod = ACTIVE)) as [Hs|Hs].
    2:{ now rewrite (completePod_guard _ _ _ Hp Hs). }
    rewrite (completePod_active _ _ _ Hp Hs).
    set (st1 := set_pods _ st).
    pose proof (for_each_same_tables _ (Pod.participants pod)
                  (fun q s => note_body_same_tables (completed_note pod (clock st)) q s)
                  st1) as Ht.
    destruct (for_each _ _ st1) as [[[]|e] st']; simpl in *;
      now destruct Ht as (_ & Hses & _). }
  assert (Hcancel : forall pid, sessions (cancelPod pid st).2 = sessions st).
  { intros pid. destruct (pods st !! pid) as [pod|] eqn:Hp.
    2:{ unfold cancelPod.
        now rewrite (bind_ok _ _ st None st) by (unfold getPod; now rewrite Hp). }
    rewrite (cancelPod_run _ _ _ Hp).
    set (st1 := set_pods _ st).
    pose proof (for_each_same_tables _ (guests pod)
                  (fun q s => note_body_same_tables (cancelled_note pod (clock st)) q s)
                  st1) as Ht.
    destruct (for_each _ _ st1) as [[[]|e] st']; simpl in *;
      now destruct Ht as (_ & Hses & _). }
  assert (Hjoin : forall pid uid name, sessions (joinPod pid uid name st).2 = sessions st).
  { intros pid uid name. rewrite joinPod_run.
    destruct (pods st !! pid) as [pod|]; [|reflexivity].
    destruct (bool_decide (Pod.status pod <> WAITING)); [reflexivity|].
    destruct (is_participant uid pod); [reflexivity|].
    cbv zeta. now destruct (bool_decide _). }
  assert (Hothers : forall c, (forall pid, c <> StartPod pid) ->
                              sessions (run_pod_call c st) = sessions st).
  { intros c Hc. destruct c as [bot cid cname d t|pid uid name|pid|pid|pid uid a|pid|pid uid];
      simpl.
    - apply createPod_sessions.
    - apply Hjoin.
    - now destruct (Hc pid).
    - apply Hcomplete.
    - rewrite updateParticipantAction_run.
      destruct (pods st !! pid) as [pod|]; [|reflexivity].
      now destruct (findIndex _ _).
    - apply Hcancel.
    - rewrite leavePod_run.
      destruct (pods st !! pid) as [pod|]; [|reflexivity].
      now destruct (bool_decide _). }
  split; [exact Hothers|].
  intros Hinv.
  assert (Hcalls : forall c, at_most_one_open (run_pod_call c st)).
  { intros c.
    assert (Hc : (exists pid, c = StartPod pid) \/ forall pid, c <> StartPod pid)
      by (destruct c; try (right; discriminate); left; eauto).
    destruct Hc as [[pid ->]|Hn].
    - now apply startPod_keeps_one_open.
    - apply (at_most_one_open_same st); [|exact Hinv]. now apply Hothers. }
  split; [exact Hcalls|].
  intros e. destruct e as [bot c d|user code|c pid|pid|c pid]; simpl.
  - destruct (handlePodDuration_store bot c d st) as [->|(user & _ & ->)]; [exact Hinv|].
    exact (Hcalls (CreatePod bot _ _ d _)).
  - destruct (processPodJoinByCode_store user code st) as [->|(pid & _ & ->)]; [exact Hinv|].
    exact (Hcalls (JoinPod pid _ _)).
  - destruct (handlePodStart_store c pid st) as [->| ->]; [exact Hinv|].
    exact (Hcalls (StartPod pid)).
  - exact (Hcalls (CompletePod pid)).
  - destruct (handlePodCancel_store c pid st) as [->| ->]; [exact Hinv|].
    exact (Hcalls (CancelPod pid)).
Qed.

Lemma X28_pods_keep_one_open_witness :
  at_most_one_open (run_pod_call (StartPod "p1") (store_with_pod WAITING))
  /\ sessions (run_pod_call (CancelPod "p1") (store_with_pod WAITING)) = ∅.
Proof.
  destruct (X28_pods_keep_one_open_session (store_with_pod WAITING)) as [Hsame Hkeep].
  split.
  - apply Hkeep. intros i j s t Hi. unfold store_with_pod in Hi. simpl in Hi.
    now rewrite lookup_empty in Hi.
  - rewrite Hsame; [reflexivity|discriminate].
Defined.

(** ** The progress list *)

Lemma percent_spec v c :
  0 <= v -> 0 < c < 200 ->
  exists p,
    js_round (js_min (js_times (js_div v c) 100) 100) = Fin (inject_Z p)
    /\ 0 <= p <= 100
    /\ (p = 100 <-> v >= c).
Proof.
  intros Hv Hc. unfold js_div.
  destruct (Z.eqb_spec c 0) as [|_]; [lia|].
  simpl. eexists. split; [reflexivity|].
  unfold Math_round.
  destruct (Z_lt_le_dec v c) as [Hlt|Hge].
  - assert (E : (Qmin (inject_Z v / inject_Z c * 100) 100 + (1 # 2)
                 == (200 * v + c) # (2 * Z.to_pos c))%Q).
    { rewrite Q.min_l.
      - unfold Qeq, Qdiv, Qmult, Qinv, Qplus, inject_Z.
        destruct c as [|p|p]; try lia. simpl. rewrite Pos2Z.inj_mul. lia.
      - unfold Qle, Qdiv, Qmult, Qinv, inject_Z.
        destruct c as [|p|p]; try lia. simpl. lia. }
    rewrite (Qfloor_comp _ _ E). unfold Qfloor.
    rewrite Pos2Z.inj_mul, Z2Pos.id by lia. change (Z.pos 2) with 2.
    assert (H0 : 0 <= (200 * v + c) / (2 * c)) by (apply Z.div_pos; lia).
    assert (H1 : (200 * v + c) / (2 * c) < 100) by (apply Z.div_lt_upper_bound; lia).
    lia.
  - assert (E : (Qmin (inject_Z v / inject_Z c * 100) 100 + (1 # 2) == 201 # 2)%Q).
    { rewrite Q.min_r; [reflexivity|].
      unfold Qle, Qdiv, Qmult, Qinv, inject_Z.
      destruct c as [|p|p]; try lia. simpl. lia. }
    rewrite (Qfloor_comp _ _ E). change (Qfloor (201 # 2)) with 100. lia.
Qed.

Lemma progress_entry st u a :
  counters_nonneg u -> 0 < Achievement.req_count a < 200 ->
  exists progress,
    (if bool_decide (Achievement.id a ∈ User.achievements u) then ret (Fin 100)
     else
       let count := Achievement.req_count a in
       match Achievement.req_type a with
       | Rpomodoros =>
           ret (js_min (js_times (js_div (User.totalPomodoros u) count) 100) 100)
       | Rtasks =>
           ret (js_min (js_times (js_div (User.completedTasks u) count) 100) 100)
       | Rstreak =>
           ret (js_min (js_times (js_div (User.currentStreak u) count) 100) 100)
       | Rfocus_hours =>
           let hours := User.totalFocusMinutes u / 60 in
           ret (js_min (js_times (js_div hours count) 100) 100)
       | Rpods =>
           pods <- getUserPods (User.id u) ;;
           let created :=
             Z.of_nat
               (length (List.filter
                          (fun p => bool_decide (Pod.creatorId p = User.id u)) pods)) in
           ret (js_min (js_times (js_div created count) 100) 100)
       end) st = (Ok progress, st)
    /\ entry_ok (pods st) u
         (mkAchievementProgress a (bool_decide (Achievement.id a ∈ User.achievements u))
            (js_round progress)).
Proof.
  intros (Hp & Ht & Hs & Hm) Hc. unfold entry_ok. simpl.
  destruct (bool_decide (Achievement.id a ∈ User.achievements u)) eqn:Hin.
  - exists (Fin 100). split; [reflexivity|]. split; [reflexivity|].
    exists 100. split; [reflexivity|]. split; [lia|]. split; auto.
  - assert (Hval : forall v,
               0 <= v ->
               exists p,
                 js_round (js_min (js_times (js_div v (Achievement.req_count a)) 100) 100)
                 = Fin (inject_Z p)
                 /\ 0 <= p <= 100
                 /\ (p = 100 <->
                     false = true \/ bool_decide (v >= Achievement.req_count a) = true)).
    { intros v Hv. destruct (percent_spec v _ Hv Hc) as (p & E & Hb & Hiff).
      exists p. split; [exact E|]. split; [exact Hb|].
      rewrite bool_decide_eq_true, Hiff. split; [auto|]. now intros [|]. }
    unfold meets. cbv zeta.
    destruct (Achievement.req_type a); eexists;
      (split; [reflexivity|]); (split; [reflexivity|]).
    all: first [ now apply Hval
               | apply Hval; apply Z.div_pos; lia
               | apply (Hval (Z.of_nat (length (createdPods (pods st) (User.id u))))); lia ].
Qed.

Lemma progress_loop st u (rest : list Achievement) :
  counters_nonneg u ->
  Forall (fun a => 0 < Achievement.req_count a < 200) rest ->
  forall acc,
    exists l,
      getAchievementsWithProgress_loop u rest acc st = (Ok (acc ++ l), st)
      /\ ap_achievement <$> l = rest
      /\ Forall (entry_ok (pods st) u) l.
Proof.
  intros Hu Hall. induction Hall as [|a rest Ha _ IH]; intros acc.
  - exists []. simpl. rewrite app_nil_r. repeat split. constructor.
  - destruct (progress_entry st u a Hu Ha) as (progress & E & Hok).
    set (e := mkAchievementProgress a _ (js_round progress)) in Hok.
    destruct (IH (acc ++ [e])) as (l & El & Hl & Hoks).
    exists (e :: l). split; [|split].
    + simpl getAchievementsWithProgress_loop. rewrite (bind_ok _ _ _ _ _ E).
      fold e. rewrite El. now rewrite <- app_assoc.
    + rewrite fmap_cons, Hl. reflexivity.
    + now constructor.
Qed.

(** X29. The progress list of a user with non-negative counters.
    [getAchievementsWithProgress] only reads and fails with 'User not
    found' for a missing user.  Otherwise it lists the catalog in order;
    every entry says whether the achievement is unlocked and shows a
    whole percentage between 0 and 100, which is 100 exactly when the
    achievement is unlocked or its requirement is met: a locked
    achievement shown at 100 is one the next sweep unlocks. *)
Theorem X29_progress_list uid st :
  (users st !! uid = None -> getAchievementsWithProgress uid st = (Err UserNotFound, st))
  /\ (forall u,
        users st !! uid = Some u -> counters_nonneg u ->
        exists l,
          getAchievementsWithProgress uid st = (Ok l, st)
          /\ ap_achievement <$> l = ACHIEVEMENTS
          /\ Forall (entry_ok (pods st) u) l
          /\ forall e p,
               e ∈ l -> ap_unlocked e = false -> ap_progress e = Fin (inject_Z p) ->
               (p = 100 <-> eligible (pods st) u (ap_achievement e) = true)).
Proof.
  split.
  - intros Hu. unfold getAchievementsWithProgress.
    rewrite (bind_ok _ _ st None st) by (unfold getUser; now rewrite Hu). reflexivity.
  - intros u Hu Hnn.
    destruct (progress_loop st u ACHIEVEMENTS Hnn) with (acc := @nil AchievementProgress)
      as (l & E & Hl & Hok).
    { repeat constructor. }
    exists l. split; [|split; [exact Hl|split; [exact Hok|]]].
    + unfold getAchievementsWithProgress.
      rewrite (bind_ok _ _ st (Some u) st) by (unfold getUser; now rewrite Hu).
      rewrite (bind_ok _ _ st u st) by reflexivity. exact E.
    + intros e p He Hlocked Hp.
      rewrite Forall_forall in Hok. destruct (Hok e He) as (Hun & p' & Hp' & _ & Hiff).
      rewrite Hp in Hp'. inversion Hp' as [Hz]. subst p'.
      unfold eligible. rewrite <- Hun, Hlocked. simpl. rewrite Hiff, Hlocked.
      split; [now intros [|]|auto].
Qed.

Lemma X29_progress_list_witness :
  exists l,
    getAchievementsWithProgress "u2" store0 = (Ok l, store0)
    /\ (ap_progress <$> l)
       = [Fin 0; Fin 100; Fin 71; Fin 0; Fin 0; Fin 0; Fin 0; Fin 0].
Proof.
  destruct (X29_progress_list "u2" store0) as [_ H].
  destruct (H bob eq_refl) as (l & E & _).
  { unfold counters_nonneg. simpl. lia. }
  exists l. split; [exact E|].
  assert (Hl : (getAchievementsWithProgress "u2" store0).1 = Ok l) by now rewrite E.
  vm_compute in Hl. inversion Hl. reflexivity.
Defined.

(** ** The clock face *)

Lemma padStart_two_digits x :
  0 <= x < 100 -> padStart 2 "0" (pretty x) = two_digits x.
Proof.
  intros Hx.
  assert (Hall : Forall (fun x => padStart 2 "0" (pretty x) = two_digits x) (seqZ 0 100))
    by (apply (bool_decide_unpack _); vm_compute; exact I).
  rewrite Forall_forall in Hall. apply Hall, elem_of_seqZ. lia.
Qed.

Lemma digit_inj a b : 0 <= a < 10 -> 0 <= b < 10 -> digit a = digit b -> a = b.
Proof.
  intros Ha Hb H. unfold digit in H.
  apply (f_equal nat_of_ascii) in H.
  rewrite !nat_ascii_embedding in H by lia. lia.
Qed.

Lemma two_digits_inj a b :
  0 <= a < 100 -> 0 <= b < 100 -> two_digits a = two_digits b -> a = b.
Proof.
  intros Ha Hb H. unfold two_digits in H. inversion H as [[H1 H2]].
  apply digit_inj in H1;
    [|split; [apply Z.div_pos|apply Z.div_lt_upper_bound]; lia
     |split; [apply Z.div_pos|apply Z.div_lt_upper_bound]; lia].
  apply digit_inj in H2; [|apply Z.mod_pos_bound; lia|apply Z.mod_pos_bound; lia].
  rewrite (Z.div_mod a 10), (Z.div_mod b 10) by lia. now rewrite H1, H2.
Qed.

(** X30. [formatRemainingTime] shows minutes below 100 and seconds
    below 100 as two digits each with a colon between them, a leading
    zero filling up, so that the text has five characters and the two
    numbers can be read back from it; this is the case for what
    [getSessionInfo] reports of a session planned for fewer than 100
    minutes that has started. *)
Theorem X30_clock_face :
  (forall m s,
     0 <= m < 100 -> 0 <= s < 100 ->
     formatRemainingTime m s = two_digits m +:+ ":" +:+ two_digits s
     /\ String.length (formatRemainingTime m s) = 5%nat)
  /\ (forall m s m' s',
        0 <= m < 100 -> 0 <= s < 100 -> 0 <= m' < 100 -> 0 <= s' < 100 ->
        formatRemainingTime m s = formatRemainingTime m' s' -> m = m' /\ s = s')
  /\ (forall sid st session info,
        sessions st !! sid = Some session ->
        PomodoroSession.completed session = false ->
        PomodoroSession.duration session < 100 ->
        PomodoroSession.startTime session <= clock st ->
        getSessionInfo sid st = (Ok (Some info), st) ->
        formatRemainingTime (si_remainingMinutes info) (si_remainingSeconds info)
        = two_digits (si_remainingMinutes info) +:+ ":"
            +:+ two_digits (si_remainingSeconds info)).
Proof.
  assert (Hform : forall m s, 0 <= m < 100 -> 0 <= s < 100 ->
                              formatRemainingTime m s
                              = two_digits m +:+ ":" +:+ two_digits s).
  { intros m s Hm Hs. unfold formatRemainingTime.
    now rewrite !padStart_two_digits by assumption. }
  split; [|split].
  - intros m s Hm Hs. split; [now apply Hform|]. now rewrite Hform.
  - intros m s m' s' Hm Hs Hm' Hs' E.
    rewrite !Hform in E by assumption. unfold two_digits in E.
    inversion E as [[H1 H2 H3 H4]].
    split; apply two_digits_inj; try assumption; unfold two_digits; congruence.
  - intros sid st session info Hs Hc Hd Hstart E.
    rewrite getSessionInfo_run, Hs, Hc in E. cbv zeta in E. inversion E. subst info.
    cbn [si_remainingMinutes si_remainingSeconds].
    set (r := Z.max 0 _).
    destruct (countdown_split r ltac:(unfold r; lia)) as (Hm & Hsec & Hr).
    apply Hform; [|lia].
    split; [exact Hm|].
    assert (r <= Z.max 0 (PomodoroSession.duration session * 60000)) by (unfold r; lia).
    change (60 * 1000) with 60000 in *. lia.
Qed.

Lemma X30_clock_face_witness :
  formatRemainingTime 4 7 = "04:07"
  /\ exists info,
       getSessionInfo "s1" (store_running 5) = (Ok (Some info), store_running 5)
       /\ formatRemainingTime (si_remainingMinutes info) (si_remainingSeconds info)
          = "20:00".
Proof.
  destruct X30_clock_face as (Hform & _ & Hinfo).
  split.
  - destruct (Hform 4 7) as [E _]; [lia|lia|]. rewrite E. reflexivity.
  - destruct (getSessionInfo "s1" (store_running 5)) as [r st'] eqn:E.
    assert (Hr : (r, st') = (Ok (Some (mkSessionInfo session1 20 0)), store_running 5))
      by (rewrite <- E; vm_compute; reflexivity).
    inversion Hr. subst r st'. eexists. split; [reflexivity|].
    rewrite (Hinfo "s1" (store_running 5) session1 _ eq_refl eq_refl); [reflexivity| | |exact E].
    + vm_compute. reflexivity.
    + vm_compute. discriminate.
Defined.
